(** * opencode-diffs: finding lifecycle and anchor reconciliation

    A shallow embedding of the review core of [src/index.ts]: the anchor
    codec ([normalize], [anchor], [remap]), the reconciler ([reconcile]),
    the draft sanitizer ([sanitize]) and the request handlers of the round
    controller (draft save, resolve, submit, abort); and of what feeds it:
    the command arguments ([parse]), the git listing and the collected
    files ([split], [count], [text], [internal], [repo], [merge], [names],
    [collectWorking], [collectBase], [renderFiles], the [--files] filter)
    and the names of the round exports.

    Conventions of the embedding
    - A JavaScript string is a [string]; its characters stand for the code
      units below 256, so the white space known to [trim] is the part of the
      ECMAScript white space and line terminators that lies in that range.
    - Line numbers, rounds and time stamps are [Z]: the code only ever adds
      or subtracts small integers, where double arithmetic is exact.  The
      numbers of a raw draft item are finite rationals or one of the three
      non-finite doubles.
    - [Date.now()] and [crypto.randomUUID()] are inputs of the functions
      that call them.
    - The items of a submission are modelled at their declared type
      ([DraftFinding.t]: an object whose id, if any, is a string) and raw
      ([RawItem]: also [null], values that are no objects, ids of any
      type).  On raw items [sanitize] and the submit handler can throw
      ([sanitize_raw], [handle_submit_raw]); on items of the declared type
      they agree with the typed functions ([sanitize_raw_typed],
      [handle_submit_raw_typed]). *)

From Stdlib Require Import ZArith QArith Qround Qminmax String Ascii List Lia.
From stdpp Require Import base option list gmap strings pretty.

Close Scope Q_scope.
Open Scope string_scope.
Open Scope list_scope.
Open Scope Z_scope.

(** ** JavaScript strings and arrays *)

Definition LF : ascii := Ascii.ascii_of_nat 10.

(** White space and line terminators of ECMAScript among the code units
    below 256: TAB, LF, VT, FF, CR, SP and NBSP. *)
Definition is_ws (c : ascii) : bool :=
  let n := Ascii.nat_of_ascii c in
  bool_decide (n ∈ [9; 10; 11; 12; 13; 32; 160]%nat).

Fixpoint trimStart (s : string) : string :=
  match s with
  | EmptyString => EmptyString
  | String c r => if is_ws c then trimStart r else s
  end.

Fixpoint trimEnd (s : string) : string :=
  match s with
  | EmptyString => EmptyString
  | String c r =>
      match trimEnd r with
      | EmptyString => if is_ws c then EmptyString else String c EmptyString
      | r' => String c r'
      end
  end.

(** [s.trim()] *)
Definition trim (s : string) : string := trimEnd (trimStart s).

(** Truthiness of a string: [!s] holds exactly for the empty string. *)
Definition truthy (s : string) : bool :=
  match s with EmptyString => false | String _ _ => true end.

(** [s.split("\n")] *)
Fixpoint split_nl (s : string) : list string :=
  match s with
  | EmptyString => [EmptyString]
  | String c r =>
      if Ascii.eqb c LF then EmptyString :: split_nl r
      else match split_nl r with
           | h :: t => String c h :: t
           | [] => [String c EmptyString]
           end
  end.

(** [l.join("\n")] *)
Fixpoint join_nl (l : list string) : string :=
  match l with
  | [] => EmptyString
  | x :: r =>
      match r with
      | [] => x
      | _ :: _ => x +:+ String LF (join_nl r)
      end
  end.

(** Relative index of [slice]: a negative index counts from the end, and
    the result is clamped to [0..len]. *)
Definition rel_index (len i : Z) : Z :=
  if i <? 0 then Z.max (len + i) 0 else Z.min i len.

(** [l.slice(s, e)] on arrays *)
Definition slice {A} (l : list A) (s e : Z) : list A :=
  let len := Z.of_nat (length l) in
  let k := rel_index len s in
  let f := rel_index len e in
  take (Z.to_nat (f - k)) (drop (Z.to_nat k) l).

(** [s.slice(b, e)] on strings *)
Definition str_slice (s : string) (b e : Z) : string :=
  let len := Z.of_nat (String.length s) in
  let k := rel_index len b in
  let f := rel_index len e in
  substring (Z.to_nat k) (Z.to_nat (f - k)) s.

(** [l[i]]: [undefined] (here [None]) outside the array *)
Definition at_index {A} (l : list A) (i : Z) : option A :=
  if i <? 0 then None else l !! Z.to_nat i.

(** [text.indexOf(pat)]: the leftmost position where [pat] occurs, [-1] when
    there is none. *)
Fixpoint indexOf (text pat : string) : Z :=
  if String.prefix pat text then 0
  else match text with
       | EmptyString => -1
       | String _ r => let i := indexOf r pat in if i <? 0 then -1 else i + 1
       end.

(** [a || b] on numbers: [0] is falsy *)
Definition or_num (a b : Z) : Z := if a =? 0 then b else a.

(** ** Data model *)

Module Anchor.
Record t := mk { before : string; selected : string; after : string }.
End Anchor.

(** [Finding.status] and [Finding.close_reason]: values only the code
    produces. *)
Inductive Status := open | closed_auto | resolved.
Inductive CloseReason := file_removed | anchor_missing.

#[global] Instance Status_eq_dec : EqDecision Status.
Proof. solve_decision. Defined.
#[global] Instance CloseReason_eq_dec : EqDecision CloseReason.
Proof. solve_decision. Defined.

(** [side], [category] and [severity] are the strings they are at run time:
    they come from a request body and [remap] compares [side] with
    ["deletions"] only. *)
Module Finding.
Record t := mk {
  id : string;
  round : Z;
  file : string;
  side : string;
  start_line : Z;
  end_line : Z;
  category : string;
  severity : string;
  comment : string;
  status : Status;
  anchor : Anchor.t;
  created_at : Z;
  updated_at : Z;
  closed_at : option Z;
  close_reason : option CloseReason
}.
End Finding.

Module ReviewFile.
Inductive Status := added | deleted | modified.
Record t := mk {
  path : string;
  status : Status;
  additions : Z;
  deletions : Z;
  before : string;
  after : string
}.
End ReviewFile.

Module Range.
Record t := mk { start_line : Z; end_line : Z }.
End Range.

(** ** Anchor codec *)

(** [start] and [end] are integers here: the one caller of [anchor] passes
    floors. *)
Definition normalize (start end_ : Z) : Z * Z :=
  if start <=? end_ then (start, end_) else (end_, start).

Definition anchor (content : string) (start end_ : Z) : Anchor.t :=
  let range := normalize start end_ in
  let lines := split_nl content in
  let len := Z.of_nat (length lines) in
  let begin := Z.max 1 (Z.min (fst range) (or_num len 1)) in
  let finish := Z.max begin (Z.min (snd range) (or_num len begin)) in
  {| Anchor.before := default "" (at_index lines (begin - 2));
     Anchor.selected := join_nl (slice lines (begin - 1) finish);
     Anchor.after := default "" (at_index lines finish) |}.

(** The comparison text of a finding: [before] for deletions, [after]
    otherwise. *)
Definition side_text (side : string) (file : ReviewFile.t) : string :=
  if String.eqb side "deletions" then ReviewFile.before file
  else ReviewFile.after file.

Definition remap (item : Finding.t) (file : ReviewFile.t) : option Range.t :=
  let text := side_text (Finding.side item) file in
  let sel := Anchor.selected (Finding.anchor item) in
  if negb (truthy sel) then None
  else
    let index := indexOf text sel in
    if index <? 0 then None
    else
      let prefix := str_slice text 0 index in
      let start := Z.of_nat (length (split_nl prefix)) in
      let size := Z.max 1 (Z.of_nat (length (split_nl sel))) in
      Some {| Range.start_line := start; Range.end_line := start + size - 1 |}.

(** ** Reconciler *)

(** [new Map(files.map((file) => [file.path, file]))]: entries are set in
    order, so a later file with the same path replaces an earlier one. *)
Definition file_map (files : list ReviewFile.t) : gmap string ReviewFile.t :=
  fold_left (λ m file, <[ReviewFile.path file := file]> m) files ∅.

(** [{...item, status: "closed_auto", close_reason, closed_at: now,
    updated_at: now}] *)
Definition close_auto (item : Finding.t) (reason : CloseReason) (now : Z)
  : Finding.t :=
  {| Finding.id := Finding.id item;
     Finding.round := Finding.round item;
     Finding.file := Finding.file item;
     Finding.side := Finding.side item;
     Finding.start_line := Finding.start_line item;
     Finding.end_line := Finding.end_line item;
     Finding.category := Finding.category item;
     Finding.severity := Finding.severity item;
     Finding.comment := Finding.comment item;
     Finding.status := closed_auto;
     Finding.anchor := Finding.anchor item;
     Finding.created_at := Finding.created_at item;
     Finding.updated_at := now;
     Finding.closed_at := Some now;
     Finding.close_reason := Some reason |}.

(** [{...item, start_line: next.start_line, end_line: next.end_line,
    updated_at: now}] *)
Definition relocate (item : Finding.t) (next : Range.t) (now : Z)
  : Finding.t :=
  {| Finding.id := Finding.id item;
     Finding.round := Finding.round item;
     Finding.file := Finding.file item;
     Finding.side := Finding.side item;
     Finding.start_line := Range.start_line next;
     Finding.end_line := Range.end_line next;
     Finding.category := Finding.category item;
     Finding.severity := Finding.severity item;
     Finding.comment := Finding.comment item;
     Finding.status := Finding.status item;
     Finding.anchor := Finding.anchor item;
     Finding.created_at := Finding.created_at item;
     Finding.updated_at := now;
     Finding.closed_at := Finding.closed_at item;
     Finding.close_reason := Finding.close_reason item |}.

Definition is_open (item : Finding.t) : bool :=
  match Finding.status item with open => true | _ => false end.

(** The body of the [findings.map] callback of [reconcile]. *)
Definition reconcile_item (now : Z) (map : gmap string ReviewFile.t)
    (item : Finding.t) : Finding.t :=
  if negb (is_open item) then item
  else match map !! Finding.file item with
       | None => close_auto item file_removed now
       | Some file =>
           match remap item file with
           | None => close_auto item anchor_missing now
           | Some next => relocate item next now
           end
       end.

(** [now] is the value of the one [Date.now()] call of [reconcile]. *)
Definition reconcile (now : Z) (files : list ReviewFile.t)
    (findings : list Finding.t) : list Finding.t :=
  let map := file_map files in
  reconcile_item now map <$> findings.

(** ** Draft sanitizer *)

(** A JavaScript number: a finite double (a rational) or one of the
    non-finite doubles. *)
Inductive jsnum := NaN | PosInfinity | NegInfinity | Finite (q : Q).

(** A raw value of a request body, as far as [sanitize] tells values apart. *)
Inductive jsval :=
  | JUndefined
  | JNull
  | JBool (b : bool)
  | JNum (n : jsnum)
  | JStr (s : string)
  | JObject.

(** A draft item at its declared type: an object whose [id], if any, is a
    string; [sanitize] checks the run-time type of every other field.  Raw
    items, which need be neither, are modelled further down
    ([RawItem], [sanitize_raw]). *)
Module DraftFinding.
Record t := mk {
  id : option string;
  file : jsval;
  side : jsval;
  start_line : jsval;
  end_line : jsval;
  category : jsval;
  severity : jsval;
  comment : jsval
}.
End DraftFinding.

Definition categories : list string := ["bug"; "style"; "perf"; "question"].
Definition severities : list string := ["high"; "medium"; "low"].
Definition sides : list string := ["additions"; "deletions"].

(** [l.includes(v)] for an array of strings: only an equal string is found. *)
Definition includes (l : list string) (v : jsval) : bool :=
  match v with
  | JStr s => bool_decide (s ∈ l)
  | _ => false
  end.

Definition isCategory (input : jsval) : bool := includes categories input.
Definition isSeverity (input : jsval) : bool := includes severities input.
Definition isSide (input : jsval) : bool := includes sides input.

(** [typeof v === "string"] *)
Definition is_string (v : jsval) : bool :=
  match v with JStr _ => true | _ => false end.

(** [Number.isFinite(v)] *)
Definition Number_isFinite (v : jsval) : bool :=
  match v with JNum (Finite _) => true | _ => false end.

(** The string held by a value that passed [is_string]. *)
Definition as_string (v : jsval) : string :=
  match v with JStr s => s | _ => EmptyString end.

(** The number held by a value that passed [Number_isFinite]. *)
Definition as_number (v : jsval) : Q :=
  match v with JNum (Finite q) => q | _ => 0%Q end.

(** The id synthesized for the item at [index] of a batch; [uuid] is the
    value of [crypto.randomUUID()]. *)
Definition synth_id (round : Z) (index : nat) (uuid : string) : string :=
  "finding_" +:+ pretty round +:+ "_" +:+ pretty (Z.of_nat index + 1)
    +:+ "_" +:+ str_slice uuid 0 6.

(** The body of the [items.flatMap] callback of [sanitize] on an item of
    the declared type; [uuid index] is the UUID drawn for the item at
    [index].  On raw items the callback is [sanitize_raw_item]. *)
Definition sanitize_item (round now : Z) (uuid : nat → string)
    (files : gmap string ReviewFile.t) (index : nat) (item : DraftFinding.t)
  : list Finding.t :=
  if negb (is_string (DraftFinding.file item))
     || negb (truthy (as_string (DraftFinding.file item))) then []
  else if negb (is_string (DraftFinding.comment item))
     || negb (truthy (trim (as_string (DraftFinding.comment item)))) then []
  else if negb (isSide (DraftFinding.side item)) then []
  else if negb (isCategory (DraftFinding.category item)) then []
  else if negb (isSeverity (DraftFinding.severity item)) then []
  else if negb (Number_isFinite (DraftFinding.start_line item))
     || negb (Number_isFinite (DraftFinding.end_line item)) then []
  else
    match files !! as_string (DraftFinding.file item) with
    | None => []
    | Some file =>
        let item_start := as_number (DraftFinding.start_line item) in
        let item_end := as_number (DraftFinding.end_line item) in
        let start_line := Z.max 1 (Qfloor (Qmin item_start item_end)) in
        let end_line :=
          Z.max start_line (Qfloor (Qmax item_start item_end)) in
        let source := side_text (as_string (DraftFinding.side item)) file in
        let next := anchor source start_line end_line in
        if negb (truthy (trim (Anchor.selected next))) then []
        else
          let id :=
            match DraftFinding.id item with
            | Some s =>
                if truthy (trim s) then trim s
                else synth_id round index (uuid index)
            | None => synth_id round index (uuid index)
            end in
          [ {| Finding.id := id;
               Finding.round := round;
               Finding.file := as_string (DraftFinding.file item);
               Finding.side := as_string (DraftFinding.side item);
               Finding.start_line := start_line;
               Finding.end_line := end_line;
               Finding.category := as_string (DraftFinding.category item);
               Finding.severity := as_string (DraftFinding.severity item);
               Finding.comment := trim (as_string (DraftFinding.comment item));
               Finding.status := open;
               Finding.anchor := next;
               Finding.created_at := now;
               Finding.updated_at := now;
               Finding.closed_at := None;
               Finding.close_reason := None |} ]
    end.

(** [items.flatMap((item, index) => ...)]; [now] is the one [Date.now()]
    call of [sanitize]. *)
Definition sanitize (now : Z) (uuid : nat → string)
    (items : list DraftFinding.t) (round : Z)
    (files : gmap string ReviewFile.t) : list Finding.t :=
  mjoin (imap (sanitize_item round now uuid files) items).

(** ** Round controller *)

Module Draft.
Record t := mk { notes : string; new_findings : list DraftFinding.t }.
End Draft.

Module State.
Record t := mk {
  session_id : string;
  round : Z;
  findings : list Finding.t;
  draft : option Draft.t;
  updated_at : Z
}.
End State.

(** The body of a draft or submit request; a field is [None] when it is
    absent or not of the expected type. *)
Module Submit.
Record t := mk {
  notes : option string;
  new_findings : option (list DraftFinding.t)
}.
End Submit.

(** The launch data served to the UI.  [existing_findings] holds references
    to the objects of [base.findings], as positions in that array. *)
Module Launch.
Record t := mk {
  round : Z;
  existing_findings : list nat;
  draft : Draft.t
}.
End Launch.

Module Done.
Record t := mk {
  cancelled : bool;
  round : Z;
  notes : string;
  findings : list Finding.t
}.
End Done.

(** A round export ([round-NNN.json] and [round-NNN.md]). *)
Module RoundExport.
Record t := mk { round : Z; notes : string; findings : list Finding.t }.
End RoundExport.

Inductive Response :=
  | Ok200
  | BadRequest400 (error : string)
  | NotFound404 (error : string).

(** What [execute] holds once the review is launched: the variables of its
    closure, the content of [state.json] and the exports written so far. *)
Module Session.
Record t := mk {
  files : list ReviewFile.t;
  base : State.t;
  data : Launch.t;
  done : option Done.t;
  state_file : State.t;
  exports : list RoundExport.t
}.
End Session.

Definition defaultState (session_id : string) (now : Z) : State.t :=
  {| State.session_id := session_id;
     State.round := 0;
     State.findings := [];
     State.draft := None;
     State.updated_at := now |}.

(** References to the open findings of an array, in order
    ([merged.filter((item) => item.status === "open")]). *)
Fixpoint open_refs (index : nat) (findings : list Finding.t) : list nat :=
  match findings with
  | [] => []
  | item :: rest =>
      if is_open item then index :: open_refs (S index) rest
      else open_refs (S index) rest
  end.

(** Start of a round: reconcile the loaded [state], save it, build the
    launch data. *)
Definition launch (files : list ReviewFile.t) (state : State.t)
    (t_reconcile t_saved : Z) : Session.t :=
  let merged := reconcile t_reconcile files (State.findings state) in
  let existing := open_refs 0 merged in
  let base :=
    {| State.session_id := State.session_id state;
       State.round := State.round state;
       State.findings := merged;
       State.draft := State.draft state;
       State.updated_at := t_saved |} in
  {| Session.files := files;
     Session.base := base;
     Session.data :=
       {| Launch.round := State.round base + 1;
          Launch.existing_findings := existing;
          Launch.draft :=
            default {| Draft.notes := ""; Draft.new_findings := [] |}
                    (State.draft base) |};
     Session.done := None;
     Session.state_file := base;
     Session.exports := [] |}.

(** The closure [resolve] of [execute]: only the first result counts. *)
Definition resolve (result : Done.t) (s : Session.t) : Session.t :=
  match Session.done s with
  | Some _ => s
  | None =>
      {| Session.files := Session.files s;
         Session.base := Session.base s;
         Session.data := Session.data s;
         Session.done := Some result;
         Session.state_file := Session.state_file s;
         Session.exports := Session.exports s |}
  end.

(** [PUT /api/review/:id/draft] *)
Definition handle_draft (input : Submit.t) (now : Z) (s : Session.t)
  : Session.t * Response :=
  let notes := default "" (Submit.notes input) in
  let new_findings := default [] (Submit.new_findings input) in
  let base := Session.base s in
  let next :=
    {| State.session_id := State.session_id base;
       State.round := State.round base;
       State.findings := State.findings base;
       State.draft :=
         Some {| Draft.notes := notes; Draft.new_findings := new_findings |};
       State.updated_at := now |} in
  ({| Session.files := Session.files s;
      Session.base := base;
      Session.data := Session.data s;
      Session.done := Session.done s;
      Session.state_file := next;
      Session.exports := Session.exports s |}, Ok200).

(** [target.status = "resolved"; target.updated_at = ...;
    target.closed_at = ...] *)
Definition mark_resolved (target : Finding.t) (t_updated t_closed : Z)
  : Finding.t :=
  {| Finding.id := Finding.id target;
     Finding.round := Finding.round target;
     Finding.file := Finding.file target;
     Finding.side := Finding.side target;
     Finding.start_line := Finding.start_line target;
     Finding.end_line := Finding.end_line target;
     Finding.category := Finding.category target;
     Finding.severity := Finding.severity target;
     Finding.comment := Finding.comment target;
     Finding.status := resolved;
     Finding.anchor := Finding.anchor target;
     Finding.created_at := Finding.created_at target;
     Finding.updated_at := t_updated;
     Finding.closed_at := Some t_closed;
     Finding.close_reason := Finding.close_reason target |}.

(** The id of the object a reference of [existing_findings] points to. *)
Definition ref_id (findings : list Finding.t) (ref : nat) : option string :=
  Finding.id <$> findings !! ref.

(** [POST /api/review/:id/resolve]; the three time stamps are the values of
    its [Date.now()] calls, in order. *)
Definition handle_resolve (finding_id : option string)
    (t_updated t_closed t_saved : Z) (s : Session.t)
  : Session.t * Response :=
  match finding_id with
  | None => (s, BadRequest400 "finding_id required")
  | Some fid =>
      if negb (truthy fid) then (s, BadRequest400 "finding_id required")
      else
        let base := Session.base s in
        match list_find
                (λ item, Finding.id item = fid ∧ Finding.status item = open)
                (State.findings base) with
        | None => (s, NotFound404 "finding not found or already resolved")
        | Some (at_, target) =>
            let findings :=
              <[at_ := mark_resolved target t_updated t_closed]>
                (State.findings base) in
            let base' :=
              {| State.session_id := State.session_id base;
                 State.round := State.round base;
                 State.findings := findings;
                 State.draft := State.draft base;
                 State.updated_at := t_saved |} in
            let existing := Launch.existing_findings (Session.data s) in
            let existing' :=
              match list_find (λ ref, ref_id findings ref = Some fid)
                              existing with
              | Some (idx, _) => delete idx existing
              | None => existing
              end in
            ({| Session.files := Session.files s;
                Session.base := base';
                Session.data :=
                  {| Launch.round := Launch.round (Session.data s);
                     Launch.existing_findings := existing';
                     Launch.draft := Launch.draft (Session.data s) |};
                Session.done := Session.done s;
                Session.state_file := base';
                Session.exports := Session.exports s |}, Ok200)
        end
  end.

(** [POST /api/review/:id/submit]; [t_sanitize] is the [Date.now()] of
    [sanitize], [t_saved] the one stamped on the saved state. *)
Definition handle_submit (input : Submit.t) (uuid : nat → string)
    (t_sanitize t_saved : Z) (s : Session.t) : Session.t * Response :=
  let base := Session.base s in
  let notes := default "" (trim <$> Submit.notes input) in
  let fresh := default [] (Submit.new_findings input) in
  let round := State.round base + 1 in
  let created :=
    sanitize t_sanitize uuid fresh round (file_map (Session.files s)) in
  let carry := filter (λ item, Finding.status item = open)
                      (State.findings base) in
  let closed := filter (λ item, Finding.status item ≠ open)
                       (State.findings base) in
  let findings := closed ++ carry ++ created in
  let next :=
    {| State.session_id := State.session_id base;
       State.round := round;
       State.findings := findings;
       State.draft := None;
       State.updated_at := t_saved |} in
  let completed :=
    {| Done.cancelled := false;
       Done.round := round;
       Done.notes := notes;
       Done.findings := findings |} in
  (resolve completed
     {| Session.files := Session.files s;
        Session.base := base;
        Session.data := Session.data s;
        Session.done := Session.done s;
        Session.state_file := next;
        Session.exports :=
          Session.exports s ++
          [ {| RoundExport.round := round;
               RoundExport.notes := notes;
               RoundExport.findings := findings |} ] |}, Ok200).

(** The listener of [context.abort]. *)
Definition on_abort (s : Session.t) : Session.t :=
  resolve {| Done.cancelled := true;
             Done.round := State.round (Session.base s) + 1;
             Done.notes := "";
             Done.findings := State.findings (Session.base s) |} s.

(** What can happen to a launched review. *)
Inductive Request :=
  | PutDraft (input : Submit.t) (now : Z)
  | PostResolve (finding_id : option string) (t_updated t_closed t_saved : Z)
  | PostSubmit (input : Submit.t) (uuid : nat → string)
               (t_sanitize t_saved : Z)
  | AbortSignal.

Definition step (s : Session.t) (r : Request) : Session.t :=
  match r with
  | PutDraft input now => fst (handle_draft input now s)
  | PostResolve fid t1 t2 t3 => fst (handle_resolve fid t1 t2 t3 s)
  | PostSubmit input uuid t1 t2 => fst (handle_submit input uuid t1 t2 s)
  | AbortSignal => on_abort s
  end.

Definition run (s : Session.t) (rs : list Request) : Session.t :=
  fold_left step rs s.

(** Requests of the review phase proper, before submission or abort. *)
Definition is_review (r : Request) : bool :=
  match r with
  | PutDraft _ _ | PostResolve _ _ _ _ => true
  | PostSubmit _ _ _ _ | AbortSignal => false
  end.

(** ** Raw submissions *)

(** An object among the raw items of a submission, every field as JSON
    delivers it; a field that is absent is [JUndefined]. *)
Module RawFinding.
Record t := mk {
  id : jsval;
  file : jsval;
  side : jsval;
  start_line : jsval;
  end_line : jsval;
  category : jsval;
  severity : jsval;
  comment : jsval
}.
End RawFinding.

(** A raw item of [new_findings]: [null]; a boolean, number or string,
    which has none of the properties [sanitize] reads; or an object (an
    array is an object without these properties). *)
Inductive RawItem :=
  | RawNull
  | RawScalar
  | RawObject (fields : RawFinding.t).

(** [id?.trim()]: [undefined] (here [Some None]) for an id that is absent
    or [null], the trimmed string for a string, and a [TypeError] (here
    [None]) for any other value, which has no method [trim]. *)
Definition id_trim (id : jsval) : option (option string) :=
  match id with
  | JUndefined | JNull => Some None
  | JStr s => Some (Some (trim s))
  | JBool _ | JNum _ | JObject => None
  end.

(** The callback of [items.flatMap] in [sanitize] on a raw item; [None]
    when it throws: reading [item.file] of [null], or calling [trim] on an
    id that is not a string, once every check is passed. *)
Definition sanitize_raw_item (round now : Z) (uuid : nat → string)
    (files : gmap string ReviewFile.t) (index : nat) (item : RawItem)
  : option (list Finding.t) :=
  match item with
  | RawNull => None
  | RawScalar => Some []
  | RawObject item =>
      if negb (is_string (RawFinding.file item))
         || negb (truthy (as_string (RawFinding.file item))) then Some []
      else if negb (is_string (RawFinding.comment item))
         || negb (truthy (trim (as_string (RawFinding.comment item))))
      then Some []
      else if negb (isSide (RawFinding.side item)) then Some []
      else if negb (isCategory (RawFinding.category item)) then Some []
      else if negb (isSeverity (RawFinding.severity item)) then Some []
      else if negb (Number_isFinite (RawFinding.start_line item))
         || negb (Number_isFinite (RawFinding.end_line item)) then Some []
      else
        match files !! as_string (RawFinding.file item) with
        | None => Some []
        | Some file =>
            let item_start := as_number (RawFinding.start_line item) in
            let item_end := as_number (RawFinding.end_line item) in
            let start_line := Z.max 1 (Qfloor (Qmin item_start item_end)) in
            let end_line :=
              Z.max start_line (Qfloor (Qmax item_start item_end)) in
            let source :=
              side_text (as_string (RawFinding.side item)) file in
            let next := anchor source start_line end_line in
            if negb (truthy (trim (Anchor.selected next))) then Some []
            else
              match id_trim (RawFinding.id item) with
              | None => None
              | Some trimmed =>
                  let id :=
                    if truthy (default "" trimmed) then default "" trimmed
                    else synth_id round index (uuid index) in
                  Some
                    [ {| Finding.id := id;
                         Finding.round := round;
                         Finding.file := as_string (RawFinding.file item);
                         Finding.side := as_string (RawFinding.side item);
                         Finding.start_line := start_line;
                         Finding.end_line := end_line;
                         Finding.category :=
                           as_string (RawFinding.category item);
                         Finding.severity :=
                           as_string (RawFinding.severity item);
                         Finding.comment :=
                           trim (as_string (RawFinding.comment item));
                         Finding.status := open;
                         Finding.anchor := next;
                         Finding.created_at := now;
                         Finding.updated_at := now;
                         Finding.closed_at := None;
                         Finding.close_reason := None |} ]
              end
        end
  end.

(** [sanitize] on raw items: [flatMap] throws as soon as its callback
    does, and then returns nothing. *)
Definition sanitize_raw (now : Z) (uuid : nat → string)
    (items : list RawItem) (round : Z) (files : gmap string ReviewFile.t)
  : option (list Finding.t) :=
  mjoin <$> mapM id (imap (sanitize_raw_item round now uuid files) items).

(** The fields of the body of a submit request, with raw items; a field is
    [None] when it is absent or not of the expected type. *)
Module RawSubmit.
Record t := mk {
  notes : option string;
  new_findings : option (list RawItem)
}.
End RawSubmit.

(** The body of a request as [request.json()] delivers it: [null], or a
    value whose properties can be read. *)
Inductive RawBody :=
  | BodyNull
  | BodyFields (fields : RawSubmit.t).

(** [POST /api/review/:id/submit] on a raw body; [None] when the handler
    throws, which it does reading [input.notes] of [null] or in the call of
    [sanitize]: before the state is saved, an export written or the review
    given its result. *)
Definition handle_submit_raw (body : RawBody) (uuid : nat → string)
    (t_sanitize t_saved : Z) (s : Session.t)
  : option (Session.t * Response) :=
  match body with
  | BodyNull => None
  | BodyFields input =>
  let base := Session.base s in
  let notes := default "" (trim <$> RawSubmit.notes input) in
  let fresh := default [] (RawSubmit.new_findings input) in
  let round := State.round base + 1 in
  match sanitize_raw t_sanitize uuid fresh round
                     (file_map (Session.files s)) with
  | None => None
  | Some created =>
      let carry := filter (λ item, Finding.status item = open)
                          (State.findings base) in
      let closed := filter (λ item, Finding.status item ≠ open)
                           (State.findings base) in
      let findings := closed ++ carry ++ created in
      let next :=
        {| State.session_id := State.session_id base;
           State.round := round;
           State.findings := findings;
           State.draft := None;
           State.updated_at := t_saved |} in
      let completed :=
        {| Done.cancelled := false;
           Done.round := round;
           Done.notes := notes;
           Done.findings := findings |} in
      Some
        (resolve completed
           {| Session.files := Session.files s;
              Session.base := base;
              Session.data := Session.data s;
              Session.done := Session.done s;
              Session.state_file := next;
              Session.exports :=
                Session.exports s ++
                [ {| RoundExport.round := round;
                     RoundExport.notes := notes;
                     RoundExport.findings := findings |} ] |}, Ok200)
  end
  end.

(** ** Further string operations *)

(** [s.startsWith(p)] *)
Definition startsWith (s p : string) : bool := String.prefix p s.

(** [s.endsWith(suffix)] *)
Definition endsWith (s suffix : string) : bool :=
  let n := String.length s in
  let m := String.length suffix in
  if (m <=? n)%nat then String.eqb (substring (n - m) m s) suffix else false.

(** [s.includes(sub)] on strings *)
Definition str_includes (s sub : string) : bool := 0 <=? indexOf s sub.

(** [a || b] on strings: the empty string is falsy *)
Definition or_str (a b : string) : string := if truthy a then a else b.

(** [s.split(sep)] for a separator of one character *)
Fixpoint split_chr (sep : ascii) (s : string) : list string :=
  match s with
  | EmptyString => [EmptyString]
  | String c r =>
      if Ascii.eqb c sep then EmptyString :: split_chr sep r
      else match split_chr sep r with
           | h :: t => String c h :: t
           | [] => [String c EmptyString]
           end
  end.

(** [s.split(/\s+/)]: [in_ws] tells that the character before [s] belongs
    to a run of white space, which separates once however long it is. *)
Fixpoint split_ws_from (in_ws : bool) (s : string) : list string :=
  match s with
  | EmptyString => [EmptyString]
  | String c r =>
      if is_ws c then
        if in_ws then split_ws_from true r
        else EmptyString :: split_ws_from true r
      else match split_ws_from false r with
           | h :: t => String c h :: t
           | [] => [String c EmptyString]
           end
  end.

Definition split_ws (s : string) : list string := split_ws_from false s.

(** [s.padStart(target, c)] for a filler of one character *)
Definition padStart (target : nat) (c : ascii) (s : string) : string :=
  Nat.iter (target - String.length s) (String c) s.

(** ** Command arguments *)

Module Parsed.
Record t := mk {
  files : option (list string);
  base : option string;
  error : option string
}.
End Parsed.

Definition usage : string :=
  "Usage: /diff-review [--base origin/dev] [--files path/to/a.ts,path/to/b.ts]".

Definition parse_error (message : string) : Parsed.t :=
  {| Parsed.files := None;
     Parsed.base := None;
     Parsed.error := Some (message +:+ String LF usage) |}.

(** The loop of [parse] over the tokens from [index] on; [files] and [base]
    are the values assigned so far.  A flag written alone takes the next
    token as its value and skips it. *)
Fixpoint parse_tokens (tokens : list string) (files : option (list string))
    (base : option string) : Parsed.t :=
  match tokens with
  | [] => {| Parsed.files := files; Parsed.base := base; Parsed.error := None |}
  | token :: rest =>
      if negb (truthy token) then parse_tokens rest files base
      else if String.eqb token "--files" || startsWith token "--files=" then
        let value :=
          if startsWith token "--files="
          then Some (str_slice token 8 (Z.of_nat (String.length token)))
          else head rest in
        if negb (truthy (default "" value))
           || startsWith (default "" value) "--"
        then parse_error "--files expects a comma-separated list."
        else
          let parsed :=
            filter (λ item, truthy item = true)
                   (trim <$> split_chr "," (default "" value)) in
          if (length parsed =? 0)%nat
          then parse_error "--files expects a comma-separated list."
          else if String.eqb token "--files" then
            match rest with
            | [] => {| Parsed.files := Some parsed; Parsed.base := base;
                       Parsed.error := None |}
            | _ :: rest' => parse_tokens rest' (Some parsed) base
            end
          else parse_tokens rest (Some parsed) base
      else if String.eqb token "--base" || startsWith token "--base=" then
        let value :=
          if startsWith token "--base="
          then Some (str_slice token 7 (Z.of_nat (String.length token)))
          else head rest in
        if negb (truthy (default "" value))
           || startsWith (default "" value) "--"
        then parse_error "--base expects a branch, tag, or ref name."
        else if String.eqb token "--base" then
          match rest with
          | [] => {| Parsed.files := files;
                     Parsed.base := Some (default "" value);
                     Parsed.error := None |}
          | _ :: rest' => parse_tokens rest' files (Some (default "" value))
          end
        else parse_tokens rest files (Some (default "" value))
      else parse_error ("Unsupported argument: " +:+ token)
  end.

(** [raw] is [None] when the tool is called without the argument. *)
Definition parse (raw : option string) : Parsed.t :=
  if negb (truthy (trim (default "" raw))) then
    {| Parsed.files := None; Parsed.base := None; Parsed.error := None |}
  else
    let tokens :=
      filter (λ item, truthy item = true) (split_ws (trim (default "" raw))) in
    parse_tokens tokens None None.

(** ** Diff source *)

(** What [run] returns for a git command. *)
Module RunResult.
Record t := mk { ok : bool; stdout : string; stderr : string }.
End RunResult.

(** [text.split("\n").map((item) => item.trim()).filter(Boolean)] *)
Definition split (text : string) : list string :=
  filter (λ item, truthy item = true) (trim <$> split_nl text).

Definition count (text : string) : Z :=
  if negb (truthy text) then 0
  else
    let lines := split_nl text in
    if endsWith text (String LF EmptyString)
    then Z.max 0 (Z.of_nat (length lines) - 1)
    else Z.of_nat (length lines).

Definition NUL : string := String (Ascii.ascii_of_nat 0) EmptyString.

Definition text (content : string) : string :=
  if str_includes content NUL then EmptyString else content.

Definition internal (file : string) : bool :=
  startsWith file ".opencode/reviews/"
  || str_includes file "/.opencode/reviews/".

(** [result.stderr.trim() || result.stdout.trim() || fallback] *)
Definition run_error (result : RunResult.t) (fallback : string) : string :=
  or_str (trim (RunResult.stderr result))
         (or_str (trim (RunResult.stdout result)) fallback).

(** [repo], as a function of the result of [git rev-parse --show-toplevel]:
    the path and the error. *)
Definition repo (result : RunResult.t) : string * option string :=
  if negb (RunResult.ok result)
  then (EmptyString, Some (run_error result "failed to resolve git root"))
  else
    let path := trim (RunResult.stdout result) in
    if negb (truthy path)
    then (EmptyString, Some "failed to resolve git root")
    else (path, None).

(** [merge], as a function of the result of [git merge-base base HEAD]. *)
Definition merge (base : string) (result : RunResult.t)
  : string * option string :=
  if negb (RunResult.ok result)
  then (EmptyString,
        Some (run_error result
                ("failed to resolve merge-base for " +:+ base)))
  else
    let rev := trim (RunResult.stdout result) in
    if negb (truthy rev)
    then (EmptyString, Some ("failed to resolve merge-base for " +:+ base))
    else (rev, None).

(** [Array.from(new Set(l))]: the elements in the order of their first
    occurrence. *)
Definition Set_from (l : list string) : list string :=
  fold_left (λ acc x, if decide (x ∈ acc) then acc else acc ++ [x]) l [].

(** [names], as a function of the results of the two git listings: the
    files and the error. *)
Definition names (tracked untracked : RunResult.t)
  : list string * option string :=
  if negb (RunResult.ok tracked)
  then ([], Some (run_error tracked "failed to list tracked changes"))
  else if negb (RunResult.ok untracked)
  then ([], Some (run_error untracked "failed to list untracked files"))
  else
    (filter (λ item, internal item = false)
            (Set_from (split (RunResult.stdout tracked)
                       ++ split (RunResult.stdout untracked))),
     None).

(** [branchNames], as a function of the result of the git listing. *)
Definition branchNames (result : RunResult.t)
  : list string * option string :=
  if negb (RunResult.ok result)
  then ([], Some (run_error result "failed to list branch changes"))
  else (filter (λ item, internal item = false)
               (split (RunResult.stdout result)), None).

(** [before], as a function of the result of [git show HEAD:file]. *)
Definition before (withHead : bool) (result : RunResult.t) : string :=
  if negb withHead then EmptyString
  else if negb (RunResult.ok result) then EmptyString
  else text (RunResult.stdout result).

(** [after]: [content] is [None] when the file does not exist or cannot be
    read. *)
Definition after (content : option string) : string :=
  match content with
  | None => EmptyString
  | Some c => text c
  end.

(** [at], as a function of the result of [git show rev:file]; the name
    [at] is taken by the tactic language. *)
Definition at_rev (result : RunResult.t) : string :=
  if negb (RunResult.ok result) then EmptyString
  else text (RunResult.stdout result).

(** An entry of the numstat map. *)
Module Stat.
Record t := mk { additions : Z; deletions : Z }.
End Stat.

Module SourceFile.
Record t := mk {
  file : string;
  status : ReviewFile.Status;
  before : string;
  after : string;
  additions : Z;
  deletions : Z
}.
End SourceFile.

(** The callback of [listed.files.map] in [collectWorking] and
    [collectBase], from the two contents of the file and its entry of the
    numstat map. *)
Definition collect_entry (file prev next : string) (stat : option Stat.t)
  : SourceFile.t :=
  {| SourceFile.file := file;
     SourceFile.status :=
       if truthy prev && negb (truthy next) then ReviewFile.deleted
       else if negb (truthy prev) && truthy next then ReviewFile.added
       else ReviewFile.modified;
     SourceFile.before := prev;
     SourceFile.after := next;
     SourceFile.additions :=
       match stat with
       | Some st => Stat.additions st
       | None =>
           if truthy prev then Z.max 0 (count next - count prev)
           else count next
       end;
     SourceFile.deletions :=
       match stat with
       | Some st => Stat.deletions st
       | None => Z.max 0 (count prev - count next)
       end |}.

(** [collectWorking] past the listing: [prev] and [next] give the two
    contents read for a file, [map] is the numstat map, whose counts are
    the integers git prints. *)
Definition collectWorking (listed : list string * option string)
    (map : gmap string Stat.t) (prev next : string → string)
  : list SourceFile.t * option string :=
  if truthy (default "" listed.2)
  then ([], Some ("Failed to read git diff: " +:+ default "" listed.2))
  else if (length listed.1 =? 0)%nat then ([], None)
  else
    ((λ file, collect_entry file (prev file) (next file) (map !! file))
       <$> listed.1, None).

(** [collectBase] past the two git commands it starts with: [merged] is
    what [merge] returned, [listed] what [branchNames] returned, and
    [show_base file] and [show_head file] are the results of [git show] for
    the file at the merge base and at [HEAD]. *)
Definition collectBase (base : string) (merged : string * option string)
    (listed : list string * option string) (map : gmap string Stat.t)
    (show_base show_head : string → RunResult.t)
  : list SourceFile.t * option string :=
  if truthy (default "" merged.2)
  then ([], Some ("Failed to resolve --base " +:+ base +:+ ": "
                  +:+ default "" merged.2))
  else if truthy (default "" listed.2)
  then ([], Some ("Failed to read git diff for --base " +:+ base +:+ ": "
                  +:+ default "" listed.2))
  else if (length listed.1 =? 0)%nat then ([], None)
  else
    ((λ file, collect_entry file (at_rev (show_base file))
                            (at_rev (show_head file)) (map !! file))
       <$> listed.1, None).

Definition renderFiles (files : list SourceFile.t) : list ReviewFile.t :=
  (λ item,
     {| ReviewFile.path := SourceFile.file item;
        ReviewFile.status := SourceFile.status item;
        ReviewFile.additions := SourceFile.additions item;
        ReviewFile.deletions := SourceFile.deletions item;
        ReviewFile.before := SourceFile.before item;
        ReviewFile.after := SourceFile.after item |}) <$> files.

(** The files [execute] keeps for the [--files] filter. *)
Definition scoped (parsed_files : option (list string))
    (all : list SourceFile.t) : list SourceFile.t :=
  match parsed_files with
  | Some (v :: vs) =>
      filter
        (λ item,
           bool_decide (SourceFile.file item ∈ v :: vs)
           || existsb (λ value, endsWith (SourceFile.file item) value)
                      (v :: vs) = true)
        all
  | _ => all
  end.

(** The files of the review, which [execute] renders and indexes: the
    collected files that pass the [--files] filter. *)
Definition review_files (parsed_files : option (list string))
    (all : list SourceFile.t) : list ReviewFile.t :=
  renderFiles (scoped parsed_files all).

(** ** Round exports *)

(** [String(round).padStart(3, "0")] *)
Definition stamp (round : Z) : string := padStart 3 "0" (pretty round).

(** The name of the JSON export of a round. *)
Definition json_name (round : Z) : string :=
  "round-" +:+ stamp round +:+ ".json".

(** ** Notions used in the statements *)

(** Number of line feeds of a text. *)
Fixpoint count_nl (s : string) : nat :=
  match s with
  | EmptyString => 0%nat
  | String c r => ((if Ascii.eqb c LF then 1 else 0) + count_nl r)%nat
  end.

(** Number of lines of a text, as [anchor] counts them. *)
Definition line_count (text : string) : Z :=
  Z.of_nat (length (split_nl text)).

(** The 1-based line on which an occurrence starts that is preceded by
    [pre]. *)
Definition line_after (pre : string) : Z :=
  Z.of_nat (length (split_nl pre)).

(** [pat] occurs in [text] right after the prefix [pre]. *)
Definition occurs_after (pre pat text : string) : Prop :=
  ∃ post, text = pre +:+ pat +:+ post.

(** [c] occurs in [s]. *)
Fixpoint has_char (c : ascii) (s : string) : bool :=
  match s with
  | EmptyString => false
  | String d r => Ascii.eqb c d || has_char c r
  end.

(** The line range [sanitize] stores for the finite numbers [s] and [e]. *)
Definition normal_start (s e : Q) : Z := Z.max 1 (Qfloor (Qmin s e)).
Definition normal_end (s e : Q) : Z :=
  Z.max (normal_start s e) (Qfloor (Qmax s e)).

(** The first four checks on a draft item, with the values they expose:
    typed fields, a known file, a comment that is not blank, enumerated
    [side], [category] and [severity], finite line numbers. *)
Definition typed_item (files : gmap string ReviewFile.t)
    (item : DraftFinding.t) (file comment side category severity : string)
    (s e : Q) (snapshot : ReviewFile.t) : Prop :=
  DraftFinding.file item = JStr file
  ∧ DraftFinding.comment item = JStr comment
  ∧ DraftFinding.side item = JStr side
  ∧ DraftFinding.category item = JStr category
  ∧ DraftFinding.severity item = JStr severity
  ∧ DraftFinding.start_line item = JNum (Finite s)
  ∧ DraftFinding.end_line item = JNum (Finite e)
  ∧ file ≠ "" ∧ trim comment ≠ ""
  ∧ side ∈ sides ∧ category ∈ categories ∧ severity ∈ severities
  ∧ files !! file = Some snapshot.

(** The validation checks of the sanitizer as the specification lists them:
    [file] a non-empty string present in the file index, [comment] a string
    that is not blank, [side], [category] and [severity] in their
    enumerations, finite line numbers, and a captured text that does not trim
    to the empty string. *)
Definition passes_checks (files : gmap string ReviewFile.t)
    (item : DraftFinding.t) : bool :=
  match DraftFinding.file item, DraftFinding.comment item,
        DraftFinding.side item, DraftFinding.category item,
        DraftFinding.severity item,
        DraftFinding.start_line item, DraftFinding.end_line item with
  | JStr file, JStr comment, JStr side, JStr category, JStr severity,
    JNum (Finite s), JNum (Finite e) =>
      match files !! file with
      | Some snapshot =>
          bool_decide
            (file ≠ "" ∧ trim comment ≠ ""
             ∧ side ∈ sides ∧ category ∈ categories ∧ severity ∈ severities
             ∧ trim (Anchor.selected
                       (anchor (side_text side snapshot)
                               (normal_start s e) (normal_end s e))) ≠ "")
      | None => false
      end
  | _, _, _, _, _, _, _ => false
  end.

(** The id [sanitize] gives the item at [index]: the caller's id, trimmed,
    unless it is absent or blank. *)
Definition assigned_id (round : Z) (uuid : nat → string) (index : nat)
    (item : DraftFinding.t) : string :=
  match DraftFinding.id item with
  | Some s =>
      if bool_decide (trim s = "") then synth_id round index (uuid index)
      else trim s
  | None => synth_id round index (uuid index)
  end.

(** The items of a batch with their positions. *)
Definition indexed {A} (items : list A) : list (nat * A) :=
  imap (λ index item, (index, item)) items.

(** What holds of a launched review while only drafts are saved and findings
    resolved: the closure still has the files and the round of the loaded
    state, the saved state agrees with the closure on round and findings,
    nothing is finished or exported, and the ids are those of the loaded
    state. *)
Definition review_inv (files : list ReviewFile.t) (state : State.t)
    (s : Session.t) : Prop :=
  Session.files s = files
  ∧ State.round (Session.base s) = State.round state
  ∧ State.round (Session.state_file s) = State.round state
  ∧ State.findings (Session.state_file s) = State.findings (Session.base s)
  ∧ Session.done s = None
  ∧ Session.exports s = []
  ∧ Finding.id <$> State.findings (Session.base s)
    = Finding.id <$> State.findings state.

(** The typed view of a raw object: its fields, with the id at its
    declared type [id?: string] (no id unless it is a string). *)
Definition raw_fields (item : RawFinding.t) : DraftFinding.t :=
  {| DraftFinding.id :=
       match RawFinding.id item with JStr s => Some s | _ => None end;
     DraftFinding.file := RawFinding.file item;
     DraftFinding.side := RawFinding.side item;
     DraftFinding.start_line := RawFinding.start_line item;
     DraftFinding.end_line := RawFinding.end_line item;
     DraftFinding.category := RawFinding.category item;
     DraftFinding.severity := RawFinding.severity item;
     DraftFinding.comment := RawFinding.comment item |}.

(** The typed view of a raw item; an item that is no object has no field. *)
Definition to_draft (item : RawItem) : DraftFinding.t :=
  match item with
  | RawObject fields => raw_fields fields
  | RawNull | RawScalar =>
      {| DraftFinding.id := None;
         DraftFinding.file := JUndefined;
         DraftFinding.side := JUndefined;
         DraftFinding.start_line := JUndefined;
         DraftFinding.end_line := JUndefined;
         DraftFinding.category := JUndefined;
         DraftFinding.severity := JUndefined;
         DraftFinding.comment := JUndefined |}
  end.

(** The typed view of a raw body. *)
Definition to_submit (input : RawSubmit.t) : Submit.t :=
  {| Submit.notes := RawSubmit.notes input;
     Submit.new_findings :=
       (λ items : list RawItem, to_draft <$> items)
         <$> RawSubmit.new_findings input |}.


(** The raw items the declared types exclude and the checks do not catch:
    [null], and an object that passes every check with an id that is
    neither absent, [null] nor a string. *)
Definition ill_typed (files : gmap string ReviewFile.t) (item : RawItem)
  : bool :=
  match item with
  | RawNull => true
  | RawScalar => false
  | RawObject fields =>
      passes_checks files (raw_fields fields)
      && match RawFinding.id fields with
         | JBool _ | JNum _ | JObject => true
         | JUndefined | JNull | JStr _ => false
         end
  end.

(** The id a caller supplies for an item: its id, trimmed, unless it is
    absent or blank. *)
Definition caller_id (item : DraftFinding.t) : option string :=
  match DraftFinding.id item with
  | Some s => if bool_decide (trim s = "") then None else Some (trim s)
  | None => None
  end.

(** The ids the caller supplies for the findings a submission adds. *)
Definition caller_ids (s : Session.t) (input : Submit.t) : list string :=
  omap (λ ix : nat * DraftFinding.t, caller_id ix.2)
       (filter (λ ix, passes_checks (file_map (Session.files s)) ix.2 = true)
               (indexed (default [] (Submit.new_findings input)))).

(** [x] has the shape of a synthesized id. *)
Definition synth_shaped (x : string) : Prop :=
  ∃ round index uuid, x = synth_id round index uuid.

(** The ids the caller supplies in a submission are pairwise distinct,
    differ from every stored id and do not have the shape of a synthesized
    id. *)
Definition caller_ids_fresh (s : Session.t) (input : Submit.t) : Prop :=
  NoDup (caller_ids s input)
  ∧ ∀ x, x ∈ caller_ids s input →
         (x ∉ Finding.id <$> State.findings (Session.base s))
         ∧ ¬ synth_shaped x.

(** The ids of the findings a submission adds to the session. *)
Definition created_ids (s : Session.t) (input : Submit.t)
    (uuid : nat → string) (t_sanitize : Z) : list string :=
  Finding.id
    <$> sanitize t_sanitize uuid (default [] (Submit.new_findings input))
                 (State.round (Session.base s) + 1)
                 (file_map (Session.files s)).

(** The ids a submission adds are pairwise distinct and differ from every
    stored id. *)
Definition fresh_ids (s : Session.t) (input : Submit.t)
    (uuid : nat → string) (t_sanitize : Z) : Prop :=
  NoDup (created_ids s input uuid t_sanitize)
  ∧ ∀ x, x ∈ created_ids s input uuid t_sanitize →
         x ∉ Finding.id <$> State.findings (Session.base s).

(** The states saved in the course of a session that starts fresh, round
    after round (launch, then draft saves and resolve actions, then possibly
    a submission), when the ids the caller supplies in each submission are
    fresh.  Nothing is assumed of the ids [sanitize] synthesizes. *)
Inductive reachable_fresh : State.t → Prop :=
  | reach_default (session_id : string) (now : Z) :
      reachable_fresh (defaultState session_id now)
  | reach_review (state : State.t) (files : list ReviewFile.t)
        (t_reconcile t_launch : Z) (reqs : list Request) :
      reachable_fresh state →
      forallb is_review reqs = true →
      reachable_fresh
        (Session.state_file
           (run (launch files state t_reconcile t_launch) reqs))
  | reach_submit (state : State.t) (files : list ReviewFile.t)
        (t_reconcile t_launch : Z) (reqs : list Request)
        (input : Submit.t) (uuid : nat → string) (t_sanitize t_saved : Z) :
      reachable_fresh state →
      forallb is_review reqs = true →
      caller_ids_fresh (run (launch files state t_reconcile t_launch) reqs)
                       input →
      reachable_fresh
        (Session.state_file
           (handle_submit input uuid t_sanitize t_saved
              (run (launch files state t_reconcile t_launch) reqs)).1).

(** The text made of the lines [ls], each ended by a line feed, as git
    prints a listing. *)
Definition terminated (ls : list string) : string :=
  foldr (λ l acc, l +:+ String LF acc) "" ls.

(** A name as [split] returns it: not empty, without white space at either
    end, on one line. *)
Definition clean_name (x : string) : Prop :=
  x ≠ "" ∧ trim x = x ∧ count_nl x = 0%nat.

(** [s] contains white space. *)
Fixpoint has_ws (s : string) : bool :=
  match s with
  | EmptyString => false
  | String c r => is_ws c || has_ws r
  end.

(** A value [parse] accepts for [--files]: at least one entry, each entry
    not empty and free of white space and commas. *)
Definition files_value (fs : list string) : Prop :=
  fs ≠ []
  ∧ Forall (λ f, f ≠ "" ∧ has_ws f = false ∧ has_char "," f = false) fs.

(** A value [parse] accepts for [--base]: not empty, free of white space,
    not starting with two dashes. *)
Definition base_value (b : string) : Prop :=
  b ≠ "" ∧ has_ws b = false ∧ startsWith b "--" = false.

(** What holds of a result of [parse]: an error excludes the options, and
    accepted options are well formed. *)
Definition parsed_ok (r : Parsed.t) : Prop :=
  match Parsed.error r with
  | Some e =>
      Parsed.files r = None ∧ Parsed.base r = None
      ∧ ∃ message, e = message +:+ String LF usage
  | None =>
      (∀ fs, Parsed.files r = Some fs → files_value fs)
      ∧ (∀ b, Parsed.base r = Some b → base_value b)
  end.

(** A path passes the [--files] filter: there is no filter, or no value,
    or the path ends with one of the values. *)
Definition passes_filter (parsed_files : option (list string)) (p : string)
  : Prop :=
  match parsed_files with
  | Some (v :: vs) => ∃ value q, value ∈ v :: vs ∧ p = q +:+ value
  | _ => True
  end.

(** A decimal numeral without sign or leading zero: ["0"] itself, or a
    string that starts with another character. *)
Definition no_leading_zero (s : string) : Prop :=
  s = "0" ∨ ∃ c r, s = String c r ∧ c ≠ "0"%char.

(** ** Sample data *)

(** A text given by its lines. *)
Definition text_of (lines : list string) : string := join_nl lines.

Definition sample_file (path before after : string) : ReviewFile.t :=
  {| ReviewFile.path := path;
     ReviewFile.status := ReviewFile.modified;
     ReviewFile.additions := 1;
     ReviewFile.deletions := 1;
     ReviewFile.before := before;
     ReviewFile.after := after |}.

(** An open finding of round 1 on the additions side of [file]. *)
Definition sample_finding (id file : string) (a b : Z) (anc : Anchor.t)
  : Finding.t :=
  {| Finding.id := id;
     Finding.round := 1;
     Finding.file := file;
     Finding.side := "additions";
     Finding.start_line := a;
     Finding.end_line := b;
     Finding.category := "bug";
     Finding.severity := "high";
     Finding.comment := "leak";
     Finding.status := open;
     Finding.anchor := anc;
     Finding.created_at := 100;
     Finding.updated_at := 100;
     Finding.closed_at := None;
     Finding.close_reason := None |}.

(** Two equal lines: the second is found where the first stands. *)
Definition twin_text : string := text_of ["x"; "x"].
Definition twin_file : ReviewFile.t := sample_file "a.ts" "" twin_text.
Definition twin_finding : Finding.t :=
  sample_finding "f1" "a.ts" 2 2 (anchor twin_text 2 2).

(** Five distinct lines. *)
Definition five_text : string := text_of ["l1"; "l2"; "l3"; "l4"; "l5"].
Definition five_file : ReviewFile.t := sample_file "x.ts" "old" five_text.
Definition five_finding : Finding.t :=
  sample_finding "f1" "x.ts" 2 3 (anchor five_text 2 3).

(** The draft item of the submission scenario: lines 5 and 3 in this order. *)
Definition leak_item : DraftFinding.t :=
  {| DraftFinding.id := None;
     DraftFinding.file := JStr "x.ts";
     DraftFinding.side := JStr "additions";
     DraftFinding.start_line := JNum (Finite 5%Q);
     DraftFinding.end_line := JNum (Finite 3%Q);
     DraftFinding.category := JStr "bug";
     DraftFinding.severity := JStr "high";
     DraftFinding.comment := JStr " leak " |}.

(** A malformed item: an unknown side. *)
Definition bad_item : DraftFinding.t :=
  {| DraftFinding.id := None;
     DraftFinding.file := JStr "x.ts";
     DraftFinding.side := JStr "both";
     DraftFinding.start_line := JNum (Finite 1%Q);
     DraftFinding.end_line := JNum (Finite 1%Q);
     DraftFinding.category := JStr "bug";
     DraftFinding.severity := JStr "high";
     DraftFinding.comment := JStr "?" |}.

(** An item past the end of the five-line file, with a caller-supplied id. *)
Definition far_item : DraftFinding.t :=
  {| DraftFinding.id := Some "dup";
     DraftFinding.file := JStr "x.ts";
     DraftFinding.side := JStr "additions";
     DraftFinding.start_line := JNum (Finite 40%Q);
     DraftFinding.end_line := JNum (Finite (83 # 2)%Q);
     DraftFinding.category := JStr "perf";
     DraftFinding.severity := JStr "low";
     DraftFinding.comment := JStr "slow" |}.

Definition sample_uuid (index : nat) : string :=
  "3f2a9c1e-0000-4000-8000-000000000000".

(** The finding expected for [leak_item] submitted alone in round 1 against
    the five-line file. *)
Definition leak_finding : Finding.t :=
  {| Finding.id := "finding_1_1_3f2a9c";
     Finding.round := 1;
     Finding.file := "x.ts";
     Finding.side := "additions";
     Finding.start_line := 3;
     Finding.end_line := 5;
     Finding.category := "bug";
     Finding.severity := "high";
     Finding.comment := "leak";
     Finding.status := open;
     Finding.anchor :=
       {| Anchor.before := "l2";
          Anchor.selected := text_of ["l3"; "l4"; "l5"];
          Anchor.after := "" |};
     Finding.created_at := 100;
     Finding.updated_at := 100;
     Finding.closed_at := None;
     Finding.close_reason := None |}.

(** A stored state of round 1 with one open finding on the five-line file,
    and the review launched from it. *)
Definition sample_state : State.t :=
  {| State.session_id := "ses_1";
     State.round := 1;
     State.findings := [five_finding];
     State.draft := None;
     State.updated_at := 100 |}.

Definition sample_session : Session.t :=
  launch [five_file] sample_state 200 201.

(** A submission of two new findings that carry the same caller-supplied
    id. *)
Definition twice_far : Submit.t :=
  {| Submit.notes := Some " two ";
     Submit.new_findings := Some [far_item; far_item] |}.

(** A submission of two new findings, one without id and one with its
    own. *)
Definition leak_and_far : Submit.t :=
  {| Submit.notes := None;
     Submit.new_findings := Some [leak_item; far_item] |}.

(** The state a fresh session saves when that submission ends its first
    round. *)
Definition first_round_state : State.t :=
  Session.state_file
    (handle_submit leak_and_far sample_uuid 400 401
       (run (launch [five_file] (defaultState "ses_0" 0) 200 201) [])).1.

(** The raw object of [leak_item], which has no id, and variants of it:
    with a number for id, and with an unknown side. *)
Definition leak_raw : RawFinding.t :=
  {| RawFinding.id := JUndefined;
     RawFinding.file := JStr "x.ts";
     RawFinding.side := JStr "additions";
     RawFinding.start_line := JNum (Finite 5%Q);
     RawFinding.end_line := JNum (Finite 3%Q);
     RawFinding.category := JStr "bug";
     RawFinding.severity := JStr "high";
     RawFinding.comment := JStr " leak " |}.

Definition numbered_raw : RawFinding.t :=
  {| RawFinding.id := JNum (Finite 7%Q);
     RawFinding.file := JStr "x.ts";
     RawFinding.side := JStr "additions";
     RawFinding.start_line := JNum (Finite 5%Q);
     RawFinding.end_line := JNum (Finite 3%Q);
     RawFinding.category := JStr "bug";
     RawFinding.severity := JStr "high";
     RawFinding.comment := JStr " leak " |}.

Definition bad_raw : RawFinding.t :=
  {| RawFinding.id := JNum (Finite 7%Q);
     RawFinding.file := JStr "x.ts";
     RawFinding.side := JStr "both";
     RawFinding.start_line := JNum (Finite 1%Q);
     RawFinding.end_line := JNum (Finite 1%Q);
     RawFinding.category := JStr "bug";
     RawFinding.severity := JStr "high";
     RawFinding.comment := JStr "?" |}.

(** A batch with two malformed items in the middle. *)
Definition mixed_batch : list RawItem :=
  [RawObject leak_raw; RawObject bad_raw; RawScalar; RawObject leak_raw].


(** An item that brings an id of synthesized shape. *)
Definition shaped_item : DraftFinding.t :=
  {| DraftFinding.id := Some "finding_2_1_3f2a9c";
     DraftFinding.file := JStr "x.ts";
     DraftFinding.side := JStr "additions";
     DraftFinding.start_line := JNum (Finite 1%Q);
     DraftFinding.end_line := JNum (Finite 1%Q);
     DraftFinding.category := JStr "bug";
     DraftFinding.severity := JStr "high";
     DraftFinding.comment := JStr "first" |}.

(** ** Tactics *)

(** Unfold string concatenation on constructors. *)
Ltac str_simpl :=
  repeat match goal with
    | |- context [String.append (String ?c ?a) ?b] =>
        change (String.append (String c a) b)
          with (String c (String.append a b))
    | |- context [String.append EmptyString ?b] =>
        change (String.append EmptyString b) with b
    end;
  simpl.

(** * Properties *)

(** ** Strings *)

Lemma app_str_nil_l (b : string) : "" +:+ b = b.
Proof. reflexivity. Qed.

Lemma app_str_cons (c : ascii) (a b : string) :
  String c a +:+ b = String c (a +:+ b).
Proof. reflexivity. Qed.

Lemma app_str_assoc (a b c : string) : (a +:+ b) +:+ c = a +:+ (b +:+ c).
Proof. induction a as [|x a IH]; str_simpl; [done | by rewrite IH]. Qed.


Lemma length_app_str (a b : string) :
  String.length (a +:+ b) = (String.length a + String.length b)%nat.
Proof. induction a as [|x a IH]; str_simpl; [done | by rewrite IH]. Qed.

Lemma truthy_true (s : string) : truthy s = true ↔ s ≠ "".
Proof. destruct s; simpl; split; intros; congruence. Qed.

Lemma truthy_false (s : string) : truthy s = false ↔ s = "".
Proof. destruct s; simpl; split; intros; congruence. Qed.

Lemma split_nl_cons (s : string) : ∃ h t, split_nl s = h :: t.
Proof.
  induction s as [|c s (h & t & IH)]; simpl; [by eauto |].
  destruct (Ascii.eqb c LF); [by eauto |]. rewrite IH. by eauto.
Qed.

Lemma length_split_nl (s : string) :
  length (split_nl s) = S (count_nl s).
Proof.
  induction s as [|c s IH]; simpl; [done |].
  destruct (Ascii.eqb c LF); simpl; [by rewrite IH |].
  destruct (split_nl_cons s) as (h & t & E). rewrite E in IH |- *.
  exact IH.
Qed.

Lemma line_count_pos (text : string) : 1 ≤ line_count text.
Proof. unfold line_count. rewrite length_split_nl. lia. Qed.

Lemma join_nl_cons2 (x y : string) (l : list string) :
  join_nl (x :: y :: l) = x +:+ String LF (join_nl (y :: l)).
Proof. reflexivity. Qed.

Lemma join_split_nl (s : string) : join_nl (split_nl s) = s.
Proof.
  induction s as [|c s IH]; [done |].
  destruct (split_nl_cons s) as (h & t & E).
  cbn [split_nl]. rewrite E in IH |- *.
  destruct (Ascii.eqb_spec c LF) as [->|Hc].
  - rewrite join_nl_cons2, IH. done.
  - destruct t as [|y t].
    + cbn in IH |- *. by rewrite IH.
    + rewrite join_nl_cons2 in IH |- *. by rewrite app_str_cons, IH.
Qed.

Lemma count_nl_app (a b : string) :
  count_nl (a +:+ b) = (count_nl a + count_nl b)%nat.
Proof. induction a as [|x a IH]; str_simpl; [done | rewrite IH; lia]. Qed.

Lemma split_nl_lines_nl_free (s : string) :
  Forall (λ l, count_nl l = 0%nat) (split_nl s).
Proof.
  induction s as [|c s IH]; simpl; [by repeat constructor |].
  destruct (Ascii.eqb c LF) eqn:Ec; [by constructor |].
  destruct (split_nl_cons s) as (h & t & E). rewrite E in IH |- *.
  inversion IH; subst. constructor; [simpl; rewrite Ec; simpl |]; done.
Qed.

Lemma count_nl_LF (s : string) : count_nl (String LF s) = S (count_nl s).
Proof. reflexivity. Qed.



(** Occurrences and [indexOf] *)

Lemma prefix_app_str (p r : string) : String.prefix p (p +:+ r) = true.
Proof.
  induction p as [|c p IH]; str_simpl; [by destruct r |].
  destruct (ascii_dec c c); [done | congruence].
Qed.

Lemma prefix_inv (p t : string) :
  String.prefix p t = true → ∃ r, t = p +:+ r.
Proof.
  revert t. induction p as [|c p IH]; intros t H.
  - by exists t.
  - destruct t as [|d t]; simpl in H; [done |].
    destruct (ascii_dec c d) as [->|]; [|done].
    destruct (IH _ H) as [r ->]. by exists r.
Qed.

Lemma substring_prefix (p r : string) :
  substring 0 (String.length p) (p +:+ r) = p.
Proof.
  induction p as [|c p IH]; str_simpl; [by destruct r | by rewrite IH].
Qed.

Lemma str_slice_0 (s : string) (i : nat) :
  (i ≤ String.length s)%nat → str_slice s 0 (Z.of_nat i) = substring 0 i s.
Proof.
  intros Hi. unfold str_slice, rel_index.
  change (0 <? 0) with false. cbv iota.
  destruct (Z.ltb_spec (Z.of_nat i) 0); [lia |].
  rewrite (Z.min_l 0), (Z.min_l (Z.of_nat i)) by lia.
  by rewrite Z.sub_0_r, Nat2Z.id.
Qed.

Lemma str_slice_prefix (p r : string) :
  str_slice (p +:+ r) 0 (Z.of_nat (String.length p)) = p.
Proof.
  rewrite str_slice_0; [apply substring_prefix |].
  rewrite length_app_str. lia.
Qed.

Lemma indexOf_unfold (text pat : string) :
  indexOf text pat =
    if String.prefix pat text then 0
    else match text with
         | EmptyString => -1
         | String _ r => let i := indexOf r pat in if i <? 0 then -1 else i + 1
         end.
Proof. by destruct text. Qed.

(** [indexOf] finds an occurrence, and no occurrence starts before it. *)
Lemma indexOf_found (text pat : string) :
  0 ≤ indexOf text pat →
  ∃ pre post, text = pre +:+ pat +:+ post
              ∧ indexOf text pat = Z.of_nat (String.length pre).
Proof.
  induction text as [|c text IH]; rewrite indexOf_unfold;
    destruct (String.prefix pat _) eqn:E.
  - intros _. apply prefix_inv in E as [r E]. by exists "", r.
  - lia.
  - intros _. apply prefix_inv in E as [r E]. by exists "", r.
  - cbv zeta. destruct (Z.ltb_spec (indexOf text pat) 0) as [Hi|Hi]; [lia |].
    intros _. destruct (IH Hi) as (pre & post & -> & Hp).
    exists (String c pre), post. split; [done |].
    rewrite Hp. simpl String.length. lia.
Qed.

Lemma indexOf_least (pre pat post : string) :
  0 ≤ indexOf (pre +:+ pat +:+ post) pat ≤ Z.of_nat (String.length pre).
Proof.
  induction pre as [|c pre IH]; rewrite indexOf_unfold.
  - rewrite app_str_nil_l, prefix_app_str. simpl. lia.
  - destruct (String.prefix pat _); [simpl String.length; lia |].
    rewrite app_str_cons. cbv zeta.
    destruct (Z.ltb_spec (indexOf (pre +:+ pat +:+ post) pat) 0);
      simpl String.length; lia.
Qed.

(** Of two prefixes of one text the shorter is a prefix of the longer. *)
Lemma prefix_of_prefix (p1 r1 p2 r2 : string) :
  p1 +:+ r1 = p2 +:+ r2 → (String.length p1 ≤ String.length p2)%nat →
  ∃ m, p2 = p1 +:+ m.
Proof.
  revert p2. induction p1 as [|c p1 IH]; intros p2 E Hl.
  - by exists p2.
  - destruct p2 as [|d p2]; simpl in Hl; [lia |].
    rewrite !app_str_cons in E. injection E as -> E.
    destruct (IH p2 E) as [m ->]; [lia |]. by exists m.
Qed.

(** ** Anchor codec *)

Lemma or_num_pos (a b : Z) : 1 ≤ a → or_num a b = a.
Proof. unfold or_num. intros. destruct (Z.eqb_spec a 0); [lia | done]. Qed.

Lemma rel_index_in (len i : Z) : 0 ≤ i ≤ len → rel_index len i = i.
Proof.
  unfold rel_index. intros. destruct (Z.ltb_spec i 0); lia.
Qed.

Lemma slice_in {A} (l : list A) (s e : Z) :
  0 ≤ s ≤ e → e ≤ Z.of_nat (length l) →
  slice l s e = take (Z.to_nat (e - s)) (drop (Z.to_nat s) l).
Proof.
  intros. unfold slice. by rewrite !rel_index_in by lia.
Qed.

(** On a valid pair of lines [anchor] selects exactly these lines. *)
Lemma anchor_selected_valid (text : string) (a b : Z) :
  1 ≤ a ≤ b → b ≤ line_count text →
  Anchor.selected (anchor text a b) =
    join_nl (take (Z.to_nat (b - a + 1))
                  (drop (Z.to_nat (a - 1)) (split_nl text))).
Proof.
  unfold line_count. intros Hab Hb. unfold anchor, normalize.
  destruct (Z.leb_spec a b); [|lia]. cbn [fst snd Anchor.selected].
  rewrite !or_num_pos by lia.
  rewrite (Z.min_l a), (Z.max_r 1 a), (Z.min_l b), (Z.max_r a b) by lia.
  rewrite slice_in by lia. do 3 f_equal. lia.
Qed.




(** ** Locating an anchor *)


(** [remap] fails exactly when the selected text is empty or occurs nowhere
    in the comparison text. *)
Lemma remap_None (item : Finding.t) (file : ReviewFile.t) :
  remap item file = None ↔
  Anchor.selected (Finding.anchor item) = ""
  ∨ ¬ (∃ pre, occurs_after pre (Anchor.selected (Finding.anchor item))
                           (side_text (Finding.side item) file)).
Proof.
  unfold remap.
  set (sel := Anchor.selected (Finding.anchor item)).
  set (text := side_text (Finding.side item) file).
  destruct (truthy sel) eqn:Et; cbn [negb].
  - apply truthy_true in Et.
    destruct (Z.ltb_spec (indexOf text sel) 0) as [Hi|Hi].
    + split; [|done]. intros _. right. intros (pre & post & E).
      rewrite E in Hi. pose proof (indexOf_least pre sel post). lia.
    + split; [done |]. intros [E|Hno]; [done |]. exfalso. apply Hno.
      destruct (indexOf_found text sel Hi) as (pre & post & E & _).
      by exists pre, post.
  - apply truthy_false in Et. split; [by left | done].
Qed.

(** When the selected text occurs, [remap] reports its leftmost occurrence:
    the line on which it starts and as many further lines as the selected
    text has line feeds. *)
Lemma remap_Some (item : Finding.t) (file : ReviewFile.t) (pre0 : string) :
  let sel := Anchor.selected (Finding.anchor item) in
  let text := side_text (Finding.side item) file in
  sel ≠ "" → occurs_after pre0 sel text →
  ∃ pre m, occurs_after pre sel text ∧ pre0 = pre +:+ m
    ∧ (∀ pre1, occurs_after pre1 sel text → ∃ m1, pre1 = pre +:+ m1)
    ∧ remap item file =
        Some {| Range.start_line := line_after pre;
                Range.end_line := line_after pre + Z.of_nat (count_nl sel) |}.
Proof.
  intros sel text Hsel [post0 E0]. unfold remap. fold sel text.
  apply truthy_true in Hsel as Et. rewrite Et. cbn [negb].
  assert (Hi : 0 ≤ indexOf text sel).
  { rewrite E0. apply indexOf_least. }
  destruct (indexOf_found text sel Hi) as (pre & post & E & Hlen).
  assert (Hleast : ∀ pre1, occurs_after pre1 sel text →
                   ∃ m1, pre1 = pre +:+ m1).
  { intros pre1 [post1 E1].
    apply (prefix_of_prefix pre (sel +:+ post) pre1 (sel +:+ post1)).
    - by rewrite <- E, <- E1.
    - pose proof (indexOf_least pre1 sel post1) as Hl.
      rewrite <- E1, Hlen in Hl. lia. }
  destruct (Hleast pre0) as [m Hm]; [by exists post0 |].
  exists pre, m. split; [by exists post |]. split; [done |]. split; [done |].
  destruct (Z.ltb_spec (indexOf text sel) 0); [lia |].
  assert (Hs : str_slice text 0 (Z.of_nat (String.length pre)) = pre).
  { rewrite E. apply str_slice_prefix. }
  rewrite Hlen, Hs. unfold line_after. rewrite (length_split_nl sel).
  do 2 f_equal. lia.
Qed.




(** ** Reconciler *)

Lemma file_map_fold (files : list ReviewFile.t)
    (m : gmap string ReviewFile.t) (p : string) :
  fold_left (λ m file, <[ReviewFile.path file := file]> m) files m !! p =
    match last (filter (λ f, ReviewFile.path f = p) files) with
    | Some f => Some f
    | None => m !! p
    end.
Proof.
  revert m. induction files as [|f files IH]; intros m; [done |].
  cbn [fold_left]. rewrite IH, filter_cons.
  destruct (decide (ReviewFile.path f = p)) as [E|E].
  - destruct (filter _ files) as [|g l] eqn:El.
    + cbn. subst p. apply lookup_insert_eq.
    + rewrite (last_cons f). destruct (last (g :: l)) eqn:E2; [done |].
      by apply last_None in E2.
  - destruct (last _); [done |]. by rewrite lookup_insert_ne.
Qed.

(** [map.get(p)] is the last file of the list with path [p]. *)
Lemma file_map_lookup (files : list ReviewFile.t) (p : string) :
  file_map files !! p = last (filter (λ f, ReviewFile.path f = p) files).
Proof.
  unfold file_map. rewrite file_map_fold, lookup_empty. by destruct (last _).
Qed.

Lemma file_map_None (files : list ReviewFile.t) (p : string) :
  file_map files !! p = None ↔ ∀ f, f ∈ files → ReviewFile.path f ≠ p.
Proof.
  rewrite file_map_lookup, last_None. split.
  - intros E f Hf Hp.
    assert (f ∈ filter (λ f, ReviewFile.path f = p) files) as Hin
      by (by apply list_elem_of_filter).
    rewrite E in Hin. by apply not_elem_of_nil in Hin.
  - intros H. destruct (filter _ files) as [|f l] eqn:E; [done |].
    assert (f ∈ filter (λ f, ReviewFile.path f = p) files) as Hin
      by (rewrite E; left).
    apply list_elem_of_filter in Hin as [Hp Hf]. by destruct (H f Hf).
Qed.

Lemma file_map_Some (files : list ReviewFile.t) (p : string)
    (file : ReviewFile.t) :
  file_map files !! p = Some file → file ∈ files ∧ ReviewFile.path file = p.
Proof.
  rewrite file_map_lookup. intros H.
  assert (file ∈ filter (λ f, ReviewFile.path f = p) files) as Hin.
  { apply last_Some in H as [l' ->]. apply elem_of_app. right. left. }
  apply list_elem_of_filter in Hin. tauto.
Qed.

Lemma is_open_true (item : Finding.t) :
  is_open item = true ↔ Finding.status item = open.
Proof. unfold is_open. destruct (Finding.status item); split; done. Qed.

Lemma is_open_false (item : Finding.t) :
  is_open item = false ↔ Finding.status item ≠ open.
Proof. unfold is_open. destruct (Finding.status item); split; done. Qed.

Lemma reconcile_lookup (now : Z) (files : list ReviewFile.t)
    (findings : list Finding.t) (i : nat) :
  reconcile now files findings !! i =
    reconcile_item now (file_map files) <$> findings !! i.
Proof. unfold reconcile. apply list_lookup_fmap. Qed.

Lemma reconcile_item_closed (now : Z) (map : gmap string ReviewFile.t)
    (item : Finding.t) :
  Finding.status item ≠ open → reconcile_item now map item = item.
Proof.
  intros H. unfold reconcile_item. apply is_open_false in H. by rewrite H.
Qed.

(** The three outcomes for an open finding. *)
Lemma reconcile_item_open (now : Z) (map : gmap string ReviewFile.t)
    (item : Finding.t) :
  Finding.status item = open →
  reconcile_item now map item =
    match map !! Finding.file item with
    | None => close_auto item file_removed now
    | Some file =>
        match remap item file with
        | None => close_auto item anchor_missing now
        | Some next => relocate item next now
        end
    end.
Proof.
  intros H. unfold reconcile_item. apply is_open_true in H. by rewrite H.
Qed.

(** Reconciling keeps the ids of the findings, in order. *)
Lemma reconcile_ids (now : Z) (files : list ReviewFile.t)
    (findings : list Finding.t) :
  Finding.id <$> reconcile now files findings = Finding.id <$> findings.
Proof.
  unfold reconcile. rewrite <- list_fmap_compose. apply list_fmap_ext.
  intros i item _. unfold compose, reconcile_item.
  destruct (is_open item); [|done]. cbn [negb].
  destruct (file_map files !! Finding.file item) as [file|]; [|done].
  by destruct (remap item file).
Qed.

(** [remap] reads only the side and the anchor of a finding. *)
Lemma remap_ext (item1 item2 : Finding.t) (file : ReviewFile.t) :
  Finding.side item1 = Finding.side item2 →
  Finding.anchor item1 = Finding.anchor item2 →
  remap item1 file = remap item2 file.
Proof. unfold remap. by intros -> ->. Qed.

(** The comparison text is [before] for a deletions finding and [after]
    otherwise, in particular for an additions finding. *)
Lemma side_text_cases (side : string) (file : ReviewFile.t) :
  side_text side file =
    if decide (side = "deletions") then ReviewFile.before file
    else ReviewFile.after file.
Proof.
  unfold side_text. destruct (String.eqb_spec side "deletions");
    [by rewrite decide_True | by rewrite decide_False].
Qed.

(** C2: reconcile, on a finding with status open: when no file snapshot has
    its path it becomes closed_auto with reason file_removed; otherwise, with
    the snapshot stored for its path and the text of its side (before for
    deletions, after for additions), when the anchor is not located (the
    selected text is empty or does not occur in that text) it becomes
    closed_auto with reason anchor_missing, and when it is located the
    finding stays open, start_line and end_line are overwritten with the
    located range (the line on which the leftmost occurrence of the selected
    text starts, and that line plus the line feeds of the selected text) and
    updated_at is set to the current time. *)
Theorem reconcile_open_cases (now : Z) (files : list ReviewFile.t)
    (findings : list Finding.t) (i : nat) (item : Finding.t) :
  findings !! i = Some item → Finding.status item = open →
  ∃ item', reconcile now files findings !! i = Some item' ∧
    ((∀ f, f ∈ files → ReviewFile.path f ≠ Finding.file item) →
       Finding.status item' = closed_auto
       ∧ Finding.close_reason item' = Some file_removed) ∧
    (∀ file, file_map files !! Finding.file item = Some file →
       let sel := Anchor.selected (Finding.anchor item) in
       let text := if decide (Finding.side item = "deletions")
                   then ReviewFile.before file else ReviewFile.after file in
       ((sel = "" ∨ ¬ (∃ pre, occurs_after pre sel text)) →
          remap item file = None
          ∧ Finding.status item' = closed_auto
          ∧ Finding.close_reason item' = Some anchor_missing) ∧
       (sel ≠ "" → (∃ pre, occurs_after pre sel text) →
          ∃ pre, occurs_after pre sel text
            ∧ (∀ pre1, occurs_after pre1 sel text → ∃ m, pre1 = pre +:+ m)
            ∧ remap item file =
                Some {| Range.start_line := line_after pre;
                        Range.end_line :=
                          line_after pre + Z.of_nat (count_nl sel) |}
            ∧ Finding.status item' = open
            ∧ Finding.start_line item' = line_after pre
            ∧ Finding.end_line item' = line_after pre + Z.of_nat (count_nl sel)
            ∧ Finding.updated_at item' = now)) ∧
    ((∀ f, f ∈ files → ReviewFile.path f ≠ Finding.file item)
     ∨ ∃ file, file_map files !! Finding.file item = Some file).
Proof.
  intros Hi Hopen. exists (reconcile_item now (file_map files) item).
  rewrite reconcile_lookup, Hi. split; [done |].
  rewrite (reconcile_item_open _ _ _ Hopen). split; [|split].
  - intros Hno. apply file_map_None in Hno. by rewrite Hno.
  - intros file -> sel text.
    pose proof (remap_None item file) as Hnone.
    rewrite side_text_cases in Hnone. fold sel text in Hnone. split.
    + intros Hmiss. apply Hnone in Hmiss. by rewrite Hmiss.
    + intros Hsel [pre0 Hocc].
      assert (Et : text = side_text (Finding.side item) file)
        by (symmetry; apply side_text_cases).
      rewrite Et in Hocc.
      destruct (remap_Some item file pre0 Hsel Hocc)
        as (pre & m & Hpre & _ & Hleast & Hr).
      exists pre. rewrite Et, Hr. by repeat split.
  - destruct (file_map files !! Finding.file item) as [file|] eqn:E.
    + right. by exists file.
    + left. by apply file_map_None.
Qed.

(** An instance: the sample finding against the five-line file. *)
Lemma reconcile_open_cases_witness :
  ([five_finding] !! 0%nat = Some five_finding
   ∧ Finding.status five_finding = open) ∧
  ∃ item', reconcile 200 [five_file] [five_finding] !! 0%nat = Some item' ∧
    ((∀ f, f ∈ [five_file] →
        ReviewFile.path f ≠ Finding.file five_finding) →
       Finding.status item' = closed_auto
       ∧ Finding.close_reason item' = Some file_removed) ∧
    (∀ file, file_map [five_file] !! Finding.file five_finding = Some file →
       let sel := Anchor.selected (Finding.anchor five_finding) in
       let text := if decide (Finding.side five_finding = "deletions")
                   then ReviewFile.before file else ReviewFile.after file in
       ((sel = "" ∨ ¬ (∃ pre, occurs_after pre sel text)) →
          remap five_finding file = None
          ∧ Finding.status item' = closed_auto
          ∧ Finding.close_reason item' = Some anchor_missing) ∧
       (sel ≠ "" → (∃ pre, occurs_after pre sel text) →
          ∃ pre, occurs_after pre sel text
            ∧ (∀ pre1, occurs_after pre1 sel text → ∃ m, pre1 = pre +:+ m)
            ∧ remap five_finding file =
                Some {| Range.start_line := line_after pre;
                        Range.end_line :=
                          line_after pre + Z.of_nat (count_nl sel) |}
            ∧ Finding.status item' = open
            ∧ Finding.start_line item' = line_after pre
            ∧ Finding.end_line item' = line_after pre + Z.of_nat (count_nl sel)
            ∧ Finding.updated_at item' = 200)) ∧
    ((∀ f, f ∈ [five_file] → ReviewFile.path f ≠ Finding.file five_finding)
     ∨ ∃ file, file_map [five_file] !! Finding.file five_finding = Some file).
Proof.
  split; [split; reflexivity |].
  apply (reconcile_open_cases 200 [five_file] [five_finding] 0 five_finding);
    reflexivity.
Defined.

(** The relocation scenario: one line inserted above the anchored lines
    moves an open finding down by one line; deleting the anchored text
    closes it with reason anchor_missing; removing the file closes it with
    reason file_removed. *)
Example reconcile_scenarios :
  let moved := sample_file "x.ts" "old"
                 (text_of ["new"; "l1"; "l2"; "l3"; "l4"; "l5"]) in
  let gone := sample_file "x.ts" "old" (text_of ["l1"; "l4"; "l5"]) in
  let other := sample_file "y.ts" "old" five_text in
  (λ f, (Finding.status f, Finding.start_line f, Finding.end_line f,
         Finding.close_reason f))
    <$> (reconcile 200 [moved] [five_finding]
         ++ reconcile 200 [gone] [five_finding]
         ++ reconcile 200 [other] [five_finding])
  = [(open, 3, 4, None);
     (closed_auto, 2, 3, Some anchor_missing);
     (closed_auto, 2, 3, Some file_removed)].
Proof. by vm_compute. Qed.

(** C4: reconcile returns a list of the same length with the same ids in the
    same order; a finding that is not open is returned unchanged; and an open
    finding that stays open differs from the stored one at most in
    start_line, end_line and updated_at: id, round, file, side, category,
    severity, comment, status, anchor, created_at, closed_at and close_reason
    are the stored ones. *)
Theorem reconcile_frame (now : Z) (files : list ReviewFile.t)
    (findings : list Finding.t) :
  length (reconcile now files findings) = length findings ∧
  Finding.id <$> reconcile now files findings = Finding.id <$> findings ∧
  (∀ i item, findings !! i = Some item → Finding.status item ≠ open →
     reconcile now files findings !! i = Some item) ∧
  (∀ i item item',
     findings !! i = Some item →
     reconcile now files findings !! i = Some item' →
     Finding.status item = open → Finding.status item' = open →
     Finding.id item' = Finding.id item
     ∧ Finding.round item' = Finding.round item
     ∧ Finding.file item' = Finding.file item
     ∧ Finding.side item' = Finding.side item
     ∧ Finding.category item' = Finding.category item
     ∧ Finding.severity item' = Finding.severity item
     ∧ Finding.comment item' = Finding.comment item
     ∧ Finding.status item' = Finding.status item
     ∧ Finding.anchor item' = Finding.anchor item
     ∧ Finding.created_at item' = Finding.created_at item
     ∧ Finding.closed_at item' = Finding.closed_at item
     ∧ Finding.close_reason item' = Finding.close_reason item).
Proof.
  split; [apply length_fmap |]. split; [apply reconcile_ids |]. split.
  - intros i item Hi Hst. rewrite reconcile_lookup, Hi. cbn.
    by rewrite reconcile_item_closed.
  - intros i item item' Hi Hi' Hopen Hopen'.
    rewrite reconcile_lookup, Hi in Hi'. cbn in Hi'. injection Hi' as <-.
    rewrite (reconcile_item_open _ _ _ Hopen) in Hopen' |- *.
    destruct (file_map files !! Finding.file item) as [file|]; [|done].
    destruct (remap item file); [|done]. cbn. by rewrite Hopen.
Qed.

(** A finding that is open after [reconcile] was relocated by it. *)
Lemma reconcile_item_stays_open (now : Z) (map : gmap string ReviewFile.t)
    (item : Finding.t) :
  Finding.status (reconcile_item now map item) = open →
  ∃ file next, map !! Finding.file item = Some file
    ∧ remap item file = Some next
    ∧ reconcile_item now map item = relocate item next now.
Proof.
  destruct (decide (Finding.status item = open)) as [Hopen|Hclosed].
  - rewrite (reconcile_item_open _ _ _ Hopen).
    destruct (map !! Finding.file item) as [file|] eqn:Ef; [|done].
    destruct (remap item file) as [next|] eqn:En; [|done].
    intros _. by exists file, next.
  - by rewrite (reconcile_item_closed _ _ _ Hclosed).
Qed.

(** C7: reconciling twice in a row against the same file snapshots: a
    finding that is closed_auto or resolved after the first application is
    identical after the second, every finding keeps its status, and a finding
    that is still open has the same start_line and end_line after the second
    application as after the first. *)
Theorem reconcile_twice_stable (now1 now2 : Z) (files : list ReviewFile.t)
    (findings : list Finding.t) (i : nat) (item1 : Finding.t) :
  reconcile now1 files findings !! i = Some item1 →
  ∃ item2,
    reconcile now2 files (reconcile now1 files findings) !! i = Some item2
    ∧ (Finding.status item1 ≠ open → item2 = item1)
    ∧ Finding.status item2 = Finding.status item1
    ∧ (Finding.status item2 = open →
         Finding.start_line item2 = Finding.start_line item1
         ∧ Finding.end_line item2 = Finding.end_line item1).
Proof.
  intros H1. exists (reconcile_item now2 (file_map files) item1).
  rewrite reconcile_lookup, H1. split; [done |].
  destruct (decide (Finding.status item1 = open)) as [Hopen|Hclosed].
  - rewrite reconcile_lookup in H1.
    destruct (findings !! i) as [item0|]; [|done]. cbn in H1.
    injection H1 as <-.
    destruct (reconcile_item_stays_open _ _ _ Hopen)
      as (file & next & Hfile & Hnext & E).
    rewrite E in Hopen |- *.
    rewrite (reconcile_item_open _ _ _ Hopen). cbn [relocate Finding.file].
    rewrite Hfile.
    rewrite (remap_ext (relocate item0 next now1) item0 file), Hnext by done.
    cbn in Hopen |- *. by rewrite Hopen.
  - rewrite (reconcile_item_closed _ _ _ Hclosed). by repeat split.
Qed.

(** An instance: the sample finding reconciled twice against the five-line
    file. *)
Lemma reconcile_twice_stable_witness :
  reconcile 200 [five_file] [five_finding] !! 0%nat
  = Some (reconcile_item 200 (file_map [five_file]) five_finding)
  ∧ ∃ item2,
      reconcile 300 [five_file] (reconcile 200 [five_file] [five_finding])
        !! 0%nat = Some item2
      ∧ (Finding.status (reconcile_item 200 (file_map [five_file]) five_finding)
         ≠ open →
         item2 = reconcile_item 200 (file_map [five_file]) five_finding)
      ∧ Finding.status item2
        = Finding.status
            (reconcile_item 200 (file_map [five_file]) five_finding)
      ∧ (Finding.status item2 = open →
         Finding.start_line item2
         = Finding.start_line
             (reconcile_item 200 (file_map [five_file]) five_finding)
         ∧ Finding.end_line item2
           = Finding.end_line
               (reconcile_item 200 (file_map [five_file]) five_finding)).
Proof.
  split; [reflexivity |].
  apply (reconcile_twice_stable 200 300 [five_file] [five_finding] 0).
  reflexivity.
Defined.

(** ** Draft sanitizer *)

Lemma includes_str (l : list string) (s : string) :
  includes l (JStr s) = bool_decide (s ∈ l).
Proof. reflexivity. Qed.

Lemma normal_range (s e : Q) : 1 ≤ normal_start s e ≤ normal_end s e.
Proof. unfold normal_end, normal_start. lia. Qed.

(** A [flatMap] whose callback yields nothing or one element keeps, in
    order, one element per argument that yields one. *)
Lemma flat_imap_Forall2 {A B} (F : nat → A → list B) (P : A → bool)
    (R : nat → A → B → Prop) :
  (∀ i x, P x = false → F i x = []) →
  (∀ i x, P x = true → ∃ y, F i x = [y] ∧ R i x y) →
  ∀ (h : nat → nat) (l : list A),
    Forall2 (λ ix y, R ix.1 ix.2 y)
      (filter (λ ix, P ix.2 = true) (imap (λ i x, (h i, x)) l))
      (mjoin (imap (λ i, F (h i)) l)).
Proof.
  intros Hno Hyes h l. revert h.
  induction l as [|x l IH]; intros h; [constructor |].
  rewrite !imap_cons, filter_cons. cbn [snd mjoin list_join].
  destruct (P x) eqn:Hx.
  - destruct (Hyes (h 0%nat) x Hx) as (y & -> & Hy).
    rewrite decide_True by done. constructor; [done |].
    apply (IH (h ∘ S)).
  - rewrite (Hno _ _ Hx), decide_False by done. apply (IH (h ∘ S)).
Qed.

Section sanitizer.
Context (round now : Z) (uuid : nat → string)
        (files : gmap string ReviewFile.t).

(** An item that passes the first four checks is emitted exactly when the
    captured text does not trim to the empty string. *)
Lemma sanitize_item_typed (index : nat) (item : DraftFinding.t)
    (file comment side category severity : string) (s e : Q)
    (snapshot : ReviewFile.t) :
  typed_item files item file comment side category severity s e snapshot →
  let anc := anchor (side_text side snapshot)
                    (normal_start s e) (normal_end s e) in
  sanitize_item round now uuid files index item =
    if bool_decide (trim (Anchor.selected anc) = "") then []
    else [ {| Finding.id := assigned_id round uuid index item;
              Finding.round := round;
              Finding.file := file;
              Finding.side := side;
              Finding.start_line := normal_start s e;
              Finding.end_line := normal_end s e;
              Finding.category := category;
              Finding.severity := severity;
              Finding.comment := trim comment;
              Finding.status := open;
              Finding.anchor := anc;
              Finding.created_at := now;
              Finding.updated_at := now;
              Finding.closed_at := None;
              Finding.close_reason := None |} ].
Proof.
  intros (Ef & Ec & Es & Ecat & Esev & Esl & Eel & Hf & Hc & Hs & Hcat & Hsev
          & Hfile) anc.
  unfold sanitize_item, assigned_id.
  rewrite Ef, Ec, Es, Ecat, Esev, Esl, Eel.
  unfold isSide, isCategory, isSeverity. rewrite !includes_str.
  rewrite !bool_decide_eq_true_2 by done.
  cbn [is_string as_string as_number Number_isFinite negb orb].
  apply truthy_true in Hf as ->. apply truthy_true in Hc as ->.
  cbn [negb]. rewrite Hfile.
  fold (normal_start s e). fold (normal_end s e). fold anc.
  destruct (trim (Anchor.selected anc)) as [|c r] eqn:Esel.
  - by rewrite bool_decide_eq_true_2.
  - rewrite bool_decide_eq_false_2 by done. cbn [truthy negb].
    do 2 f_equal. destruct (DraftFinding.id item) as [i|]; [|done].
    destruct (trim i); cbn [truthy];
      [by rewrite bool_decide_eq_true_2 | by rewrite bool_decide_eq_false_2].
Qed.

(** Whatever [sanitize_item] emits comes from an item that passes the first
    four checks. *)
Lemma sanitize_item_inv (index : nat) (item : DraftFinding.t) :
  sanitize_item round now uuid files index item ≠ [] →
  ∃ file comment side category severity s e snapshot,
    typed_item files item file comment side category severity s e snapshot.
Proof.
  unfold sanitize_item, typed_item, isSide, isCategory, isSeverity.
  destruct (DraftFinding.file item) as [| | | |file|];
    cbn [is_string as_string negb orb]; try done.
  destruct (truthy file) eqn:Hf; cbn [negb]; [|done].
  destruct (DraftFinding.comment item) as [| | | |comment|];
    cbn [is_string as_string negb orb]; try done.
  destruct (truthy (trim comment)) eqn:Hc; cbn [negb]; [|done].
  destruct (DraftFinding.side item) as [| | | |side|];
    cbn [includes as_string negb]; try done.
  destruct (bool_decide (side ∈ sides)) eqn:Hs; cbn [negb]; [|done].
  destruct (DraftFinding.category item) as [| | | |category|];
    cbn [includes as_string negb]; try done.
  destruct (bool_decide (category ∈ categories)) eqn:Hcat; cbn [negb]; [|done].
  destruct (DraftFinding.severity item) as [| | | |severity|];
    cbn [includes as_string negb]; try done.
  destruct (bool_decide (severity ∈ severities)) eqn:Hsev; cbn [negb]; [|done].
  destruct (DraftFinding.start_line item) as [| | |[| | |s]| |];
    cbn [Number_isFinite as_number negb orb]; try done.
  destruct (DraftFinding.end_line item) as [| | |[| | |e]| |];
    cbn [Number_isFinite as_number negb orb]; try done.
  destruct (files !! file) as [snapshot|] eqn:Hfile; [|done].
  intros _. exists file, comment, side, category, severity, s, e, snapshot.
  apply truthy_true in Hf, Hc.
  apply bool_decide_eq_true in Hs, Hcat, Hsev. by repeat split.
Qed.

Lemma passes_checks_typed (item : DraftFinding.t)
    (file comment side category severity : string)
    (s e : Q) (snapshot : ReviewFile.t) :
  typed_item files item file comment side category severity s e snapshot →
  passes_checks files item =
    negb (bool_decide
            (trim (Anchor.selected
                     (anchor (side_text side snapshot)
                             (normal_start s e) (normal_end s e))) = "")).
Proof.
  intros (Ef & Ec & Es & Ecat & Esev & Esl & Eel & Hf & Hc & Hs & Hcat & Hsev
          & Hfile).
  unfold passes_checks. rewrite Ef, Ec, Es, Ecat, Esev, Esl, Eel, Hfile.
  case_bool_decide as H1.
  - rewrite bool_decide_eq_false_2; [done | tauto].
  - rewrite bool_decide_eq_true_2; [done |].
    destruct (decide (trim (Anchor.selected
                (anchor (side_text side snapshot)
                        (normal_start s e) (normal_end s e))) = ""));
      [done | tauto].
Qed.

Lemma passes_checks_inv (item : DraftFinding.t) :
  passes_checks files item = true →
  ∃ file comment side category severity s e snapshot,
    typed_item files item file comment side category severity s e snapshot.
Proof.
  unfold passes_checks, typed_item.
  destruct (DraftFinding.file item) as [| | | |file|]; try done.
  destruct (DraftFinding.comment item) as [| | | |comment|]; try done.
  destruct (DraftFinding.side item) as [| | | |side|]; try done.
  destruct (DraftFinding.category item) as [| | | |category|]; try done.
  destruct (DraftFinding.severity item) as [| | | |severity|]; try done.
  destruct (DraftFinding.start_line item) as [| | |[| | |s]| |]; try done.
  destruct (DraftFinding.end_line item) as [| | |[| | |e]| |]; try done.
  destruct (files !! file) as [snapshot|] eqn:Hfile; [|done].
  intros (? & ? & ? & ? & ? & ?)%bool_decide_eq_true.
  exists file, comment, side, category, severity, s, e, snapshot.
  by repeat split.
Qed.

(** An item is skipped exactly when it fails a check. *)
Lemma sanitize_item_rejected (index : nat) (item : DraftFinding.t) :
  passes_checks files item = false ↔
  sanitize_item round now uuid files index item = [].
Proof.
  split.
  - intros Hp.
    destruct (sanitize_item round now uuid files index item) eqn:E; [done |].
    destruct (sanitize_item_inv index item)
      as (file & comment & side & category & severity & s & e & snapshot & Ht).
    { by rewrite E. }
    rewrite (sanitize_item_typed _ _ _ _ _ _ _ _ _ _ Ht) in E.
    rewrite (passes_checks_typed _ _ _ _ _ _ _ _ _ Ht) in Hp.
    by destruct (bool_decide _).
  - intros E. destruct (passes_checks files item) eqn:Hp; [|done].
    destruct (passes_checks_inv _ Hp)
      as (file & comment & side & category & severity & s & e & snapshot & Ht).
    rewrite (sanitize_item_typed _ _ _ _ _ _ _ _ _ _ Ht) in E.
    rewrite (passes_checks_typed _ _ _ _ _ _ _ _ _ Ht) in Hp.
    by destruct (bool_decide _).
Qed.

(** An item that passes every check yields one finding, built from its own
    fields and its position in the batch. *)
Lemma sanitize_item_accepted (index : nat) (item : DraftFinding.t) :
  passes_checks files item = true →
  ∃ file comment side category severity s e snapshot,
    typed_item files item file comment side category severity s e snapshot
    ∧ trim (Anchor.selected
              (anchor (side_text side snapshot)
                      (normal_start s e) (normal_end s e))) ≠ ""
    ∧ sanitize_item round now uuid files index item =
        [ {| Finding.id := assigned_id round uuid index item;
             Finding.round := round;
             Finding.file := file;
             Finding.side := side;
             Finding.start_line := normal_start s e;
             Finding.end_line := normal_end s e;
             Finding.category := category;
             Finding.severity := severity;
             Finding.comment := trim comment;
             Finding.status := open;
             Finding.anchor :=
               anchor (side_text side snapshot)
                      (normal_start s e) (normal_end s e);
             Finding.created_at := now;
             Finding.updated_at := now;
             Finding.closed_at := None;
             Finding.close_reason := None |} ].
Proof.
  intros Hp.
  destruct (passes_checks_inv _ Hp)
    as (file & comment & side & category & severity & s & e & snapshot & Ht).
  exists file, comment, side, category, severity, s, e, snapshot.
  rewrite (sanitize_item_typed _ _ _ _ _ _ _ _ _ _ Ht).
  rewrite (passes_checks_typed _ _ _ _ _ _ _ _ _ Ht) in Hp.
  case_bool_decide as Hsel; [done |]. by split; [|split].
Qed.

(** Membership in a batch goes through one item. *)
Lemma elem_of_sanitize (items : list DraftFinding.t) (f : Finding.t) :
  f ∈ sanitize now uuid items round files ↔
  ∃ index item, items !! index = Some item
                ∧ f ∈ sanitize_item round now uuid files index item.
Proof.
  unfold sanitize. rewrite list_elem_of_join. split.
  - intros (l & Hf & Hl). apply elem_of_lookup_imap in Hl as (i & x & -> & Hi).
    by exists i, x.
  - intros (i & x & Hi & Hf). eexists. split; [done |].
    apply elem_of_lookup_imap. by exists i, x.
Qed.

(** The findings of a batch, in order, against the items that pass the
    checks: each has the id assigned to its item. *)
Lemma sanitize_accepted_items (items : list DraftFinding.t) :
  Forall2
    (λ ix f,
       sanitize_item round now uuid files ix.1 ix.2 = [f]
       ∧ Finding.id f = assigned_id round uuid ix.1 ix.2)
    (filter (λ ix, passes_checks files ix.2 = true) (indexed items))
    (sanitize now uuid items round files).
Proof.
  unfold sanitize, indexed.
  apply (flat_imap_Forall2
           (sanitize_item round now uuid files) (passes_checks files)
           (λ index item f,
              sanitize_item round now uuid files index item = [f]
              ∧ Finding.id f = assigned_id round uuid index item)).
  - intros i x. apply sanitize_item_rejected.
  - intros i x Hx.
    destruct (sanitize_item_accepted i x Hx)
      as (file & comment & side & category & severity & s & e & snapshot
          & _ & _ & E).
    eexists. by split; [exact E |].
Qed.

End sanitizer.

(** C5: every finding emitted by sanitize has category, severity and side
    in the closed enumerations and status open; it stems from an item of the
    batch whose comment is a string that does not trim to the empty string
    and whose line numbers are finite, and carries the trimmed comment, 
    start_line = max(1, floor(min(start, end))) and
    end_line = max(start_line, floor(max(start, end))); hence
    1 ≤ start_line ≤ end_line. *)
Theorem sanitize_well_formed (now : Z) (uuid : nat → string)
    (items : list DraftFinding.t) (round : Z)
    (files : gmap string ReviewFile.t) (f : Finding.t) :
  f ∈ sanitize now uuid items round files →
  Finding.category f ∈ categories
  ∧ Finding.severity f ∈ severities
  ∧ Finding.side f ∈ sides
  ∧ Finding.status f = open
  ∧ (∃ index item comment s e,
       items !! index = Some item
       ∧ DraftFinding.comment item = JStr comment
       ∧ trim comment ≠ ""
       ∧ Finding.comment f = trim comment
       ∧ DraftFinding.start_line item = JNum (Finite s)
       ∧ DraftFinding.end_line item = JNum (Finite e)
       ∧ Finding.start_line f = Z.max 1 (Qfloor (Qmin s e))
       ∧ Finding.end_line f =
           Z.max (Finding.start_line f) (Qfloor (Qmax s e)))
  ∧ 1 ≤ Finding.start_line f ≤ Finding.end_line f.
Proof.
  intros (index & item & Hi & Hf)%elem_of_sanitize.
  destruct (sanitize_item_inv round now uuid files index item)
    as (file & comment & side & category & severity & s & e & snapshot & Ht).
  { intros E. rewrite E in Hf. by apply not_elem_of_nil in Hf. }
  rewrite (sanitize_item_typed _ _ _ _ _ _ _ _ _ _ _ _ _ _ Ht) in Hf.
  case_bool_decide; [by apply not_elem_of_nil in Hf |].
  apply list_elem_of_singleton in Hf as ->.
  destruct Ht as (Ef & Ec & Es & Ecat & Esev & Esl & Eel & Hfn & Hc & Hs
                  & Hcat & Hsev & Hfile).
  cbn. repeat (split; [done |]). split.
  - by exists index, item, comment, s, e.
  - apply normal_range.
Qed.

(** An instance: the finding emitted for the item of the submission
    scenario. *)
Lemma sanitize_well_formed_witness :
  leak_finding ∈ sanitize 100 sample_uuid [leak_item] 1 (file_map [five_file])
  ∧ (Finding.category leak_finding ∈ categories
     ∧ Finding.severity leak_finding ∈ severities
     ∧ Finding.side leak_finding ∈ sides
     ∧ Finding.status leak_finding = open
     ∧ (∃ index item comment s e,
          [leak_item] !! index = Some item
          ∧ DraftFinding.comment item = JStr comment
          ∧ trim comment ≠ ""
          ∧ Finding.comment leak_finding = trim comment
          ∧ DraftFinding.start_line item = JNum (Finite s)
          ∧ DraftFinding.end_line item = JNum (Finite e)
          ∧ Finding.start_line leak_finding = Z.max 1 (Qfloor (Qmin s e))
          ∧ Finding.end_line leak_finding =
              Z.max (Finding.start_line leak_finding) (Qfloor (Qmax s e)))
     ∧ 1 ≤ Finding.start_line leak_finding ≤ Finding.end_line leak_finding).
Proof.
  assert (H : leak_finding ∈
              sanitize 100 sample_uuid [leak_item] 1 (file_map [five_file])).
  { vm_compute. apply list_elem_of_here. }
  split; [exact H |].
  exact (sanitize_well_formed 100 sample_uuid [leak_item] 1
           (file_map [five_file]) leak_finding H).
Defined.

(** The submission scenario: lines given as 5 and 3 are stored as 3..5. *)
Example sanitize_leak_scenario :
  sanitize 100 sample_uuid [leak_item] 1 (file_map [five_file])
  = [leak_finding].
Proof. by vm_compute. Qed.


(** *** Raw items *)


(** On an object the callback does what it does on the typed view of its
    fields, but throws where it would emit a finding if the id is neither
    absent, [null] nor a string. *)
Lemma sanitize_raw_item_object (round now : Z) (uuid : nat → string)
    (files : gmap string ReviewFile.t) (index : nat) (r : RawFinding.t) :
  sanitize_raw_item round now uuid files index (RawObject r)
  = if passes_checks files (raw_fields r)
    then if ill_typed files (RawObject r) then None
         else Some (sanitize_item round now uuid files index (raw_fields r))
    else Some [].
Proof.
  assert (E : sanitize_raw_item round now uuid files index (RawObject r)
              = match sanitize_item round now uuid files index (raw_fields r)
                with
                | [] => Some []
                | out => match id_trim (RawFinding.id r) with
                         | None => None
                         | Some _ => Some out
                         end
                end).
  { unfold sanitize_raw_item, sanitize_item, raw_fields.
    cbn [DraftFinding.id DraftFinding.file DraftFinding.side
         DraftFinding.start_line DraftFinding.end_line DraftFinding.category
         DraftFinding.severity DraftFinding.comment].
    destruct (negb (is_string (RawFinding.file r)) || _); [done |].
    destruct (negb (is_string (RawFinding.comment r)) || _); [done |].
    destruct (negb (isSide (RawFinding.side r))); [done |].
    destruct (negb (isCategory (RawFinding.category r))); [done |].
    destruct (negb (isSeverity (RawFinding.severity r))); [done |].
    destruct (negb (Number_isFinite (RawFinding.start_line r)) || _);
      [done |].
    destruct (files !! as_string (RawFinding.file r)); [|done].
    cbv zeta. destruct (negb (truthy (trim (Anchor.selected _)))); [done |].
    by destruct (RawFinding.id r). }
  rewrite E. cbn [ill_typed].
  destruct (passes_checks files (raw_fields r)) eqn:Hp.
  - destruct (sanitize_item round now uuid files index (raw_fields r))
      as [|f out] eqn:Es.
    { apply sanitize_item_rejected in Es. congruence. }
    cbn [andb]. by destruct (RawFinding.id r).
  - apply (sanitize_item_rejected round now uuid files index) in Hp.
    by rewrite Hp.
Qed.

(** The callback throws exactly on the items the declared type excludes
    and no check catches. *)
Lemma sanitize_raw_item_None (round now : Z) (uuid : nat → string)
    (files : gmap string ReviewFile.t) (index : nat) (item : RawItem) :
  sanitize_raw_item round now uuid files index item = None
  ↔ ill_typed files item = true.
Proof.
  destruct item as [| |r]; [done | done |].
  rewrite sanitize_raw_item_object. cbn [ill_typed].
  destruct (passes_checks files (raw_fields r)); cbn [andb]; [|done].
  by destruct (RawFinding.id r).
Qed.

Lemma sanitize_raw_item_typed (round now : Z) (uuid : nat → string)
    (files : gmap string ReviewFile.t) (index : nat) (item : RawItem) :
  ill_typed files item = false →
  sanitize_raw_item round now uuid files index item
  = Some (sanitize_item round now uuid files index (to_draft item)).
Proof.
  destruct item as [| |r]; [done | done |]. intros Hi.
  rewrite sanitize_raw_item_object, Hi. cbn [to_draft].
  destruct (passes_checks files (raw_fields r)) eqn:Hp; [done |].
  apply (sanitize_item_rejected round now uuid files index) in Hp.
  by rewrite Hp.
Qed.

Lemma indexed_lookup {A} (items : list A) (index : nat) (item : A) :
  (index, item) ∈ indexed items ↔ items !! index = Some item.
Proof.
  unfold indexed. rewrite elem_of_lookup_imap. split.
  - by intros (i & x & [= -> ->] & H).
  - intros H. by exists index, item.
Qed.

Lemma indexed_NoDup {A} (items : list A) : NoDup (indexed items).
Proof.
  apply (NoDup_fmap_1 fst). unfold indexed.
  rewrite fmap_imap.
  rewrite (imap_ext _ (λ i _, i)) by done.
  rewrite (imap_seq_0 items (λ i, i)), list_fmap_id. apply NoDup_seq.
Qed.



Lemma mapM_imap_Some {A B C} (F : nat → A → option B) (G : nat → C → B)
    (g : A → C) (P : A → Prop) (l : list A) :
  (∀ i x, P x → F i x = Some (G i (g x))) → Forall P l →
  mapM id (imap F l) = Some (imap G (g <$> l)).
Proof.
  intros HF Hl. revert F G HF.
  induction Hl as [|x l Hx _ IH]; intros F G HF; [done |].
  rewrite fmap_cons, !imap_cons. cbn [mapM]. rewrite (HF _ _ Hx).
  cbn. rewrite (IH (F ∘ S) (G ∘ S)); [done |]. intros i y. apply HF.
Qed.

(** On a batch of the declared type [sanitize] returns what it returns on
    the typed view of the batch. *)
Lemma sanitize_raw_typed (now : Z) (uuid : nat → string)
    (items : list RawItem) (round : Z) (files : gmap string ReviewFile.t) :
  Forall (λ item, ill_typed files item = false) items →
  sanitize_raw now uuid items round files
  = Some (sanitize now uuid (to_draft <$> items) round files).
Proof.
  intros Hitems. unfold sanitize_raw, sanitize.
  rewrite (mapM_imap_Some _ (sanitize_item round now uuid files) to_draft
             (λ item, ill_typed files item = false)); [done | | done].
  intros i x. apply sanitize_raw_item_typed.
Qed.

Lemma sanitize_raw_None (now : Z) (uuid : nat → string)
    (items : list RawItem) (round : Z) (files : gmap string ReviewFile.t) :
  sanitize_raw now uuid items round files = None
  ↔ Exists (λ item, ill_typed files item = true) items.
Proof.
  split.
  - intros Hnone.
    assert (Hdec : Forall (λ item, ill_typed files item = false) items
                   ∨ Exists (λ item, ill_typed files item = true) items).
    { clear Hnone. induction items as [|x l IH]; [by left |].
      destruct (ill_typed files x) eqn:Ex; [right; by left |].
      destruct IH as [IH|IH]; [left; by constructor | right; by right]. }
    destruct Hdec as [Hall|]; [|done].
    by rewrite sanitize_raw_typed in Hnone.
  - intros Hex. unfold sanitize_raw.
    rewrite (mapM_None_2 id); [done |].
    apply Exists_exists in Hex as (x & Hx & Hill).
    apply list_elem_of_lookup in Hx as [i Hi].
    apply Exists_exists.
    exists (sanitize_raw_item round now uuid files i x). split.
    + apply list_elem_of_lookup. exists i.
      by rewrite list_lookup_imap, Hi.
    + by apply sanitize_raw_item_None.
Qed.

(** The handler of a submission of the declared type does what it does on
    the typed view of the body. *)
Lemma handle_submit_raw_typed (input : RawSubmit.t) (uuid : nat → string)
    (t_sanitize t_saved : Z) (s : Session.t) :
  Forall (λ item, ill_typed (file_map (Session.files s)) item = false)
         (default [] (RawSubmit.new_findings input)) →
  handle_submit_raw (BodyFields input) uuid t_sanitize t_saved s
  = Some (handle_submit (to_submit input) uuid t_sanitize t_saved s).
Proof.
  intros Hitems. unfold handle_submit_raw, handle_submit.
  rewrite sanitize_raw_typed by done. unfold to_submit.
  cbn [Submit.notes Submit.new_findings].
  by destruct (RawSubmit.new_findings input).
Qed.

(** A submission with an item the declared type excludes throws, and
    nothing is saved. *)
Lemma handle_submit_raw_throws (input : RawSubmit.t) (uuid : nat → string)
    (t_sanitize t_saved : Z) (s : Session.t) :
  handle_submit_raw (BodyFields input) uuid t_sanitize t_saved s = None
  ↔ Exists (λ item, ill_typed (file_map (Session.files s)) item = true)
           (default [] (RawSubmit.new_findings input)).
Proof.
  rewrite <- (sanitize_raw_None t_sanitize uuid _
                (State.round (Session.base s) + 1)).
  unfold handle_submit_raw. by destruct (sanitize_raw _ _ _ _ _).
Qed.



(** The two valid items of that batch are emitted, each under its own batch
    position. *)
Example sanitize_raw_skips_bad_items :
  (λ out : list Finding.t, Finding.id <$> out)
    <$> sanitize_raw 100 sample_uuid mixed_batch 1 (file_map [five_file])
  = Some ["finding_1_1_3f2a9c"; "finding_1_4_3f2a9c"].
Proof. by vm_compute. Qed.


(** The same happens for a valid item whose id is a number. *)
Example sanitize_number_id_fails :
  sanitize_raw 100 sample_uuid [RawObject leak_raw; RawObject numbered_raw] 1
               (file_map [five_file])
  = None.
Proof. by vm_compute. Qed.

(** A batch with a malformed item in the middle: the items around it are
    emitted, each under its own batch position. *)
Example sanitize_skips_bad_item :
  Finding.id <$> sanitize 100 sample_uuid [leak_item; bad_item; leak_item] 1
                          (file_map [five_file])
  = ["finding_1_1_3f2a9c"; "finding_1_3_3f2a9c"].
Proof. by vm_compute. Qed.

(** Past the end of the text [anchor] captures the last line. *)
Lemma anchor_past_end (text : string) (a b : Z) :
  line_count text < a → a ≤ b →
  Anchor.selected (anchor text a b) = default "" (last (split_nl text)).
Proof.
  unfold line_count. intros Ha Hab. unfold anchor, normalize.
  destruct (Z.leb_spec a b); [|lia]. cbn [fst snd Anchor.selected].
  destruct (split_nl_cons text) as (h & t & E).
  assert (Hn : 1 ≤ Z.of_nat (length (split_nl text))).
  { rewrite E. cbn [length]. lia. }
  set (lines := split_nl text) in *.
  rewrite !or_num_pos by lia.
  rewrite (Z.min_r a), (Z.max_r 1), (Z.min_r b), Z.max_id by lia.
  rewrite slice_in by lia.
  destruct (last lines) as [x|] eqn:El.
  - apply last_Some in El as [l' El]. rewrite El.
    rewrite length_app. cbn [length].
    replace (Z.to_nat (Z.of_nat (length l' + 1) - 1)) with (length l') by lia.
    rewrite drop_app_length.
    replace (Z.to_nat _) with 1%nat by lia. done.
  - apply last_None in El. by rewrite E in El.
Qed.

(** C10: a draft item that passes the first four checks and whose
    normalized start_line exceeds the line count of the comparison text is
    anchored at the last line of that text; when the last line does not trim
    to empty the item is emitted, with the anchor selecting the last line and
    start_line left at its normalized value beyond the end of the text. *)
Theorem sanitize_clamps_past_end (now : Z) (uuid : nat → string)
    (items : list DraftFinding.t) (round : Z)
    (files : gmap string ReviewFile.t) (index : nat) (item : DraftFinding.t)
    (file comment side category severity : string) (s e : Q)
    (snapshot : ReviewFile.t) :
  items !! index = Some item →
  typed_item files item file comment side category severity s e snapshot →
  line_count (side_text side snapshot) < normal_start s e →
  let last_line := default "" (last (split_nl (side_text side snapshot))) in
  Anchor.selected
    (anchor (side_text side snapshot) (normal_start s e) (normal_end s e))
  = last_line
  ∧ (trim last_line ≠ "" →
     ∃ f, f ∈ sanitize now uuid items round files
          ∧ sanitize_item round now uuid files index item = [f]
          ∧ Anchor.selected (Finding.anchor f) = last_line
          ∧ Finding.start_line f = normal_start s e
          ∧ line_count (side_text side snapshot) < Finding.start_line f).
Proof.
  intros Hi Ht Hpast last_line.
  assert (Hsel : Anchor.selected
            (anchor (side_text side snapshot)
                    (normal_start s e) (normal_end s e)) = last_line).
  { apply anchor_past_end; [done |]. apply normal_range. }
  split; [done |]. intros Hlast.
  eexists. split; [|split; [|split; [|split]]].
  2: { rewrite (sanitize_item_typed _ _ _ _ _ _ _ _ _ _ _ _ _ _ Ht).
       rewrite Hsel, bool_decide_eq_false_2 by done. done. }
  - apply elem_of_sanitize. exists index, item. split; [done |].
    rewrite (sanitize_item_typed _ _ _ _ _ _ _ _ _ _ _ _ _ _ Ht).
    rewrite Hsel, bool_decide_eq_false_2 by done. apply list_elem_of_here.
  - done.
  - done.
  - done.
Qed.

(** An instance: an item on lines 40..41 of the five-line file. *)
Lemma sanitize_clamps_past_end_witness :
  ([far_item] !! 0%nat = Some far_item
   ∧ typed_item (file_map [five_file]) far_item
       "x.ts" "slow" "additions" "perf" "low" 40%Q (83 # 2)%Q five_file
   ∧ line_count (side_text "additions" five_file)
     < normal_start 40%Q (83 # 2)%Q)
  ∧ (let last_line :=
       default "" (last (split_nl (side_text "additions" five_file))) in
     Anchor.selected
       (anchor (side_text "additions" five_file)
               (normal_start 40%Q (83 # 2)%Q) (normal_end 40%Q (83 # 2)%Q))
     = last_line
     ∧ (trim last_line ≠ "" →
        ∃ f, f ∈ sanitize 100 sample_uuid [far_item] 1 (file_map [five_file])
             ∧ sanitize_item 1 100 sample_uuid (file_map [five_file])
                             0 far_item = [f]
             ∧ Anchor.selected (Finding.anchor f) = last_line
             ∧ Finding.start_line f = normal_start 40%Q (83 # 2)%Q
             ∧ line_count (side_text "additions" five_file)
               < Finding.start_line f)).
Proof.
  assert (Ht : typed_item (file_map [five_file]) far_item
             "x.ts" "slow" "additions" "perf" "low" 40%Q (83 # 2)%Q five_file).
  { unfold typed_item. repeat split; try done.
    - unfold sides. set_solver.
    - unfold categories. set_solver.
    - unfold severities. set_solver. }
  assert (Hpast : line_count (side_text "additions" five_file)
                  < normal_start 40%Q (83 # 2)%Q) by (by vm_compute).
  split; [split; [reflexivity | split; [exact Ht | exact Hpast]] |].
  exact (sanitize_clamps_past_end 100 sample_uuid [far_item] 1
           (file_map [five_file]) 0 far_item
           "x.ts" "slow" "additions" "perf" "low" 40%Q (83 # 2)%Q five_file
           eq_refl Ht Hpast).
Defined.

(** ** Round controller *)

Lemma mark_resolved_id (target : Finding.t) (t1 t2 : Z) :
  Finding.id (mark_resolved target t1 t2) = Finding.id target.
Proof. reflexivity. Qed.

(** Resolving keeps the ids of the findings, in order. *)
Lemma handle_resolve_ids (finding_id : option string) (t1 t2 t3 : Z)
    (s : Session.t) :
  Finding.id <$> State.findings (Session.base (handle_resolve finding_id t1 t2 t3 s).1)
  = Finding.id <$> State.findings (Session.base s).
Proof.
  unfold handle_resolve. destruct finding_id as [fid|]; [|done].
  destruct (truthy fid); cbn [negb]; [|done].
  destruct (list_find _ _) as [[i target]|] eqn:Hfind; [|done].
  apply list_find_Some in Hfind as (Hi & _ & _). cbn.
  rewrite list_fmap_insert, mark_resolved_id.
  apply list_insert_id. by rewrite list_lookup_fmap, Hi.
Qed.

Lemma handle_resolve_frame (finding_id : option string) (t1 t2 t3 : Z)
    (s : Session.t) :
  let s' := (handle_resolve finding_id t1 t2 t3 s).1 in
  Session.files s' = Session.files s
  ∧ State.round (Session.base s') = State.round (Session.base s)
  ∧ Session.done s' = Session.done s
  ∧ Session.exports s' = Session.exports s
  ∧ (s' = s ∨ Session.state_file s' = Session.base s').
Proof.
  unfold handle_resolve. cbv zeta.
  destruct finding_id as [fid|]; [|cbn; by repeat split; try left].
  destruct (truthy fid); cbn [negb]; [|cbn; by repeat split; try left].
  destruct (list_find _ _) as [[i target]|]; cbn;
    [|by repeat split; try left].
  repeat split. by right.
Qed.

(** The launch data stay in sync: removing from [existing_findings] the
    first reference whose object has the resolved id leaves exactly the
    references to the findings that are still open. *)
Lemma open_refs_resolve (L : list Finding.t) (fid : string) (t1 t2 : Z)
    (l : list Finding.t) (k i : nat) (target : Finding.t) :
  (∀ p, L !! (k + p)%nat = l !! p) →
  list_find (λ item, Finding.id item = fid ∧ Finding.status item = open) l
  = Some (i, target) →
  ∃ j, list_find (λ ref, ref_id L ref = Some fid) (open_refs k l)
       = Some (j, (k + i)%nat)
       ∧ delete j (open_refs k l)
         = open_refs k (<[i := mark_resolved target t1 t2]> l).
Proof.
  revert k i. induction l as [|x l IH]; intros k i HL Hfind; [done |].
  assert (Hk : ref_id L k = Some (Finding.id x)).
  { unfold ref_id. specialize (HL 0%nat). rewrite Nat.add_0_r in HL.
    by rewrite HL. }
  assert (HL' : ∀ p, L !! (S k + p)%nat = l !! p).
  { intros p. specialize (HL (S p)). by rewrite Nat.add_succ_r in HL. }
  cbn [list_find] in Hfind. case_decide as HP.
  - injection Hfind as <- <-. destruct HP as [Hid Hopen].
    exists 0%nat. cbn [open_refs]. apply is_open_true in Hopen as Hb.
    rewrite Hb. cbn [list_find]. rewrite decide_True by by rewrite Hk, Hid.
    by rewrite Nat.add_0_r.
  - destruct (list_find _ l) as [[i' target']|] eqn:Hl; [|done].
    cbn in Hfind. injection Hfind as <- <-.
    destruct (IH (S k) i' HL' eq_refl) as (j & Hj & Hdel).
    replace (k + S i')%nat with (S k + i')%nat by lia.
    cbn [open_refs insert list_insert]. destruct (is_open x) eqn:Hb.
    + exists (S j). cbn [list_find]. rewrite decide_False.
      * rewrite Hj. split; [done |]. exact (f_equal (cons k) Hdel).
      * rewrite Hk. intros [= Hid]. apply HP. split; [done |].
        by apply is_open_true.
    + by exists j.
Qed.

Lemma handle_resolve_sync (finding_id : option string) (t1 t2 t3 : Z)
    (s : Session.t) :
  Launch.existing_findings (Session.data s)
  = open_refs 0 (State.findings (Session.base s)) →
  let s' := (handle_resolve finding_id t1 t2 t3 s).1 in
  Launch.existing_findings (Session.data s')
  = open_refs 0 (State.findings (Session.base s')).
Proof.
  intros Hsync. unfold handle_resolve. cbv zeta.
  destruct finding_id as [fid|]; [|done].
  destruct (truthy fid); cbn [negb]; [|done].
  destruct (list_find _ (State.findings (Session.base s)))
    as [[i target]|] eqn:Hfind; [|done].
  cbn [fst Session.data Session.base Launch.existing_findings State.findings].
  destruct (open_refs_resolve (State.findings (Session.base s)) fid t1 t2
              (State.findings (Session.base s)) 0 i target)
    as (j & Hj & Hdel); [done | done |].
  rewrite Hsync.
  erewrite (list_find_ext _ (λ ref, ref_id (State.findings (Session.base s))
                                           ref = Some fid)).
  - by rewrite Hj.
  - intros ref. unfold ref_id. rewrite <- !list_lookup_fmap.
    rewrite list_fmap_insert, mark_resolved_id.
    apply list_find_Some in Hfind as (Hi & _ & _).
    rewrite list_insert_id; [done |]. by rewrite list_lookup_fmap, Hi.
Qed.

(** Throughout the review the launch data list exactly the open findings of
    the closure. *)
Lemma existing_findings_in_sync (files : list ReviewFile.t) (state : State.t)
    (t_reconcile t_launch : Z) (reqs : list Request) :
  forallb is_review reqs = true →
  let s := run (launch files state t_reconcile t_launch) reqs in
  Launch.existing_findings (Session.data s)
  = open_refs 0 (State.findings (Session.base s)).
Proof.
  intros Hreqs s. unfold s. clear s.
  assert (H0 : Launch.existing_findings
                 (Session.data (launch files state t_reconcile t_launch))
               = open_refs 0 (State.findings
                   (Session.base (launch files state t_reconcile t_launch))))
    by done.
  revert H0. generalize (launch files state t_reconcile t_launch).
  induction reqs as [|r reqs IH]; intros s Hs; [done |].
  cbn in Hreqs. apply andb_true_iff in Hreqs as [Hr Hreqs].
  cbn [run fold_left]. apply (IH Hreqs).
  destruct r as [input now|fid t1 t2 t3| |]; [done | |done|done].
  by apply handle_resolve_sync.
Qed.

Lemma launch_inv (files : list ReviewFile.t) (state : State.t)
    (t_reconcile t_saved : Z) :
  review_inv files state (launch files state t_reconcile t_saved).
Proof.
  unfold review_inv, launch. cbn. repeat split. apply reconcile_ids.
Qed.

Lemma step_inv (files : list ReviewFile.t) (state : State.t)
    (s : Session.t) (r : Request) :
  is_review r = true → review_inv files state s →
  review_inv files state (step s r).
Proof.
  intros Hr (Hfiles & Hround & Hsaved & Hfind & Hdone & Hexp & Hids).
  destruct r as [input now|fid t1 t2 t3| |]; [|cbn [step]|done|done].
  { unfold review_inv. cbn. by repeat split. }
  pose proof (handle_resolve_ids fid t1 t2 t3 s) as Hi.
  destruct (handle_resolve_frame fid t1 t2 t3 s)
    as (Hf & Hro & Hd & He & Hs).
  unfold review_inv. rewrite Hf, Hro, Hd, He, Hi.
  destruct Hs as [-> | ->]; [done |]. by rewrite Hro.
Qed.

Lemma run_inv (files : list ReviewFile.t) (state : State.t)
    (rs : list Request) (s : Session.t) :
  forallb is_review rs = true → review_inv files state s →
  review_inv files state (run s rs).
Proof.
  revert s. induction rs as [|r rs IH]; intros s Hrs Hs; [done |].
  cbn in Hrs. apply andb_true_iff in Hrs as [Hr Hrs].
  cbn [run fold_left]. apply IH; [done |]. by apply step_inv.
Qed.

(** C6: for a review launched from a stored state and followed by any number
    of draft saves and resolve actions: submitting saves a state whose round
    is the stored round plus 1, whose draft is cleared and whose findings are
    the stored findings that are not open, then the stored open findings,
    then the sanitized new findings (sanitized for the new round against the
    current files); aborting saves nothing: the saved state, with its round
    at the stored value, and the findings of the closure are as they were
    before, and right after launch the saved findings are the reconciled
    ones. *)
Theorem submit_and_abort_round (files : list ReviewFile.t) (state : State.t)
    (t_reconcile t_launch : Z) (reqs : list Request)
    (input : Submit.t) (uuid : nat → string) (t_sanitize t_saved : Z) :
  forallb is_review reqs = true →
  let s := run (launch files state t_reconcile t_launch) reqs in
  let stored := State.findings (Session.state_file s) in
  let submitted := (handle_submit input uuid t_sanitize t_saved s).1 in
  let aborted := on_abort s in
  State.round (Session.state_file s) = State.round state
  ∧ State.round (Session.state_file submitted) = State.round state + 1
  ∧ State.draft (Session.state_file submitted) = None
  ∧ State.findings (Session.state_file submitted)
    = filter (λ item, Finding.status item ≠ open) stored
      ++ filter (λ item, Finding.status item = open) stored
      ++ sanitize t_sanitize uuid (default [] (Submit.new_findings input))
                  (State.round state + 1) (file_map files)
  ∧ Session.state_file aborted = Session.state_file s
  ∧ State.round (Session.state_file aborted) = State.round state
  ∧ State.findings (Session.base aborted) = State.findings (Session.base s)
  ∧ Session.exports aborted = []
  ∧ State.findings
      (Session.state_file (on_abort (launch files state t_reconcile t_launch)))
    = reconcile t_reconcile files (State.findings state).
Proof.
  intros Hreqs s stored submitted aborted.
  destruct (run_inv files state reqs _ Hreqs
              (launch_inv files state t_reconcile t_launch))
    as (Hfiles & Hround & Hsaved & Hfind & Hdone & Hexp & _).
  fold s in Hfiles, Hround, Hsaved, Hfind, Hdone, Hexp.
  unfold submitted, aborted, stored, handle_submit, on_abort, resolve.
  rewrite Hdone, Hfiles, Hround, Hfind. cbn. by repeat split.
Qed.

(** An instance: a draft save and a resolve action before the end of the
    round. *)
Lemma submit_and_abort_round_witness :
  forallb is_review
    [PutDraft twice_far 300; PostResolve (Some "f1") 310 311 312] = true
  ∧ (let s := run (launch [five_file] sample_state 200 201)
                  [PutDraft twice_far 300;
                   PostResolve (Some "f1") 310 311 312] in
     let stored := State.findings (Session.state_file s) in
     let submitted := (handle_submit twice_far sample_uuid 400 401 s).1 in
     let aborted := on_abort s in
     State.round (Session.state_file s) = State.round sample_state
     ∧ State.round (Session.state_file submitted)
       = State.round sample_state + 1
     ∧ State.draft (Session.state_file submitted) = None
     ∧ State.findings (Session.state_file submitted)
       = filter (λ item, Finding.status item ≠ open) stored
         ++ filter (λ item, Finding.status item = open) stored
         ++ sanitize 400 sample_uuid
                     (default [] (Submit.new_findings twice_far))
                     (State.round sample_state + 1) (file_map [five_file])
     ∧ Session.state_file aborted = Session.state_file s
     ∧ State.round (Session.state_file aborted) = State.round sample_state
     ∧ State.findings (Session.base aborted)
       = State.findings (Session.base s)
     ∧ Session.exports aborted = []
     ∧ State.findings
         (Session.state_file
            (on_abort (launch [five_file] sample_state 200 201)))
       = reconcile 200 [five_file] (State.findings sample_state)).
Proof.
  split; [reflexivity |].
  apply (submit_and_abort_round [five_file] sample_state 200 201
           [PutDraft twice_far 300; PostResolve (Some "f1") 310 311 312]
           twice_far sample_uuid 400 401).
  reflexivity.
Defined.

(** A request without a finding id is refused before any lookup. *)
Lemma handle_resolve_no_id (t1 t2 t3 : Z) (s : Session.t) :
  handle_resolve None t1 t2 t3 s = (s, BadRequest400 "finding_id required")
  ∧ handle_resolve (Some "") t1 t2 t3 s
    = (s, BadRequest400 "finding_id required").
Proof. by split. Qed.

(** C8: for a given finding id: resolve answers OK exactly when some finding
    with that id is open; it then turns the first such finding, and no
    other, into a resolved one stamped with updated_at and closed_at, and
    saves the state; when no finding has that id, or every finding with that
    id is closed_auto or resolved, it answers not-found and leaves the
    session unchanged. *)
Theorem resolve_only_open (fid : string) (t_updated t_closed t_saved : Z)
    (s : Session.t) :
  fid ≠ "" →
  let findings := State.findings (Session.base s) in
  let s' := (handle_resolve (Some fid) t_updated t_closed t_saved s).1 in
  let response := (handle_resolve (Some fid) t_updated t_closed t_saved s).2 in
  let findings' := State.findings (Session.base s') in
  (response = Ok200 ↔
     ∃ item, item ∈ findings ∧ Finding.id item = fid
             ∧ Finding.status item = open)
  ∧ ((∀ item, item ∈ findings → Finding.id item = fid →
        Finding.status item ≠ open) →
     response = NotFound404 "finding not found or already resolved"
     ∧ s' = s)
  ∧ (∀ i target,
       findings !! i = Some target →
       Finding.id target = fid → Finding.status target = open →
       (∀ j item, findings !! j = Some item → (j < i)%nat →
          ¬ (Finding.id item = fid ∧ Finding.status item = open)) →
       response = Ok200
       ∧ length findings' = length findings
       ∧ (∀ j, j ≠ i → findings' !! j = findings !! j)
       ∧ (∃ target', findings' !! i = Some target'
            ∧ Finding.status target' = resolved
            ∧ Finding.updated_at target' = t_updated
            ∧ Finding.closed_at target' = Some t_closed
            ∧ Finding.id target' = Finding.id target
            ∧ Finding.round target' = Finding.round target
            ∧ Finding.file target' = Finding.file target
            ∧ Finding.side target' = Finding.side target
            ∧ Finding.start_line target' = Finding.start_line target
            ∧ Finding.end_line target' = Finding.end_line target
            ∧ Finding.category target' = Finding.category target
            ∧ Finding.severity target' = Finding.severity target
            ∧ Finding.comment target' = Finding.comment target
            ∧ Finding.anchor target' = Finding.anchor target
            ∧ Finding.created_at target' = Finding.created_at target
            ∧ Finding.close_reason target' = Finding.close_reason target)
       ∧ Session.state_file s' = Session.base s'
       ∧ State.round (Session.base s') = State.round (Session.base s)).
Proof.
  intros Hfid findings s' response findings'.
  unfold findings', s', response, handle_resolve.
  apply truthy_true in Hfid as ->. cbn [negb]. fold findings.
  destruct (list_find _ findings) as [[i target]|] eqn:Hfind.
  - apply list_find_Some in Hfind as (Hi & [Hid Hopen] & Hfirst).
    cbn [fst snd Session.base Session.state_file State.findings State.round].
    split; [|split].
    + split; [|done]. intros _. exists target.
      split; [|done]. by eapply list_elem_of_lookup_2.
    + intros Hnone. destruct (Hnone target); [|done..].
      by eapply list_elem_of_lookup_2.
    + intros i0 target0 Hi0 Hid0 Hopen0 Hfirst0.
      assert (i0 = i) as ->.
      { destruct (Nat.lt_trichotomy i0 i) as [Hlt|[E|Hlt]]; [|done|].
        - by destruct (Hfirst i0 target0 Hi0 Hlt).
        - by destruct (Hfirst0 i target Hi Hlt). }
      assert (target0 = target) as -> by congruence.
      split; [done |]. split; [apply length_insert |].
      split; [by intros j Hj; apply list_lookup_insert_ne |].
      split; [|done].
      exists (mark_resolved target t_updated t_closed).
      split; [|by repeat split].
      apply list_lookup_insert_eq. by eapply lookup_lt_Some.
  - apply list_find_None in Hfind. rewrite Forall_forall in Hfind.
    cbn [fst snd]. split; [|split].
    + split; [done |]. intros (item & Hin & Hid & Hopen).
      by destruct (Hfind item Hin).
    + done.
    + intros i target Hi Hid Hopen _.
      destruct (Hfind target); [by eapply list_elem_of_lookup_2 | done].
Qed.

(** An instance: the open finding of the sample review. *)
Lemma resolve_only_open_witness :
  "f1" ≠ ""
  ∧ (let s := sample_session in
     let findings := State.findings (Session.base s) in
     let s' := (handle_resolve (Some "f1") 310 311 312 s).1 in
     let response := (handle_resolve (Some "f1") 310 311 312 s).2 in
     let findings' := State.findings (Session.base s') in
     (response = Ok200 ↔
        ∃ item, item ∈ findings ∧ Finding.id item = "f1"
                ∧ Finding.status item = open)
     ∧ ((∀ item, item ∈ findings → Finding.id item = "f1" →
           Finding.status item ≠ open) →
        response = NotFound404 "finding not found or already resolved"
        ∧ s' = s)
     ∧ (∀ i target,
          findings !! i = Some target →
          Finding.id target = "f1" → Finding.status target = open →
          (∀ j item, findings !! j = Some item → (j < i)%nat →
             ¬ (Finding.id item = "f1" ∧ Finding.status item = open)) →
          response = Ok200
          ∧ length findings' = length findings
          ∧ (∀ j, j ≠ i → findings' !! j = findings !! j)
          ∧ (∃ target', findings' !! i = Some target'
               ∧ Finding.status target' = resolved
               ∧ Finding.updated_at target' = 310
               ∧ Finding.closed_at target' = Some 311
               ∧ Finding.id target' = Finding.id target
               ∧ Finding.round target' = Finding.round target
               ∧ Finding.file target' = Finding.file target
               ∧ Finding.side target' = Finding.side target
               ∧ Finding.start_line target' = Finding.start_line target
               ∧ Finding.end_line target' = Finding.end_line target
               ∧ Finding.category target' = Finding.category target
               ∧ Finding.severity target' = Finding.severity target
               ∧ Finding.comment target' = Finding.comment target
               ∧ Finding.anchor target' = Finding.anchor target
               ∧ Finding.created_at target' = Finding.created_at target
               ∧ Finding.close_reason target' = Finding.close_reason target)
          ∧ Session.state_file s' = Session.base s'
          ∧ State.round (Session.base s') = State.round (Session.base s))).
Proof.
  split; [discriminate |].
  apply (resolve_only_open "f1" 310 311 312 sample_session). discriminate.
Defined.

(** The resolve scenarios on the sample review: the open finding is
    resolved once; a second request for it, and one for an unknown id, are
    answered not-found and change nothing. *)
Example resolve_twice_scenario :
  let s1 := (handle_resolve (Some "f1") 310 311 312 sample_session).1 in
  (handle_resolve (Some "f1") 310 311 312 sample_session).2 = Ok200
  ∧ Finding.status <$> State.findings (Session.state_file s1) = [resolved]
  ∧ Launch.existing_findings (Session.data s1) = []
  ∧ handle_resolve (Some "f1") 320 321 322 s1
    = (s1, NotFound404 "finding not found or already resolved")
  ∧ handle_resolve (Some "nope") 320 321 322 sample_session
    = (sample_session, NotFound404 "finding not found or already resolved").
Proof. by vm_compute. Qed.

(** The ids of a batch are the ids assigned to the items that pass the
    checks. *)
Lemma sanitize_ids (now : Z) (uuid : nat → string)
    (items : list DraftFinding.t) (round : Z)
    (files : gmap string ReviewFile.t) :
  Finding.id <$> sanitize now uuid items round files
  = (λ ix, assigned_id round uuid ix.1 ix.2)
      <$> filter (λ ix, passes_checks files ix.2 = true) (indexed items).
Proof.
  pose proof (sanitize_accepted_items round now uuid files items) as H.
  induction H as [|ix f l k [_ Hf] _ IH]; [done |].
  cbn [fmap list_fmap]. by rewrite Hf, IH.
Qed.

(** Synthesized ids: decimal numbers hold no underscore, so round and
    batch position can be read off an id. *)
Lemma has_char_app (c : ascii) (a b : string) :
  has_char c (a +:+ b) = has_char c a || has_char c b.
Proof.
  induction a as [|d a IH]; [done |].
  rewrite app_str_cons. cbn [has_char]. by rewrite IH, orb_assoc.
Qed.

Lemma pretty_N_go_underscore (x : N) (s : string) :
  has_char "_" s = false → has_char "_" (pretty_N_go x s) = false.
Proof.
  revert s. induction (N.lt_wf_0 x) as [x _ IH]. intros s Hs.
  assert (x = 0 ∨ 0 < x)%N as [-> | Hx] by lia.
  - by rewrite pretty_N_go_0.
  - rewrite pretty_N_go_step by done. apply IH.
    + by apply N.div_lt.
    + cbn [has_char]. rewrite Hs, orb_false_r.
      unfold pretty_N_char. by repeat case_match.
Qed.

Lemma pretty_Z_underscore (z : Z) : has_char "_" (pretty z) = false.
Proof.
  assert (HN : ∀ n : N, has_char "_" (pretty n) = false).
  { intros n. unfold pretty, pretty_N. case_decide; [done |].
    by apply pretty_N_go_underscore. }
  destruct z as [|p|p]; [done | apply HN |].
  change (pretty (Z.neg p)) with ("-" +:+ pretty (N.pos p)).
  rewrite has_char_app. by rewrite (HN (N.pos p)).
Qed.

(** A text is cut at its first underscore in one way only. *)
Lemma cut_at_char (c : ascii) (p1 r1 p2 r2 : string) :
  has_char c p1 = false → has_char c p2 = false →
  p1 +:+ String c r1 = p2 +:+ String c r2 → p1 = p2 ∧ r1 = r2.
Proof.
  revert p2. induction p1 as [|d p1 IH]; intros [|e p2] H1 H2 E;
    rewrite ?app_str_cons, ?app_str_nil_l in E; cbn [has_char] in H1, H2.
  - by injection E.
  - injection E as <- _. by rewrite Ascii.eqb_refl in H2.
  - injection E as <- _. by rewrite Ascii.eqb_refl in H1.
  - injection E as <- E. apply orb_false_iff in H1 as [_ H1].
    apply orb_false_iff in H2 as [_ H2].
    destruct (IH p2 H1 H2 E) as [-> ->]. done.
Qed.

Lemma synth_id_inj (round1 round2 : Z) (i j : nat) (u v : string) :
  synth_id round1 i u = synth_id round2 j v → round1 = round2 ∧ i = j.
Proof.
  unfold synth_id. intros E. apply (inj (String.app "finding_")) in E.
  apply cut_at_char in E as [Er E]; [|apply pretty_Z_underscore..].
  apply cut_at_char in E as [Ei _]; [|apply pretty_Z_underscore..].
  apply (inj pretty) in Er, Ei. split; [done | lia].
Qed.

(** The ids synthesized for one batch are pairwise distinct: a batch none
    of whose items carries an id yields findings with distinct ids. *)
Lemma sanitize_synth_NoDup (now : Z) (uuid : nat → string)
    (items : list DraftFinding.t) (round : Z)
    (files : gmap string ReviewFile.t) :
  Forall (λ item, DraftFinding.id item = None) items →
  NoDup (Finding.id <$> sanitize now uuid items round files).
Proof.
  intros Hnone. rewrite sanitize_ids.
  apply NoDup_fmap_2_strong; [|apply NoDup_filter, indexed_NoDup].
  intros [i x] [j y] [_ Hx%indexed_lookup]%list_elem_of_filter
         [_ Hy%indexed_lookup]%list_elem_of_filter.
  rewrite Forall_lookup in Hnone.
  unfold assigned_id. cbn [fst snd].
  rewrite (Hnone i x Hx), (Hnone j y Hy).
  intros [_ ->]%synth_id_inj. congruence.
Qed.

Lemma handle_submit_ids (input : Submit.t) (uuid : nat → string)
    (t_sanitize t_saved : Z) (s : Session.t) :
  Finding.id
    <$> State.findings
          (Session.state_file (handle_submit input uuid t_sanitize t_saved s).1)
  ≡ₚ (Finding.id <$> State.findings (Session.base s))
     ++ (Finding.id
           <$> sanitize t_sanitize uuid
                        (default [] (Submit.new_findings input))
                        (State.round (Session.base s) + 1)
                        (file_map (Session.files s))).
Proof.
  unfold handle_submit, resolve. destruct (Session.done s); cbn.
  - rewrite app_assoc, fmap_app. apply Permutation_app_tail.
    apply fmap_Permutation. rewrite Permutation_app_comm.
    apply filter_app_complement.
  - rewrite app_assoc, fmap_app. apply Permutation_app_tail.
    apply fmap_Permutation. rewrite Permutation_app_comm.
    apply filter_app_complement.
Qed.

(** After a submission the ids are pairwise distinct exactly when the
    stored ids are and the submission adds fresh ids. *)
Lemma handle_submit_NoDup (input : Submit.t) (uuid : nat → string)
    (t_sanitize t_saved : Z) (s : Session.t) :
  NoDup (Finding.id
           <$> State.findings
                 (Session.state_file
                    (handle_submit input uuid t_sanitize t_saved s).1))
  ↔ NoDup (Finding.id <$> State.findings (Session.base s))
    ∧ fresh_ids s input uuid t_sanitize.
Proof.
  rewrite handle_submit_ids, NoDup_app. unfold fresh_ids, created_ids.
  split.
  - intros (H1 & H2 & H3). split; [done |]. split; [done |].
    intros x Hx Hs. by apply (H2 x).
  - intros (H1 & H2 & H3). split; [done |]. split; [|done].
    intros x Hs Hx. by apply (H3 x).
Qed.

Lemma assigned_id_cases (round : Z) (uuid : nat → string) (index : nat)
    (item : DraftFinding.t) :
  assigned_id round uuid index item
  = default (synth_id round index (uuid index)) (caller_id item).
Proof.
  unfold assigned_id, caller_id.
  destruct (DraftFinding.id item); [|done]. by case_bool_decide.
Qed.

Lemma NoDup_omap_inj {A B} (f : A → option B) (l : list A) (a b : A)
    (v : B) :
  NoDup (omap f l) → a ∈ l → b ∈ l → f a = Some v → f b = Some v → a = b.
Proof.
  induction l as [|x l IH]; intros Hnd Ha Hb Hfa Hfb;
    [by apply elem_of_nil in Ha |].
  assert (Hin : ∀ c, c ∈ l → f c = Some v → v ∈ omap f l).
  { intros c Hc Hfc. apply list_elem_of_omap. by exists c. }
  apply elem_of_cons in Ha as [->|Ha], Hb as [->|Hb]; [done | | |].
  - cbn in Hnd. rewrite Hfa in Hnd. apply NoDup_cons in Hnd as [Hv _].
    destruct Hv. by apply (Hin b).
  - cbn in Hnd. rewrite Hfb in Hnd. apply NoDup_cons in Hnd as [Hv _].
    destruct Hv. by apply (Hin a).
  - apply IH; try done. cbn in Hnd.
    destruct (f x); [by apply NoDup_cons in Hnd as [_ ?] | done].
Qed.

(** Where the stored ids of synthesized shape bear a round that is not
    ahead of the stored round, a submission whose caller-supplied ids are
    fresh adds fresh ids, and the ids it synthesizes bear the new round. *)
Lemma caller_fresh_created (s : Session.t) (input : Submit.t)
    (uuid : nat → string) (t_sanitize : Z) :
  (∀ x, x ∈ Finding.id <$> State.findings (Session.base s) →
        ∀ r i u, x = synth_id r i u → r ≤ State.round (Session.base s)) →
  caller_ids_fresh s input →
  fresh_ids s input uuid t_sanitize
  ∧ ∀ x, x ∈ created_ids s input uuid t_sanitize →
         ∀ r i u, x = synth_id r i u → r ≤ State.round (Session.base s) + 1.
Proof.
  intros Hbound [Hnd Hfresh]. unfold fresh_ids, created_ids.
  rewrite sanitize_ids. unfold caller_ids in Hnd, Hfresh.
  set (accepted :=
         filter (λ ix : nat * DraftFinding.t,
                   passes_checks (file_map (Session.files s)) ix.2 = true)
                (indexed (default [] (Submit.new_findings input)))) in *.
  set (round := State.round (Session.base s) + 1).
  assert (Hcaller : ∀ ix c, ix ∈ accepted → caller_id ix.2 = Some c →
            (c ∉ Finding.id <$> State.findings (Session.base s))
            ∧ ¬ synth_shaped c).
  { intros ix c Hix Hc. apply Hfresh, list_elem_of_omap. by exists ix. }
  assert (Hcases : ∀ ix, ix ∈ accepted →
            (∃ c, caller_id ix.2 = Some c
                  ∧ assigned_id round uuid ix.1 ix.2 = c)
            ∨ (caller_id ix.2 = None
               ∧ assigned_id round uuid ix.1 ix.2
                 = synth_id round ix.1 (uuid ix.1))).
  { intros ix _. rewrite assigned_id_cases.
    destruct (caller_id ix.2) as [c|]; [left; by exists c | by right]. }
  split; [split |].
  - apply NoDup_fmap_2_strong; [|apply NoDup_filter, indexed_NoDup].
    intros [i x] [j y] Hx Hy E.
    destruct (Hcases _ Hx) as [(c & Hc & Ec)|[Hc Ec]],
             (Hcases _ Hy) as [(d & Hd & Ed)|[Hd Ed]];
      cbn [fst snd] in *; rewrite Ec, Ed in E.
    + subst d. by apply (NoDup_omap_inj _ _ _ _ c Hnd).
    + destruct (Hcaller _ _ Hx Hc) as [_ Hshape]. destruct Hshape.
      subst c. by eexists _, _, _.
    + destruct (Hcaller _ _ Hy Hd) as [_ Hshape]. destruct Hshape.
      subst d. by eexists _, _, _.
    + apply synth_id_inj in E as [_ ->].
      apply list_elem_of_filter in Hx as [_ Hx%indexed_lookup].
      apply list_elem_of_filter in Hy as [_ Hy%indexed_lookup].
      congruence.
  - intros x ([i item] & -> & Hix)%list_elem_of_fmap Hstored.
    destruct (Hcases _ Hix) as [(c & Hc & Ec)|[Hc Ec]];
      cbn [fst snd] in *; fold round in Hstored; rewrite Ec in Hstored.
    + by destruct (Hcaller _ _ Hix Hc) as [? _].
    + pose proof (Hbound _ Hstored round i (uuid i) eq_refl). unfold round in *.
      lia.
  - intros x ([i item] & -> & Hix)%list_elem_of_fmap r j u E.
    destruct (Hcases _ Hix) as [(c & Hc & Ec)|[Hc Ec]];
      cbn [fst snd] in *; fold round in E; rewrite Ec in E.
    + destruct (Hcaller _ _ Hix Hc) as [_ Hshape]. destruct Hshape.
      by exists r, j, u.
    + apply synth_id_inj in E as [E _]. fold round. lia.
Qed.

Lemma handle_submit_round (input : Submit.t) (uuid : nat → string)
    (t_sanitize t_saved : Z) (s : Session.t) :
  State.round
    (Session.state_file (handle_submit input uuid t_sanitize t_saved s).1)
  = State.round (Session.base s) + 1.
Proof. unfold handle_submit, resolve. by destruct (Session.done s). Qed.

(** What holds of every state of such a session: the ids are pairwise
    distinct, and an id of synthesized shape bears a round that is not
    ahead of the state's round. *)
Lemma reachable_fresh_inv (state : State.t) :
  reachable_fresh state →
  NoDup (Finding.id <$> State.findings state)
  ∧ ∀ x, x ∈ Finding.id <$> State.findings state →
         ∀ r i u, x = synth_id r i u → r ≤ State.round state.
Proof.
  induction 1
    as [sid now
       |state files t1 t2 reqs _ [IHnd IHb] Hreqs
       |state files t1 t2 reqs input uuid t3 t4 _ [IHnd IHb] Hreqs Hfresh].
  - split; [apply NoDup_nil_2 |]. by intros x Hx%elem_of_nil.
  - destruct (run_inv files state reqs _ Hreqs
                (launch_inv files state t1 t2))
      as (_ & _ & Hsaved & Hfind & _ & _ & Hids).
    by rewrite Hfind, Hids, Hsaved.
  - destruct (run_inv files state reqs _ Hreqs
                (launch_inv files state t1 t2))
      as (_ & Hround & _ & _ & _ & _ & Hids).
    set (s := run (launch files state t1 t2) reqs) in *.
    destruct (caller_fresh_created s input uuid t3) as [Hnew Hnewb];
      [by rewrite Hids, Hround | done |].
    split.
    + apply handle_submit_NoDup. by rewrite Hids.
    + intros x Hx r i u E. rewrite handle_submit_round.
      rewrite handle_submit_ids in Hx.
      apply elem_of_app in Hx as [Hx|Hx].
      * rewrite Hids in Hx. pose proof (IHb x Hx r i u E). lia.
      * by apply (Hnewb x Hx r i u).
Qed.

(** C3 (amended): in every state saved in the course of a session that
    starts fresh, provided the ids the caller supplies in each submission
    (the trimmed, non-blank ids of the accepted items) are pairwise
    distinct, differ from every stored id and do not have the shape of a
    synthesized id, all finding ids are pairwise distinct.  Nothing is
    assumed of the ids [sanitize] synthesizes: by their round and batch
    position they differ from each other and from every stored id, whatever
    the random part.  Reconcile, draft saves and resolve never change the
    list of ids, and a submission keeps the ids pairwise distinct exactly
    when the ids it adds are pairwise distinct and differ from the stored
    ones. *)
Theorem finding_ids_distinct (state : State.t) :
  reachable_fresh state →
  NoDup (Finding.id <$> State.findings state)
  ∧ (∀ now files,
       Finding.id <$> reconcile now files (State.findings state)
       = Finding.id <$> State.findings state)
  ∧ (∀ files t_reconcile t_launch reqs,
       forallb is_review reqs = true →
       let s := run (launch files state t_reconcile t_launch) reqs in
       Finding.id <$> State.findings (Session.state_file s)
       = Finding.id <$> State.findings state
       ∧ ∀ input uuid t_sanitize t_saved,
           created_ids s input uuid t_sanitize
           = (λ ix, assigned_id (State.round state + 1) uuid ix.1 ix.2)
               <$> filter (λ ix, passes_checks (file_map files) ix.2 = true)
                          (indexed (default [] (Submit.new_findings input)))
           ∧ (caller_ids_fresh s input →
              NoDup (Finding.id
                       <$> State.findings
                             (Session.state_file
                                (handle_submit input uuid t_sanitize t_saved
                                               s).1)))
           ∧ (NoDup (Finding.id
                       <$> State.findings
                             (Session.state_file
                                (handle_submit input uuid t_sanitize t_saved
                                               s).1))
              ↔ fresh_ids s input uuid t_sanitize)).
Proof.
  intros Hreach.
  destruct (reachable_fresh_inv state Hreach) as [Hnodup Hbound].
  split; [done |]. split; [intros; apply reconcile_ids |].
  intros files t1 t2 reqs Hreqs s.
  destruct (run_inv files state reqs _ Hreqs (launch_inv files state t1 t2))
    as (Hfiles & Hround & _ & Hfind & _ & _ & Hids).
  fold s in Hfiles, Hround, Hfind, Hids.
  split; [by rewrite Hfind |].
  intros input uuid t3 t4. split; [|split].
  - unfold created_ids. rewrite Hfiles, Hround. apply sanitize_ids.
  - intros Hfresh. apply handle_submit_NoDup. rewrite Hids.
    split; [done |].
    apply (caller_fresh_created s input uuid t3); [|done].
    by rewrite Hids, Hround.
  - rewrite handle_submit_NoDup, Hids. tauto.
Qed.

Lemma not_synth_shaped (x : string) :
  startsWith x "finding_" = false → ¬ synth_shaped x.
Proof.
  intros Hx (r & i & u & ->). unfold startsWith, synth_id in Hx.
  by rewrite (prefix_app_str "finding_") in Hx.
Qed.

(** The first round of a fresh session, ended by a submission with one
    synthesized id and one fresh id of the caller. *)
Lemma first_round_state_reachable : reachable_fresh first_round_state.
Proof.
  apply (reach_submit (defaultState "ses_0" 0) [five_file] 200 201 []
           leak_and_far sample_uuid 400 401).
  - apply reach_default.
  - reflexivity.
  - unfold caller_ids_fresh.
    assert (E : caller_ids
                  (run (launch [five_file] (defaultState "ses_0" 0) 200 201)
                       [])
                  leak_and_far
                = ["dup"]) by (by vm_compute).
    rewrite E. split.
    + apply NoDup_singleton.
    + intros x ->%list_elem_of_singleton. split.
      * apply not_elem_of_nil.
      * by apply not_synth_shaped.
Defined.

(** An instance: the state saved after that first round. *)
Lemma finding_ids_distinct_witness :
  reachable_fresh first_round_state
  ∧ NoDup (Finding.id <$> State.findings first_round_state)
  ∧ (∀ now files,
       Finding.id <$> reconcile now files (State.findings first_round_state)
       = Finding.id <$> State.findings first_round_state)
  ∧ (∀ files t_reconcile t_launch reqs,
       forallb is_review reqs = true →
       let s := run (launch files first_round_state t_reconcile t_launch)
                    reqs in
       Finding.id <$> State.findings (Session.state_file s)
       = Finding.id <$> State.findings first_round_state
       ∧ ∀ input uuid t_sanitize t_saved,
           created_ids s input uuid t_sanitize
           = (λ ix, assigned_id (State.round first_round_state + 1) uuid
                                ix.1 ix.2)
               <$> filter (λ ix, passes_checks (file_map files) ix.2 = true)
                          (indexed (default [] (Submit.new_findings input)))
           ∧ (caller_ids_fresh s input →
              NoDup (Finding.id
                       <$> State.findings
                             (Session.state_file
                                (handle_submit input uuid t_sanitize t_saved
                                               s).1)))
           ∧ (NoDup (Finding.id
                       <$> State.findings
                             (Session.state_file
                                (handle_submit input uuid t_sanitize t_saved
                                               s).1))
              ↔ fresh_ids s input uuid t_sanitize)).
Proof.
  split; [exact first_round_state_reachable |].
  exact (finding_ids_distinct first_round_state first_round_state_reachable).
Defined.

(** Why the shape matters: an id of the caller that is fresh when it is
    submitted in round 1 is the id synthesized in round 2 for the first item
    of the batch. *)
Example submit_synth_shaped_id :
  Finding.id
    <$> State.findings
          (Session.state_file
             (run (launch [five_file]
                     (Session.state_file
                        (run (launch [five_file] (defaultState "ses_0" 0)
                                     200 201)
                             [PostSubmit
                                {| Submit.notes := None;
                                   Submit.new_findings := Some [shaped_item] |}
                                sample_uuid 400 401]))
                     500 501)
                  [PostSubmit
                     {| Submit.notes := None;
                        Submit.new_findings := Some [leak_item] |}
                     sample_uuid 600 601]))
  = ["finding_2_1_3f2a9c"; "finding_2_1_3f2a9c"].
Proof. by vm_compute. Qed.

(** C3 (as stated) fails: from a fresh session, one submission of two new
    findings that carry the same caller-supplied id stores two findings with
    that id. *)
Lemma submit_duplicate_ids :
  NoDup (Finding.id <$> State.findings (defaultState "ses_0" 0))
  ∧ Finding.id
      <$> State.findings
            (Session.state_file
               (run (launch [five_file] (defaultState "ses_0" 0) 200 201)
                    [PostSubmit twice_far sample_uuid 400 401]))
    = ["dup"; "dup"]
  ∧ ¬ NoDup
        (Finding.id
           <$> State.findings
                 (Session.state_file
                    (run (launch [five_file] (defaultState "ses_0" 0) 200 201)
                         [PostSubmit twice_far sample_uuid 400 401]))).
Proof.
  assert (E : Finding.id
      <$> State.findings
            (Session.state_file
               (run (launch [five_file] (defaultState "ses_0" 0) 200 201)
                    [PostSubmit twice_far sample_uuid 400 401]))
    = ["dup"; "dup"]) by (by vm_compute).
  split; [apply NoDup_nil_2 |]. split; [exact E |].
  rewrite E. intros H. apply NoDup_cons in H as [H _].
  apply H. apply list_elem_of_here.
Qed.

(** * Further properties *)

(** ** Anchor codec, beyond the round trip *)

Lemma normalize_sym (a b : Z) : normalize a b = normalize b a.
Proof.
  unfold normalize.
  destruct (Z.leb_spec a b), (Z.leb_spec b a); try done; [|lia].
  by replace b with a by lia.
Qed.

(** X1: the order in which the two line numbers are given does not matter
    to [anchor]. *)
Theorem anchor_symmetric (content : string) (a b : Z) :
  anchor content a b = anchor content b a.
Proof. unfold anchor. by rewrite (normalize_sym a b). Qed.

(** The pair of lines [anchor] works with. *)
Lemma anchor_clamp (content : string) (a b : Z) :
  let n := line_count content in
  let a' := Z.max 1 (Z.min (Z.min a b) n) in
  let b' := Z.max a' (Z.min (Z.max a b) n) in
  1 ≤ a' ∧ a' ≤ b' ∧ b' ≤ n ∧ anchor content a b = anchor content a' b'.
Proof.
  intros n a' b'. pose proof (line_count_pos content) as Hn. fold n in Hn.
  split; [lia |]. split; [lia |]. split; [lia |].
  unfold anchor. fold (line_count content). fold n.
  assert (Hab : normalize a b = (Z.min a b, Z.max a b)).
  { unfold normalize. destruct (Z.leb_spec a b); f_equal; lia. }
  assert (Hab' : normalize a' b' = (a', b')).
  { unfold normalize. destruct (Z.leb_spec a' b'); [done | lia]. }
  rewrite Hab, Hab'. cbn [fst snd]. rewrite !or_num_pos by lia.
  fold a'. fold b'.
  replace (Z.max 1 (Z.min a' n)) with a' by lia.
  replace (Z.max a' (Z.min b' n)) with b' by lia. done.
Qed.


Lemma anchor_valid_fields (content : string) (a b : Z) :
  1 ≤ a ≤ b → b ≤ line_count content →
  let lines := split_nl content in
  let l1 := take (Z.to_nat (a - 1)) lines in
  let mid := take (Z.to_nat (b - a + 1)) (drop (Z.to_nat (a - 1)) lines) in
  let l3 := drop (Z.to_nat b) lines in
  lines = l1 ++ mid ++ l3
  ∧ Z.of_nat (length l1) = a - 1
  ∧ Z.of_nat (length mid) = b - a + 1
  ∧ anchor content a b =
      {| Anchor.before := default "" (last l1);
         Anchor.selected := join_nl mid;
         Anchor.after := default "" (head l3) |}.
Proof.
  intros Hab Hb lines l1 mid l3. unfold line_count in Hb. fold lines in Hb.
  assert (Hl1 : Z.of_nat (length l1) = a - 1).
  { unfold l1. rewrite length_take. lia. }
  assert (Hmid : Z.of_nat (length mid) = b - a + 1).
  { unfold mid. rewrite length_take, length_drop. lia. }
  split.
  { unfold l1, mid, l3.
    rewrite <- (take_drop (Z.to_nat (a - 1)) lines) at 1. f_equal.
    rewrite <- (take_drop (Z.to_nat (b - a + 1))
                  (drop (Z.to_nat (a - 1)) lines)) at 1.
    f_equal. rewrite drop_drop. f_equal. lia. }
  split; [done |]. split; [done |].
  pose proof (anchor_selected_valid content a b Hab) as Hsel.
  unfold line_count in Hsel. specialize (Hsel Hb). fold lines in Hsel.
  fold mid in Hsel.
  destruct (anchor content a b) as [bf sl af] eqn:E.
  cbn in Hsel. subst sl.
  assert (Hbf : Anchor.before (anchor content a b) = default "" (last l1)
              ∧ Anchor.after (anchor content a b) = default "" (head l3)).
  { unfold anchor. fold lines.
    assert (Hn : normalize a b = (a, b)).
    { unfold normalize. destruct (Z.leb_spec a b); [done | lia]. }
    rewrite Hn. cbn [fst snd Anchor.before Anchor.after].
    rewrite !or_num_pos by lia.
    replace (Z.max 1 (Z.min a (Z.of_nat (length lines)))) with a by lia.
    replace (Z.max a (Z.min b (Z.of_nat (length lines)))) with b by lia.
    split.
    - unfold at_index. destruct (Z.ltb_spec (a - 2) 0) as [Hlt | Hge].
      + unfold l1. replace (Z.to_nat (a - 1)) with 0%nat by lia. done.
      + rewrite last_lookup. unfold l1 at 2. rewrite lookup_take_lt.
        * do 2 f_equal. lia.
        * lia.
    - unfold at_index. destruct (Z.ltb_spec b 0); [lia |].
      unfold l3. rewrite head_lookup, lookup_drop. do 2 f_equal. lia. }
  rewrite E in Hbf. cbn in Hbf. destruct Hbf as [-> ->]. done.
Qed.

(** X3: for a valid pair of lines [a ≤ b] the three fields of the anchor
    are read off the document's lines: [selected] is the lines [a .. b]
    joined by line feeds, [before] is line [a - 1] and [after] is line
    [b + 1], each the empty string when there is no such line. *)
Theorem anchor_context_lines (content : string) (a b : Z) :
  1 ≤ a ≤ b → b ≤ line_count content →
  ∃ l1 mid l3,
    split_nl content = l1 ++ mid ++ l3
    ∧ Z.of_nat (length l1) = a - 1
    ∧ Z.of_nat (length mid) = b - a + 1
    ∧ anchor content a b =
        {| Anchor.before := default "" (last l1);
           Anchor.selected := join_nl mid;
           Anchor.after := default "" (head l3) |}.
Proof.
  intros Hab Hb. do 3 eexists. by apply anchor_valid_fields.
Qed.

Lemma anchor_context_lines_witness :
  ∃ l1 mid l3,
    split_nl (text_of ["a"; "b"; "c"; "d"]) = l1 ++ mid ++ l3
    ∧ Z.of_nat (length l1) = 2 - 1
    ∧ Z.of_nat (length mid) = 3 - 2 + 1
    ∧ anchor (text_of ["a"; "b"; "c"; "d"]) 2 3 =
        {| Anchor.before := default "" (last l1);
           Anchor.selected := join_nl mid;
           Anchor.after := default "" (head l3) |}.
Proof.
  apply (anchor_context_lines (text_of ["a"; "b"; "c"; "d"]) 2 3);
    [lia | by vm_compute].
Defined.

(** X4: a range that covers the whole document captures the document
    itself, with no context line on either side. *)
Theorem anchor_whole_document (content : string) (a b : Z) :
  a ≤ 1 → line_count content ≤ b →
  anchor content a b =
    {| Anchor.before := ""; Anchor.selected := content; Anchor.after := "" |}.
Proof.
  intros Ha Hb. pose proof (line_count_pos content) as Hn.
  destruct (anchor_clamp content a b) as (_ & _ & _ & ->).
  replace (Z.max 1 (Z.min (Z.min a b) (line_count content))) with 1 by lia.
  replace (Z.max 1 (Z.min (Z.max a b) (line_count content)))
    with (line_count content) by lia.
  destruct (anchor_valid_fields content 1 (line_count content))
    as (_ & _ & _ & ->); [lia | lia |].
  unfold line_count. rewrite Nat2Z.id.
  change (Z.to_nat (1 - 1)) with 0%nat. rewrite drop_all, drop_0, take_0.
  replace (Z.to_nat (Z.of_nat (length (split_nl content)) - 1 + 1))
    with (length (split_nl content)) by lia.
  rewrite firstn_all, join_split_nl. done.
Qed.

Lemma anchor_whole_document_witness :
  anchor (text_of ["a"; "b"; "c"]) 0 7 =
    {| Anchor.before := ""; Anchor.selected := text_of ["a"; "b"; "c"];
       Anchor.after := "" |}.
Proof.
  apply (anchor_whole_document (text_of ["a"; "b"; "c"]) 0 7);
    [lia | by vm_compute].
Defined.

(** ** Locating, for any stored anchor *)

(** What a successful [remap] says. *)
Lemma remap_inv (item : Finding.t) (file : ReviewFile.t) (r : Range.t) :
  remap item file = Some r →
  let sel := Anchor.selected (Finding.anchor item) in
  let text := side_text (Finding.side item) file in
  sel ≠ "" ∧
  ∃ pre, occurs_after pre sel text
    ∧ r = {| Range.start_line := line_after pre;
             Range.end_line := line_after pre + Z.of_nat (count_nl sel) |}.
Proof.
  intros Hr sel text.
  assert (Hsel : sel ≠ "").
  { intros E. assert (remap item file = None) as Hn; [|congruence].
    apply remap_None. by left. }
  split; [done |].
  assert (Hocc : ∃ pre, occurs_after pre sel text).
  { unfold remap in Hr. fold sel text in Hr.
    destruct (truthy sel); [|done]. cbn [negb] in Hr.
    destruct (Z.ltb_spec (indexOf text sel) 0) as [Hi|Hi]; [done |].
    destruct (indexOf_found text sel Hi) as (pre & post & E & _).
    by exists pre, post. }
  destruct Hocc as [pre0 Hocc].
  destruct (remap_Some item file pre0 Hsel Hocc) as (pre & m & Hpre & _ & _ & E).
  exists pre. split; [done |]. rewrite E in Hr. by injection Hr as <-.
Qed.

Lemma split_nl_app (a b : string) :
  ∃ la x y lb, split_nl a = la ++ [x] ∧ split_nl b = y :: lb
    ∧ split_nl (a +:+ b) = la ++ (x +:+ y) :: lb.
Proof.
  induction a as [|c r IH].
  - destruct (split_nl b) as [|y lb] eqn:Eb.
    { pose proof (length_split_nl b) as Hl. rewrite Eb in Hl. done. }
    exists [], "", y, lb. rewrite !app_str_nil_l. done.
  - destruct IH as (la & x & y & lb & Ea & Eb & Eab).
    rewrite app_str_cons. cbn [split_nl]. rewrite Ea, Eab.
    destruct (Ascii.eqb c LF).
    + by exists ("" :: la), x, y, lb.
    + destruct la as [|h t]; cbn [app].
      * exists [], (String c x), y, lb. by rewrite app_str_cons.
      * by exists (String c h :: t), x, y, lb.
Qed.

Lemma join_nl_cons_app (p s : string) (r : list string) :
  join_nl ((p +:+ s) :: r) = p +:+ join_nl (s :: r).
Proof.
  destruct r as [|y r]; cbn [join_nl]; [done |].
  by rewrite app_str_assoc.
Qed.

Lemma join_nl_snoc_app (l : list string) (x q : string) :
  join_nl (l ++ [x +:+ q]) = join_nl (l ++ [x]) +:+ q.
Proof.
  induction l as [|h t IH]; [done |].
  destruct t as [|h' t]; cbn [app] in *.
  - rewrite !join_nl_cons2. cbn [join_nl].
    rewrite app_str_assoc. by str_simpl.
  - rewrite (join_nl_cons2 h), (join_nl_cons2 h h'), IH.
    rewrite app_str_assoc. by str_simpl.
Qed.

(** The lines an occurrence lies on. *)
Lemma occurrence_lines (pre sel post : string) :
  ∃ lp p mid q lq,
    split_nl pre = lp ++ [p] ∧ split_nl post = q :: lq
    ∧ split_nl (pre +:+ sel +:+ post) = lp ++ mid ++ lq
    ∧ length mid = S (count_nl sel)
    ∧ join_nl mid = p +:+ sel +:+ q.
Proof.
  destruct (split_nl_app sel post) as (ls & sx & q & lq & Es & Ep & Esp).
  destruct (split_nl_app pre (sel +:+ post))
    as (lp & p & y & lb & Epre & Ey & Eall).
  exists lp, p.
  pose proof (length_split_nl sel) as Hlen.
  pose proof (join_split_nl sel) as Hjoin.
  rewrite Es in Hlen, Hjoin. rewrite Esp in Ey.
  destruct ls as [|s1 ls']; cbn [app] in *.
  - injection Ey as <- <-. exists [p +:+ (sx +:+ q)], q, lq.
    cbn [join_nl] in Hjoin. subst sx.
    repeat split; first [done | cbn in *; lia].
  - injection Ey as <- <-.
    exists ((p +:+ s1) :: ls' ++ [sx +:+ q]), q, lq.
    split; [done |]. split; [done |]. split.
    { rewrite Eall. cbn [app]. by rewrite <- app_assoc. }
    split.
    { cbn [length] in *. rewrite length_app in *. cbn [length] in *. lia. }
    rewrite join_nl_cons_app. f_equal.
    change (s1 :: ls' ++ [sx +:+ q]) with ((s1 :: ls') ++ [sx +:+ q]).
    rewrite join_nl_snoc_app. cbn [app]. by rewrite Hjoin.
Qed.

Lemma remap_range_facts (item : Finding.t) (file : ReviewFile.t)
    (r : Range.t) :
  remap item file = Some r →
  let sel := Anchor.selected (Finding.anchor item) in
  let text := side_text (Finding.side item) file in
  sel ≠ ""
  ∧ 1 ≤ Range.start_line r
  ∧ Range.end_line r - Range.start_line r = Z.of_nat (count_nl sel)
  ∧ Range.end_line r ≤ line_count text
  ∧ ∃ p q, count_nl p = 0%nat ∧ count_nl q = 0%nat
      ∧ Anchor.selected
          (anchor text (Range.start_line r) (Range.end_line r))
        = p +:+ sel +:+ q.
Proof.
  intros Hr sel text.
  destruct (remap_inv item file r Hr) as (Hsel & pre & [post E] & ->).
  fold sel text in Hsel, E |- *. cbn [Range.start_line Range.end_line].
  destruct (occurrence_lines pre sel post)
    as (lp & p & mid & q & lq & Epre & Epost & Eall & Hmid & Hjoin).
  rewrite <- E in Eall.
  assert (Hstart : line_after pre = Z.of_nat (length lp) + 1).
  { unfold line_after. rewrite Epre, length_app. cbn. lia. }
  assert (Hcount : line_count text
                   = Z.of_nat (length lp + length mid + length lq)).
  { unfold line_count. by rewrite Eall, !length_app, Nat.add_assoc. }
  split; [done |]. split; [lia |]. split; [lia |]. split; [lia |].
  exists p, q.
  pose proof (split_nl_lines_nl_free pre) as Hfp.
  pose proof (split_nl_lines_nl_free post) as Hfq.
  rewrite Epre in Hfp. rewrite Epost in Hfq.
  apply Forall_app in Hfp as [_ Hfp].
  apply Forall_cons in Hfq as [Hfq _]. apply Forall_cons in Hfp as [Hfp _].
  split; [exact Hfp |]. split; [exact Hfq |].
  rewrite anchor_selected_valid by lia. rewrite Eall, <- Hjoin. f_equal.
  replace (Z.to_nat (line_after pre - 1)) with (length lp) by lia.
  rewrite drop_app_length.
  replace (Z.to_nat (line_after pre + Z.of_nat (count_nl sel)
                     - line_after pre + 1)) with (length mid) by lia.
  by rewrite take_app_length.
Qed.

(** X5: whatever anchor a finding stores, a range [remap] reports lies
    within the comparison text: [1 ≤ start ≤ end ≤ line count], and it
    spans one line more than the selected text has line feeds.  The stored
    selected text is then not empty. *)
Theorem remap_range_in_document (item : Finding.t) (file : ReviewFile.t)
    (r : Range.t) :
  remap item file = Some r →
  Anchor.selected (Finding.anchor item) ≠ ""
  ∧ 1 ≤ Range.start_line r
  ∧ Range.start_line r ≤ Range.end_line r
  ∧ Range.end_line r ≤ line_count (side_text (Finding.side item) file)
  ∧ Range.end_line r - Range.start_line r
    = Z.of_nat (count_nl (Anchor.selected (Finding.anchor item))).
Proof.
  intros Hr.
  destruct (remap_range_facts item file r Hr) as (H1 & H2 & H3 & H4 & _).
  repeat split; try done. lia.
Qed.

Lemma remap_range_in_document_witness :
  Anchor.selected (Finding.anchor twin_finding) ≠ ""
  ∧ 1 ≤ 1 ∧ 1 ≤ 1
  ∧ 1 ≤ line_count (side_text (Finding.side twin_finding) twin_file)
  ∧ 1 - 1
    = Z.of_nat (count_nl (Anchor.selected (Finding.anchor twin_finding))).
Proof.
  apply (remap_range_in_document twin_finding twin_file
           {| Range.start_line := 1; Range.end_line := 1 |}).
  reflexivity.
Defined.

(** X6: capturing the lines [remap] reports gives back the stored selected
    text, up to the rest of its first and of its last line: the capture is
    [p ++ selected ++ q] with no line feed in [p] or [q]. *)
Theorem remap_then_anchor_contains (item : Finding.t) (file : ReviewFile.t)
    (r : Range.t) :
  remap item file = Some r →
  ∃ p q, count_nl p = 0%nat ∧ count_nl q = 0%nat
    ∧ Anchor.selected
        (anchor (side_text (Finding.side item) file)
                (Range.start_line r) (Range.end_line r))
      = p +:+ Anchor.selected (Finding.anchor item) +:+ q.
Proof.
  intros Hr.
  by destruct (remap_range_facts item file r Hr) as (_ & _ & _ & _ & H).
Qed.

Lemma remap_then_anchor_contains_witness :
  ∃ p q, count_nl p = 0%nat ∧ count_nl q = 0%nat
    ∧ Anchor.selected
        (anchor (side_text (Finding.side twin_finding) twin_file) 1 1)
      = p +:+ Anchor.selected (Finding.anchor twin_finding) +:+ q.
Proof.
  apply (remap_then_anchor_contains twin_finding twin_file
           {| Range.start_line := 1; Range.end_line := 1 |}).
  reflexivity.
Defined.

(** ** Sanitizer and reconciler together *)




(** ** The round controller under any requests *)

(** One request leaves each finding of the closure in place, untouched or,
    if it was open, marked resolved. *)
Lemma step_finding (s : Session.t) (r : Request) (i : nat)
    (item : Finding.t) :
  State.findings (Session.base s) !! i = Some item →
  ∃ item', State.findings (Session.base (step s r)) !! i = Some item'
    ∧ (item' = item
       ∨ Finding.status item = open
         ∧ ∃ t1 t2, item' = mark_resolved item t1 t2).
Proof.
  intros Hi. destruct r as [input now|fid t1 t2 t3|input uuid t1 t2|];
    cbn [step].
  - exists item. split; [done | by left].
  - unfold handle_resolve. destruct fid as [fid|]; [|by eauto].
    destruct (truthy fid); cbn [negb]; [|by eauto].
    destruct (list_find _ _) as [[j target]|] eqn:Hfind; [|by eauto].
    apply list_find_Some in Hfind as (Hj & [_ Hopen] & _).
    cbn [fst Session.base State.findings].
    destruct (decide (i = j)) as [->|Hne].
    + rewrite Hj in Hi. injection Hi as ->.
      exists (mark_resolved item t1 t2). split.
      * apply list_lookup_insert_eq. by apply lookup_lt_Some in Hj.
      * right. eauto.
    + exists item. split; [|by left].
      by rewrite list_lookup_insert_ne.
  - exists item. split; [|by left].
    unfold handle_submit, resolve. cbv zeta. cbn [fst].
    by destruct (Session.done s).
  - exists item. split; [|by left].
    unfold on_abort, resolve. by destruct (Session.done s).
Qed.

Lemma run_finding (rs : list Request) (s : Session.t) (i : nat)
    (item : Finding.t) :
  State.findings (Session.base s) !! i = Some item →
  ∃ item', State.findings (Session.base (run s rs)) !! i = Some item'
    ∧ (item' = item
       ∨ Finding.status item = open
         ∧ ∃ t1 t2, item' = mark_resolved item t1 t2).
Proof.
  revert s item. induction rs as [|r rs IH]; intros s item Hi.
  - exists item. split; [done | by left].
  - cbn [run fold_left].
    destruct (step_finding s r i item Hi) as (item1 & H1 & Hc1).
    destruct (IH (step s r) item1 H1) as (item2 & H2 & Hc2).
    exists item2. split; [done |].
    destruct Hc1 as [->|[Hopen (t1 & t2 & ->)]]; [done |].
    destruct Hc2 as [->|[Hopen2 _]]; [|done].
    right. eauto.
Qed.

(** X8: whatever requests arrive in a round, in whatever order, a finding
    of the closure stays at its position and is either left as it is or,
    if it was open, marked resolved: none is removed, reordered or edited,
    and a finding that is not open never changes. *)
Theorem round_only_marks_resolved (s : Session.t) (rs : list Request)
    (i : nat) (item : Finding.t) :
  State.findings (Session.base s) !! i = Some item →
  length (State.findings (Session.base (run s rs)))
  = length (State.findings (Session.base s))
  ∧ ∃ item', State.findings (Session.base (run s rs)) !! i = Some item'
      ∧ (Finding.status item ≠ open → item' = item)
      ∧ (item' = item ∨ ∃ t1 t2, item' = mark_resolved item t1 t2).
Proof.
  intros Hi. split.
  - clear i item Hi. revert s. induction rs as [|r rs IH]; intros s; [done |].
    cbn [run fold_left]. fold (run (step s r) rs). rewrite IH.
    destruct r as [input now|fid t1 t2 t3|input uuid t1 t2|]; cbn [step].
    + done.
    + unfold handle_resolve. destruct fid as [fid|]; [|done].
      destruct (truthy fid); cbn [negb]; [|done].
      destruct (list_find _ _) as [[j target]|]; [|done].
      cbn. by rewrite length_insert.
    + unfold handle_submit, resolve. cbv zeta. cbn [fst].
      by destruct (Session.done s).
    + unfold on_abort, resolve. by destruct (Session.done s).
  - destruct (run_finding rs s i item Hi) as (item' & H & Hc).
    exists item'. split; [done |]. split.
    + intros Hclosed. by destruct Hc as [->|[Hopen _]].
    + destruct Hc as [->|[_ Hm]]; [by left | by right].
Qed.

Lemma round_only_marks_resolved_witness :
  length (State.findings (Session.base
     (run sample_session
        [PostResolve (Some "f1") 310 311 312; PutDraft twice_far 320;
         PostSubmit twice_far sample_uuid 400 401; AbortSignal])))
  = length (State.findings (Session.base sample_session))
  ∧ ∃ item', State.findings (Session.base
       (run sample_session
          [PostResolve (Some "f1") 310 311 312; PutDraft twice_far 320;
           PostSubmit twice_far sample_uuid 400 401; AbortSignal])) !! 0%nat
      = Some item'
      ∧ (Finding.status (relocate five_finding
                           {| Range.start_line := 2; Range.end_line := 3 |}
                           200) ≠ open →
         item' = relocate five_finding
                   {| Range.start_line := 2; Range.end_line := 3 |} 200)
      ∧ (item' = relocate five_finding
                   {| Range.start_line := 2; Range.end_line := 3 |} 200
         ∨ ∃ t1 t2,
             item' = mark_resolved
                       (relocate five_finding
                          {| Range.start_line := 2; Range.end_line := 3 |}
                          200) t1 t2).
Proof.
  apply (round_only_marks_resolved sample_session
           [PostResolve (Some "f1") 310 311 312; PutDraft twice_far 320;
            PostSubmit twice_far sample_uuid 400 401; AbortSignal] 0%nat).
  reflexivity.
Defined.

(** The draft of the closure is the one the round was launched with. *)
Lemma run_base_draft (rs : list Request) (s : Session.t) :
  State.draft (Session.base (run s rs)) = State.draft (Session.base s).
Proof.
  revert s. induction rs as [|r rs IH]; intros s; [done |].
  cbn [run fold_left]. fold (run (step s r) rs). rewrite IH.
  destruct r as [input now|fid t1 t2 t3|input uuid t1 t2|]; cbn [step].
  - done.
  - unfold handle_resolve. destruct fid as [fid|]; [|done].
    destruct (truthy fid); cbn [negb]; [|done].
    by destruct (list_find _ _) as [[j target]|].
  - unfold handle_submit, resolve. cbv zeta. cbn [fst].
    by destruct (Session.done s).
  - unfold on_abort, resolve. by destruct (Session.done s).
Qed.

(** X9: a draft save stores the draft as sent, but a later successful
    resolve action saves the state of the closure, whose draft is still
    the one loaded at launch: the draft saved in between is no longer in
    the saved state. *)
Theorem resolve_restores_launch_draft (files : list ReviewFile.t)
    (state : State.t) (t_reconcile t_launch : Z) (reqs : list Request)
    (input : Submit.t) (now : Z)
    (finding_id : option string) (t_updated t_closed t_saved : Z) :
  let s := run (launch files state t_reconcile t_launch) reqs in
  let drafted := (handle_draft input now s).1 in
  (handle_resolve finding_id t_updated t_closed t_saved drafted).2 = Ok200 →
  State.draft (Session.state_file drafted)
  = Some {| Draft.notes := default "" (Submit.notes input);
            Draft.new_findings := default [] (Submit.new_findings input) |}
  ∧ State.draft
      (Session.state_file
         (handle_resolve finding_id t_updated t_closed t_saved drafted).1)
    = State.draft state.
Proof.
  intros s drafted Hok. split; [done |].
  assert (Hd : State.draft (Session.base drafted) = State.draft state).
  { unfold drafted, handle_draft. cbn [fst Session.base].
    unfold s. by rewrite run_base_draft. }
  revert Hok. unfold handle_resolve.
  destruct finding_id as [fid|]; [|done].
  destruct (truthy fid); cbn [negb]; [|done].
  destruct (list_find _ _) as [[j target]|]; [|done].
  intros _. by cbn.
Qed.

Lemma resolve_restores_launch_draft_witness :
  let s := run (launch [five_file] sample_state 200 201) [] in
  let drafted := (handle_draft twice_far 300 s).1 in
  State.draft (Session.state_file drafted)
  = Some {| Draft.notes := default "" (Submit.notes twice_far);
            Draft.new_findings :=
              default [] (Submit.new_findings twice_far) |}
  ∧ State.draft
      (Session.state_file
         (handle_resolve (Some "f1") 310 311 312 drafted).1)
    = State.draft sample_state.
Proof.
  apply (resolve_restores_launch_draft [five_file] sample_state 200 201 []
           twice_far 300 (Some "f1") 310 311 312).
  reflexivity.
Defined.

Lemma step_done (s : Session.t) (r : Request) (d : Done.t) :
  Session.done s = Some d → Session.done (step s r) = Some d.
Proof.
  intros Hd. destruct r as [input now|fid t1 t2 t3|input uuid t1 t2|];
    cbn [step].
  - done.
  - by destruct (handle_resolve_frame fid t1 t2 t3 s) as (_ & _ & -> & _).
  - unfold handle_submit, resolve. cbv zeta. cbn [fst Session.done].
    by rewrite Hd.
  - unfold on_abort, resolve. by rewrite Hd.
Qed.

(** X10: only the first result counts.  Once the review has a result, no
    later request changes it; a submission that arrives afterwards is still
    answered with success, saves the state of the next round and writes its
    export. *)
Theorem first_result_wins (s : Session.t) (d : Done.t) (rs : list Request)
    (input : Submit.t) (uuid : nat → string) (t_sanitize t_saved : Z) :
  Session.done s = Some d →
  Session.done (run s rs) = Some d
  ∧ (let late := handle_submit input uuid t_sanitize t_saved s in
     late.2 = Ok200
     ∧ Session.done late.1 = Some d
     ∧ State.round (Session.state_file late.1)
       = State.round (Session.base s) + 1
     ∧ length (Session.exports late.1) = S (length (Session.exports s))).
Proof.
  intros Hd. split.
  - revert s Hd. induction rs as [|r rs IH]; intros s Hd; [done |].
    cbn [run fold_left]. apply IH. by apply step_done.
  - unfold handle_submit, resolve. cbv zeta. cbn [fst snd Session.done].
    rewrite Hd. cbn. repeat split; try done.
    rewrite length_app. cbn. lia.
Qed.

Lemma first_result_wins_witness :
  Session.done (run (on_abort sample_session)
                    [PostSubmit twice_far sample_uuid 400 401; AbortSignal])
  = Session.done (on_abort sample_session)
  ∧ (let late := handle_submit twice_far sample_uuid 400 401
                   (on_abort sample_session) in
     late.2 = Ok200
     ∧ Session.done late.1 = Session.done (on_abort sample_session)
     ∧ State.round (Session.state_file late.1)
       = State.round (Session.base (on_abort sample_session)) + 1
     ∧ length (Session.exports late.1)
       = S (length (Session.exports (on_abort sample_session)))).
Proof.
  refine (first_result_wins (on_abort sample_session) _ 
            [PostSubmit twice_far sample_uuid 400 401; AbortSignal]
            twice_far sample_uuid 400 401 _).
  reflexivity.
Defined.

Lemma omap_open_refs (L l : list Finding.t) (k : nat) :
  (∀ p, L !! (k + p)%nat = l !! p) →
  omap (λ ref, L !! ref) (open_refs k l)
  = filter (λ item, Finding.status item = open) l.
Proof.
  revert k. induction l as [|x l IH]; intros k HL; [done |].
  cbn [open_refs]. rewrite filter_cons.
  assert (Hrest : ∀ p, L !! (S k + p)%nat = l !! p).
  { intros p. change (l !! p) with ((x :: l) !! S p).
    rewrite <- (HL (S p)). f_equal. lia. }
  destruct (is_open x) eqn:Ex.
  - apply is_open_true in Ex. rewrite decide_True by done.
    specialize (HL 0%nat). rewrite Nat.add_0_r in HL.
    change (omap (λ ref, L !! ref) (k :: open_refs (S k) l))
      with (match L !! k with
            | Some y => y :: omap (λ ref, L !! ref) (open_refs (S k) l)
            | None => omap (λ ref, L !! ref) (open_refs (S k) l)
            end).
    rewrite HL. cbn. by rewrite IH.
  - apply is_open_false in Ex. rewrite decide_False by done. by apply IH.
Qed.

(** X11: during the review phase the launch data served to the UI list
    exactly the findings of the closure that are still open, in their
    order: every resolve action removes the reference to the finding it
    closes and no other. *)
Theorem launch_data_lists_open_findings (files : list ReviewFile.t)
    (state : State.t) (t_reconcile t_launch : Z) (reqs : list Request) :
  forallb is_review reqs = true →
  let s := run (launch files state t_reconcile t_launch) reqs in
  omap (λ ref, State.findings (Session.base s) !! ref)
       (Launch.existing_findings (Session.data s))
  = filter (λ item, Finding.status item = open)
           (State.findings (Session.base s)).
Proof.
  intros Hreqs s.
  pose proof (existing_findings_in_sync files state t_reconcile t_launch
                reqs Hreqs) as Hsync.
  cbv zeta in Hsync. fold s in Hsync. rewrite Hsync.
  by apply omap_open_refs.
Qed.

Lemma launch_data_lists_open_findings_witness :
  forallb is_review
    [PutDraft twice_far 300; PostResolve (Some "f1") 310 311 312] = true
  ∧ (let s := run (launch [five_file; twin_file]
                     {| State.session_id := "ses_1";
                        State.round := 1;
                        State.findings := [five_finding; twin_finding];
                        State.draft := None;
                        State.updated_at := 100 |} 200 201)
                  [PutDraft twice_far 300;
                   PostResolve (Some "f1") 310 311 312] in
     omap (λ ref, State.findings (Session.base s) !! ref)
          (Launch.existing_findings (Session.data s))
     = filter (λ item, Finding.status item = open)
              (State.findings (Session.base s))).
Proof.
  split; [reflexivity |].
  apply (launch_data_lists_open_findings [five_file; twin_file]
           {| State.session_id := "ses_1";
              State.round := 1;
              State.findings := [five_finding; twin_finding];
              State.draft := None;
              State.updated_at := 100 |} 200 201
           [PutDraft twice_far 300; PostResolve (Some "f1") 310 311 312]).
  reflexivity.
Defined.

(** ** Synthesized ids *)

Lemma assigned_id_synth (round : Z) (uuid : nat → string) (index : nat)
    (item : DraftFinding.t) :
  trim (default "" (DraftFinding.id item)) = "" →
  assigned_id round uuid index item = synth_id round index (uuid index).
Proof.
  unfold assigned_id. destruct (DraftFinding.id item) as [s|]; [|done].
  cbn. intros E. by rewrite bool_decide_eq_true_2.
Qed.

Lemma sanitize_synth_ids (now : Z) (uuid : nat → string)
    (items : list DraftFinding.t) (round : Z)
    (files : gmap string ReviewFile.t) (x : string) :
  Forall (λ item, trim (default "" (DraftFinding.id item)) = "") items →
  x ∈ Finding.id <$> sanitize now uuid items round files →
  ∃ index, (index < length items)%nat
           ∧ x = synth_id round index (uuid index).
Proof.
  intros Hblank. rewrite sanitize_ids.
  intros ([i item] & -> & [_ Hi%indexed_lookup]%list_elem_of_filter)%list_elem_of_fmap.
  exists i. split; [by apply lookup_lt_Some in Hi |].
  rewrite Forall_lookup in Hblank. cbn [fst snd].
  by apply assigned_id_synth, (Hblank i).
Qed.

(** X12: the ids [sanitize] synthesizes never collide, whatever the random
    part is: within a batch whose items bring no id of their own (absent or
    blank) the ids are pairwise distinct, and two such batches sanitized
    for different rounds share no id. *)
Theorem synthesized_ids_distinct (now1 now2 : Z) (uuid1 uuid2 : nat → string)
    (items1 items2 : list DraftFinding.t) (round1 round2 : Z)
    (files1 files2 : gmap string ReviewFile.t) :
  Forall (λ item, trim (default "" (DraftFinding.id item)) = "") items1 →
  Forall (λ item, trim (default "" (DraftFinding.id item)) = "") items2 →
  round1 ≠ round2 →
  NoDup ((Finding.id <$> sanitize now1 uuid1 items1 round1 files1)
         ++ (Finding.id <$> sanitize now2 uuid2 items2 round2 files2)).
Proof.
  intros H1 H2 Hround.
  assert (Hbatch : ∀ now uuid items round files,
            Forall (λ item, trim (default "" (DraftFinding.id item)) = "")
                   items →
            NoDup (Finding.id <$> sanitize now uuid items round files)).
  { intros now uuid items round files Hblank. rewrite sanitize_ids.
    apply NoDup_fmap_2_strong; [|apply NoDup_filter, indexed_NoDup].
    intros [i x] [j y] [_ Hx%indexed_lookup]%list_elem_of_filter
           [_ Hy%indexed_lookup]%list_elem_of_filter.
    rewrite Forall_lookup in Hblank. cbn [fst snd].
    rewrite !assigned_id_synth by eauto.
    intros [_ ->]%synth_id_inj. congruence. }
  apply NoDup_app. split; [by apply Hbatch |]. split; [|by apply Hbatch].
  intros x (i & _ & ->)%sanitize_synth_ids (j & _ & E)%sanitize_synth_ids;
    [|done | done].
  by apply synth_id_inj in E as [? _].
Qed.

Lemma synthesized_ids_distinct_witness :
  NoDup ((Finding.id <$> sanitize 400 sample_uuid [leak_item; leak_item] 1
                                  (file_map [five_file]))
         ++ (Finding.id <$> sanitize 500 sample_uuid [leak_item] 2
                                     (file_map [five_file]))).
Proof.
  apply synthesized_ids_distinct.
  - by repeat constructor.
  - by repeat constructor.
  - lia.
Defined.

(** ** More on strings *)

Lemma trimStart_not_ws (s : string) :
  match trimStart s with
  | EmptyString => True
  | String c _ => is_ws c = false
  end.
Proof.
  induction s as [|c s IH]; [done |]. cbn [trimStart].
  destruct (is_ws c) eqn:E; [done | by rewrite E].
Qed.

Lemma trimEnd_idemp (s : string) : trimEnd (trimEnd s) = trimEnd s.
Proof.
  induction s as [|c s IH]; [done |]. cbn [trimEnd].
  destruct (trimEnd s) as [|d r] eqn:E.
  - destruct (is_ws c) eqn:Ec; [done |]. cbn [trimEnd]. by rewrite Ec.
  - change (trimEnd (String c (String d r)))
      with (match trimEnd (String d r) with
            | EmptyString =>
                if is_ws c then EmptyString else String c EmptyString
            | String e r' => String c (String e r')
            end).
    by rewrite IH.
Qed.

Lemma trimEnd_head (c : ascii) (s : string) :
  is_ws c = false → ∃ r, trimEnd (String c s) = String c r.
Proof.
  intros Hc. cbn [trimEnd]. destruct (trimEnd s); [|by eauto].
  rewrite Hc. by eauto.
Qed.

Lemma trimStart_id (s : string) :
  match s with EmptyString => True | String c _ => is_ws c = false end →
  trimStart s = s.
Proof. destruct s as [|c s]; [done |]. cbn [trimStart]. by intros ->. Qed.

Lemma trim_idemp (s : string) : trim (trim s) = trim s.
Proof.
  unfold trim. pose proof (trimStart_not_ws s) as H.
  destruct (trimStart s) as [|c r] eqn:E; [done |].
  destruct (trimEnd_head c r H) as [r' E'].
  rewrite E'. rewrite trimStart_id by done.
  rewrite <- E'. apply trimEnd_idemp.
Qed.

Lemma count_nl_trimStart (s : string) :
  (count_nl (trimStart s) ≤ count_nl s)%nat.
Proof.
  induction s as [|c s IH]; [done |]. cbn [trimStart].
  destruct (is_ws c); [|done]. cbn [count_nl]. lia.
Qed.

Lemma count_nl_trimEnd (s : string) :
  (count_nl (trimEnd s) ≤ count_nl s)%nat.
Proof.
  induction s as [|c s IH]; [done |]. cbn [trimEnd].
  destruct (trimEnd s) as [|d r].
  - destruct (is_ws c); cbn [count_nl]; lia.
  - cbn [count_nl] in *. lia.
Qed.

Lemma count_nl_trim (s : string) : (count_nl (trim s) ≤ count_nl s)%nat.
Proof.
  unfold trim. pose proof (count_nl_trimEnd (trimStart s)).
  pose proof (count_nl_trimStart s). lia.
Qed.

Lemma substring_app_skip (p r : string) (k : nat) :
  substring (String.length p) k (p +:+ r) = substring 0 k r.
Proof. induction p as [|c p IH]; [done |]. by rewrite app_str_cons. Qed.

Lemma substring_all (s : string) : substring 0 (String.length s) s = s.
Proof. induction s as [|c s IH]; [done |]. cbn. by rewrite IH. Qed.

Lemma substring_cut (s : string) (k : nat) :
  (k ≤ String.length s)%nat →
  s = substring 0 k s +:+ substring k (String.length s - k) s.
Proof.
  revert k. induction s as [|c s IH]; intros k Hk.
  - cbn in Hk. by replace k with 0%nat by lia.
  - destruct k as [|k].
    + rewrite Nat.sub_0_r. cbn [substring]. rewrite app_str_nil_l.
      change (String c s = String c (substring 0 (String.length s) s)).
      by rewrite substring_all.
    + cbn [substring String.length Nat.sub]. rewrite app_str_cons.
      f_equal. apply IH. cbn in Hk. lia.
Qed.

(** [endsWith] is the suffix test. *)
Lemma endsWith_spec (s suffix : string) :
  endsWith s suffix = true ↔ ∃ p, s = p +:+ suffix.
Proof.
  unfold endsWith. split.
  - destruct (Nat.leb_spec (String.length suffix) (String.length s))
      as [Hle|]; [|done].
    intros E%String.eqb_eq.
    exists (substring 0 (String.length s - String.length suffix) s).
    pose proof (substring_cut s (String.length s - String.length suffix))
      as Hcut.
    replace (String.length s - (String.length s - String.length suffix))%nat
      with (String.length suffix) in Hcut by lia.
    rewrite E in Hcut. apply Hcut. lia.
  - intros [p ->]. rewrite length_app_str.
    destruct (Nat.leb_spec (String.length suffix)
                (String.length p + String.length suffix)); [|lia].
    replace (String.length p + String.length suffix - String.length suffix)%nat
      with (String.length p) by lia.
    rewrite substring_app_skip, substring_all. apply String.eqb_refl.
Qed.

Lemma endsWith_refl (s : string) : endsWith s s = true.
Proof. apply endsWith_spec. by exists "". Qed.

Lemma endsWith_LF (s : string) :
  endsWith s (String LF "") = true ↔ ∃ p, s = p +:+ String LF "".
Proof. apply endsWith_spec. Qed.

(** ** Git listings *)

Lemma split_clean (content : string) : Forall clean_name (split content).
Proof.
  unfold split. apply Forall_forall. intros x [Hx Hin]%list_elem_of_filter.
  apply list_elem_of_fmap in Hin as (y & -> & Hy).
  split; [by apply truthy_true |]. split; [apply trim_idemp |].
  pose proof (split_nl_lines_nl_free content) as Hfree.
  rewrite Forall_forall in Hfree. specialize (Hfree y Hy).
  pose proof (count_nl_trim y). lia.
Qed.

(** X13: every name [split] returns is not empty, has no white space at
    either end and no line feed. *)
Theorem split_names_clean (content : string) :
  Forall (λ x, x ≠ "" ∧ trim x = x ∧ count_nl x = 0%nat) (split content).
Proof. apply split_clean. Qed.

Lemma split_nl_line (l r : string) :
  count_nl l = 0%nat → split_nl (l +:+ String LF r) = l :: split_nl r.
Proof.
  induction l as [|c l IH]; intros Hl.
  - rewrite app_str_nil_l. done.
  - rewrite app_str_cons. cbn [split_nl]. cbn [count_nl] in Hl.
    destruct (Ascii.eqb c LF); [done |]. by rewrite IH.
Qed.

Lemma split_nl_terminated (ls : list string) :
  Forall (λ l, count_nl l = 0%nat) ls →
  split_nl (terminated ls) = ls ++ [""].
Proof.
  induction 1 as [|l ls Hl _ IH]; [done |].
  cbn [terminated foldr]. fold (terminated ls).
  by rewrite split_nl_line, IH.
Qed.

(** X14: a listing of clean names, one per line, each ended by a line
    feed, is split back into these names. *)
Theorem split_terminated (ls : list string) :
  Forall clean_name ls → split (terminated ls) = ls.
Proof.
  intros Hclean. unfold split. rewrite split_nl_terminated.
  - rewrite fmap_app, filter_app. cbn [fmap list_fmap].
    change (trim "") with "". rewrite filter_cons, decide_False by done.
    rewrite filter_nil, app_nil_r.
    induction Hclean as [|x l (Hx & Ht & _) _ IH]; [done |].
    cbn [fmap list_fmap]. rewrite filter_cons, Ht.
    rewrite decide_True by by apply truthy_true.
    f_equal. apply IH.
  - eapply Forall_impl; [exact Hclean |]. by intros x (_ & _ & ?).
Qed.

Lemma split_terminated_witness :
  split (terminated ["src/a.ts"; "b c.md"]) = ["src/a.ts"; "b c.md"].
Proof.
  apply split_terminated.
  repeat constructor; by vm_compute.
Defined.

Lemma count_terminator (content : string) :
  content ≠ "" →
  count content
  = Z.of_nat (count_nl content)
    + (if endsWith content (String LF "") then 0 else 1).
Proof.
  intros Hne%truthy_true. unfold count. rewrite Hne. cbn [negb].
  rewrite length_split_nl.
  destruct (endsWith content (String LF "")); lia.
Qed.

Lemma count_nonneg (content : string) : 0 ≤ count content.
Proof.
  unfold count. destruct (truthy content); cbn [negb]; [|done].
  destruct (endsWith _ _); lia.
Qed.

Lemma count_zero (content : string) : count content = 0 ↔ content = "".
Proof.
  split; [|by intros ->].
  destruct content as [|c r]; [done |]. intros H.
  rewrite count_terminator in H by done.
  destruct (endsWith (String c r) (String LF "")) eqn:E; [|lia].
  apply endsWith_LF in E as [p E]. rewrite E, count_nl_app in H.
  change (count_nl (String LF "")) with 1%nat in H. lia.
Qed.

Lemma count_nl_terminated (ls : list string) :
  Forall (λ l, count_nl l = 0%nat) ls →
  count_nl (terminated ls) = length ls.
Proof.
  induction 1 as [|l ls Hl _ IH]; [done |].
  cbn [terminated foldr length]. fold (terminated ls).
  rewrite count_nl_app, count_nl_LF, Hl, IH. done.
Qed.

Lemma terminated_ends (l : string) (ls : list string) :
  ∃ p, terminated (l :: ls) = p +:+ String LF "".
Proof.
  revert l. induction ls as [|l' ls IH]; intros l.
  - by exists l.
  - destruct (IH l') as [p E]. exists (l +:+ String LF p).
    cbn [terminated foldr] in *. rewrite E, app_str_assoc. by str_simpl.
Qed.

Lemma app_str_inj_l (t a b : string) : t +:+ a = t +:+ b → a = b.
Proof.
  induction t as [|c t IH]; [done |]. rewrite !app_str_cons.
  intros [=]. by apply IH.
Qed.

Lemma endsWith_app (t l suffix : string) :
  (String.length suffix ≤ String.length l)%nat →
  endsWith (t +:+ l) suffix = endsWith l suffix.
Proof.
  intros Hlen. apply eq_true_iff_eq. rewrite !endsWith_spec. split.
  - intros [p E].
    destruct (prefix_of_prefix t l p suffix E) as [m ->].
    { apply (f_equal String.length) in E. rewrite !length_app_str in E. lia. }
    rewrite app_str_assoc in E. apply app_str_inj_l in E. by exists m.
  - intros [p ->]. exists (t +:+ p). by rewrite app_str_assoc.
Qed.

Lemma line_not_terminated (l : string) :
  count_nl l = 0%nat → endsWith l (String LF "") = false.
Proof.
  intros Hl. destruct (endsWith l (String LF "")) eqn:E; [|done].
  apply endsWith_LF in E as [p ->]. rewrite count_nl_app in Hl.
  change (count_nl (String LF "")) with 1%nat in Hl. lia.
Qed.

(** X15: [count] counts lines as a diff does: it is [0] for the empty text
    only, a text of [n] lines each ended by a line feed counts [n], and a
    last line without its line feed counts as one more. *)
Theorem count_lines (ls : list string) (l : string) :
  Forall (λ l, count_nl l = 0%nat) ls → count_nl l = 0%nat →
  count (terminated ls) = Z.of_nat (length ls)
  ∧ (l ≠ "" → count (terminated ls +:+ l) = Z.of_nat (length ls) + 1)
  ∧ (∀ content, count content = 0 ↔ content = "").
Proof.
  intros Hls Hl. split; [|split].
  - destruct ls as [|x ls]; [done |].
    rewrite count_terminator.
    + destruct (terminated_ends x ls) as [p E].
      rewrite count_nl_terminated by done.
      replace (endsWith (terminated (x :: ls)) (String LF "")) with true;
        [lia |].
      symmetry. apply endsWith_LF. by exists p.
    + destruct (terminated_ends x ls) as [p ->]. by destruct p.
  - intros Hne. rewrite count_terminator.
    + rewrite count_nl_app, count_nl_terminated, Hl by done.
      rewrite endsWith_app.
      * rewrite line_not_terminated by done. lia.
      * destruct l; [done | cbn; lia].
    + destruct l as [|c l]; [done |]. by destruct (terminated ls).
  - apply count_zero.
Qed.

Lemma count_lines_witness :
  count (terminated ["a"; ""; "b"]) = Z.of_nat (length ["a"; ""; "b"])
  ∧ ("c" ≠ "" →
     count (terminated ["a"; ""; "b"] +:+ "c")
     = Z.of_nat (length ["a"; ""; "b"]) + 1)
  ∧ (∀ content, count content = 0 ↔ content = "").
Proof.
  apply (count_lines ["a"; ""; "b"] "c"); [by repeat constructor | done].
Defined.

Lemma Set_from_fold (l acc : list string) :
  NoDup acc →
  let r := fold_left (λ acc x, if decide (x ∈ acc) then acc else acc ++ [x])
                     l acc in
  NoDup r ∧ ∀ x, x ∈ r ↔ x ∈ acc ∨ x ∈ l.
Proof.
  revert acc. induction l as [|y l IH]; intros acc Hacc; cbn [fold_left].
  - split; [done |]. intros x. rewrite elem_of_nil. tauto.
  - destruct (decide (y ∈ acc)) as [Hy|Hy].
    + destruct (IH acc Hacc) as [Hnd Hin]. split; [done |].
      intros x. rewrite Hin, elem_of_cons. split; [tauto |].
      intros [?|[->|?]]; tauto.
    + destruct (IH (acc ++ [y])) as [Hnd Hin].
      { apply NoDup_app. split; [done |]. split; [|apply NoDup_singleton].
        intros x Hx ->%list_elem_of_singleton. done. }
      split; [done |]. intros x.
      rewrite Hin, elem_of_app, list_elem_of_singleton, elem_of_cons. tauto.
Qed.

Lemma Set_from_spec (l : list string) :
  NoDup (Set_from l) ∧ ∀ x, x ∈ Set_from l ↔ x ∈ l.
Proof.
  destruct (Set_from_fold l [] (NoDup_nil_2 (A:=string))) as [Hnd Hin].
  split; [done |]. intros x. unfold Set_from. rewrite Hin, elem_of_nil. tauto.
Qed.

Lemma or_str_nonempty (a b : string) : b ≠ "" → or_str a b ≠ "".
Proof.
  intros Hb. unfold or_str. destruct (truthy a) eqn:E; [|done].
  by apply truthy_true.
Qed.

Lemma run_error_nonempty (result : RunResult.t) (fallback : string) :
  fallback ≠ "" → run_error result fallback ≠ "".
Proof. intros H. unfold run_error. by do 2 apply or_str_nonempty. Qed.

Lemma names_facts (tracked untracked : RunResult.t) :
  let r := names tracked untracked in
  match r.2 with
  | Some e =>
      r.1 = [] ∧ e ≠ ""
      ∧ (RunResult.ok tracked = false ∨ RunResult.ok untracked = false)
  | None =>
      RunResult.ok tracked = true ∧ RunResult.ok untracked = true
      ∧ NoDup r.1
      ∧ Forall clean_name r.1
      ∧ ∀ x, x ∈ r.1 ↔
             (x ∈ split (RunResult.stdout tracked)
              ∨ x ∈ split (RunResult.stdout untracked))
             ∧ internal x = false
  end.
Proof.
  unfold names. destruct (RunResult.ok tracked); cbn [negb].
  2: { cbn. split; [done |]. split; [by apply run_error_nonempty | by left]. }
  destruct (RunResult.ok untracked); cbn [negb].
  2: { cbn. split; [done |]. split; [by apply run_error_nonempty | by right]. }
  cbn [fst snd].
  destruct (Set_from_spec (split (RunResult.stdout tracked)
                           ++ split (RunResult.stdout untracked)))
    as [Hnd Hin].
  split; [done |]. split; [done |]. split; [by apply NoDup_filter |].
  split.
  - apply Forall_forall. intros x [_ Hx%Hin]%list_elem_of_filter.
    apply elem_of_app in Hx as [Hx|Hx];
      [pose proof (split_clean (RunResult.stdout tracked)) as Hc
      |pose proof (split_clean (RunResult.stdout untracked)) as Hc];
      rewrite Forall_forall in Hc; by apply Hc.
  - intros x. rewrite list_elem_of_filter, Hin, elem_of_app. tauto.
Qed.

(** X16: the listing of changed files.  When one of the two git commands
    fails, [names] returns no file and an error message that is not empty.
    Otherwise it returns, without repetition, exactly the clean names of
    either output that are not internal to the review tool. *)
Theorem names_listing (tracked untracked : RunResult.t) :
  let r := names tracked untracked in
  match r.2 with
  | Some e =>
      r.1 = [] ∧ e ≠ ""
      ∧ (RunResult.ok tracked = false ∨ RunResult.ok untracked = false)
  | None =>
      RunResult.ok tracked = true ∧ RunResult.ok untracked = true
      ∧ NoDup r.1
      ∧ ∀ x, x ∈ r.1 ↔
             (x ∈ split (RunResult.stdout tracked)
              ∨ x ∈ split (RunResult.stdout untracked))
             ∧ internal x = false
  end.
Proof.
  pose proof (names_facts tracked untracked) as H. cbv zeta in *.
  destruct (names tracked untracked).2; [done |].
  destruct H as (H1 & H2 & H3 & _ & H5). done.
Qed.

(** X17: [repo] and [merge] return either a path (a revision) that is not
    empty and has no white space around it, or the empty path with an
    error message that is not empty; never both, never neither. *)
Theorem repo_path_or_error (base : string) (result : RunResult.t) :
  (match repo result with
   | (p, None) => RunResult.ok result = true ∧ p ≠ "" ∧ trim p = p
   | (p, Some e) => p = "" ∧ e ≠ ""
   end)
  ∧ (match merge base result with
     | (rev, None) => RunResult.ok result = true ∧ rev ≠ "" ∧ trim rev = rev
     | (rev, Some e) => rev = "" ∧ e ≠ ""
     end).
Proof.
  unfold repo, merge. destruct (RunResult.ok result); cbn [negb].
  - destruct (truthy (trim (RunResult.stdout result))) eqn:E; cbn [negb].
    + apply truthy_true in E. by rewrite trim_idemp.
    + split; (split; [done |]); [done |]. by destruct base.
  - split; (split; [done |]); apply run_error_nonempty; [done |].
    by destruct base.
Qed.

(** X18: without a numstat entry, the counts of a collected file are
    derived from the line counts of its two contents: neither is negative,
    at most one is positive, and their difference is the difference of the
    line counts.  The file is [added] exactly when only the new content is
    not empty, [deleted] exactly when only the old one is. *)
Theorem collect_entry_fallback (file prev next : string) :
  let e := collect_entry file prev next None in
  0 ≤ SourceFile.additions e
  ∧ 0 ≤ SourceFile.deletions e
  ∧ (SourceFile.additions e = 0 ∨ SourceFile.deletions e = 0)
  ∧ SourceFile.additions e - SourceFile.deletions e = count next - count prev
  ∧ (SourceFile.status e = ReviewFile.added ↔ prev = "" ∧ next ≠ "")
  ∧ (SourceFile.status e = ReviewFile.deleted ↔ prev ≠ "" ∧ next = "").
Proof.
  cbv zeta. unfold collect_entry.
  cbn [SourceFile.additions SourceFile.deletions SourceFile.status].
  pose proof (count_nonneg prev). pose proof (count_nonneg next).
  destruct prev as [|c prev], next as [|d next]; cbn [truthy negb andb];
    change (count "") with 0 in *;
    repeat split; try lia; try done; try (intros [? ?]; done).
Qed.

(** ** From the listing to the file index *)

(** X19: the index [reconcile] and [sanitize] look files up in holds, for
    each path, the last file of the list with that path. *)
Theorem file_map_last_wins (files : list ReviewFile.t) (p : string) :
  file_map files !! p = last (filter (λ f, ReviewFile.path f = p) files)
  ∧ (∀ f, file_map (files ++ [f]) !! ReviewFile.path f = Some f).
Proof.
  split; [apply file_map_lookup |].
  intros f. rewrite file_map_lookup, filter_app, filter_cons.
  rewrite decide_True by done. rewrite filter_nil. apply last_snoc.
Qed.

Lemma file_map_unique (files : list ReviewFile.t) (f : ReviewFile.t) :
  NoDup (ReviewFile.path <$> files) → f ∈ files →
  file_map files !! ReviewFile.path f = Some f.
Proof.
  intros Hnd Hf.
  destruct (file_map files !! ReviewFile.path f) as [g|] eqn:E.
  - apply file_map_Some in E as [Hg Hp]. f_equal.
    apply list_elem_of_lookup in Hg as [i Hi].
    apply list_elem_of_lookup in Hf as [j Hj].
    assert (i = j) as ->; [|congruence].
    apply (NoDup_lookup _ i j (ReviewFile.path f) Hnd).
    + by rewrite list_lookup_fmap, Hi, <- Hp.
    + by rewrite list_lookup_fmap, Hj.
  - exfalso. by apply (proj1 (file_map_None files _) E f).
Qed.

Lemma elem_of_scoped (parsed_files : option (list string))
    (all : list SourceFile.t) (item : SourceFile.t) :
  item ∈ scoped parsed_files all
  ↔ item ∈ all ∧ passes_filter parsed_files (SourceFile.file item).
Proof.
  unfold scoped, passes_filter.
  destruct parsed_files as [[|v vs]|]; [tauto | | tauto].
  rewrite list_elem_of_filter. split.
  - intros [Hkeep Hin]. split; [done |].
    apply orb_true_iff in Hkeep as [Heq|Hsuf].
    + apply bool_decide_eq_true in Heq. by exists (SourceFile.file item), "".
    + apply existsb_exists in Hsuf as (value & Hv & [q E]%endsWith_spec).
      exists value, q. split; [by apply list_elem_of_In | done].
  - intros [Hin (value & q & Hv & E)]. split; [|done].
    apply orb_true_iff. right. apply existsb_exists. exists value.
    split; [by apply list_elem_of_In |]. apply endsWith_spec. by exists q.
Qed.

Lemma scoped_sublist (parsed_files : option (list string))
    (all : list SourceFile.t) :
  scoped parsed_files all `sublist_of` all.
Proof.
  unfold scoped. destruct parsed_files as [[|v vs]|]; [done | | done].
  apply sublist_filter.
Qed.

(** X20: from the git listing to the index of the review.  If the listing
    fails, so does [collectWorking], with the listing's error in its
    message.  Otherwise it collects one entry per listed name, in order;
    [execute] renders and indexes those that pass the [--files] filter, so
    the index of the review holds exactly the listed names that pass the
    filter, each with the two contents read for it. *)
Theorem collected_files_indexed (tracked untracked : RunResult.t)
    (map : gmap string Stat.t) (prev next : string → string)
    (parsed_files : option (list string)) :
  let listed := names tracked untracked in
  let r := collectWorking listed map prev next in
  let index := file_map (review_files parsed_files r.1) in
  match listed.2 with
  | Some e => r = ([], Some ("Failed to read git diff: " +:+ e))
  | None =>
      r.2 = None
      ∧ SourceFile.file <$> r.1 = listed.1
      ∧ ∀ p,
          (p ∈ listed.1 ∧ passes_filter parsed_files p →
           ∃ f, index !! p = Some f
                ∧ ReviewFile.path f = p
                ∧ ReviewFile.before f = prev p
                ∧ ReviewFile.after f = next p)
          ∧ (¬ (p ∈ listed.1 ∧ passes_filter parsed_files p) →
             index !! p = None)
  end.
Proof.
  pose proof (names_facts tracked untracked) as H.
  cbv zeta in *. unfold collectWorking.
  destruct (names tracked untracked) as [l [e|]];
    cbn [fst snd default from_option id] in *.
  - destruct H as (_ & He & _). apply truthy_true in He. by rewrite He.
  - cbn [truthy]. destruct H as (_ & _ & Hnd & _).
    set (entry := λ file,
           collect_entry file (prev file) (next file) (map !! file)).
    assert (Hall : ∃ all, (if (length l =? 0)%nat then ([], None)
                           else (entry <$> l, None))
                          = (all, @None string)
                          ∧ all = entry <$> l) .
    { destruct l; by eexists. }
    destruct Hall as (all & -> & Hall). cbn [fst snd].
    assert (Hfiles : SourceFile.file <$> all = l).
    { rewrite Hall, <- list_fmap_compose. apply list_fmap_id. }
    split; [done |]. split; [done |]. intros p.
    assert (Hpaths : ReviewFile.path <$> review_files parsed_files all
                     = SourceFile.file <$> scoped parsed_files all).
    { unfold review_files, renderFiles. by rewrite <- list_fmap_compose. }
    split.
    + intros [Hp Hpass].
      set (f := {| ReviewFile.path := p;
                   ReviewFile.status := SourceFile.status (entry p);
                   ReviewFile.additions := SourceFile.additions (entry p);
                   ReviewFile.deletions := SourceFile.deletions (entry p);
                   ReviewFile.before := prev p;
                   ReviewFile.after := next p |}).
      exists f. split; [|done].
      apply (file_map_unique _ f).
      * rewrite Hpaths. eapply sublist_NoDup; [|apply fmap_sublist,
          (scoped_sublist parsed_files all)]. by rewrite Hfiles.
      * unfold review_files, renderFiles. apply list_elem_of_fmap.
        exists (entry p). split; [done |]. apply elem_of_scoped.
        split; [|done]. rewrite Hall. apply list_elem_of_fmap. by exists p.
    + intros Hnot. apply file_map_None. intros f Hf Hpath. apply Hnot.
      unfold review_files, renderFiles in Hf.
      apply list_elem_of_fmap in Hf as (item & -> & Hitem).
      apply elem_of_scoped in Hitem as [Hitem Hpass].
      cbn [ReviewFile.path] in Hpath. rewrite Hpath in Hpass.
      split; [|done]. rewrite <- Hfiles, <- Hpath.
      apply list_elem_of_fmap. by exists item.
Qed.

(** ** The [--files] filter *)

(** X21: the [--files] filter keeps a file exactly when its path ends with
    one of the given values; the test for equality adds nothing.  Without
    values every file is kept. *)
Theorem scoped_suffix_filter (values : list string) (all : list SourceFile.t)
    (item : SourceFile.t) :
  (item ∈ scoped (Some values) all ↔
   item ∈ all
   ∧ (values = []
      ∨ ∃ value p, value ∈ values ∧ SourceFile.file item = p +:+ value))
  ∧ scoped None all = all.
Proof.
  split; [|done]. unfold scoped. destruct values as [|v vs].
  { split; [by intros ?; split; [|left] | by intros [? _]]. }
  rewrite list_elem_of_filter. split.
  - intros [Hkeep Hin]. split; [done |]. right.
    apply orb_true_iff in Hkeep as [Heq|Hsuf].
    + apply bool_decide_eq_true in Heq. by exists (SourceFile.file item), "".
    + apply existsb_exists in Hsuf as (value & Hv & [p E]%endsWith_spec).
      exists value, p. split; [by apply list_elem_of_In | done].
  - intros [Hin [|(value & p & Hv & E)]]; [done |]. split; [|done].
    apply orb_true_iff. right. apply existsb_exists. exists value.
    split; [by apply list_elem_of_In |]. apply endsWith_spec. by exists p.
Qed.

(** ** Command arguments *)

Lemma split_ws_from_no_ws (in_ws : bool) (s : string) :
  Forall (λ t, has_ws t = false) (split_ws_from in_ws s).
Proof.
  revert in_ws. induction s as [|c s IH]; intros in_ws.
  - by repeat constructor.
  - cbn [split_ws_from]. destruct (is_ws c) eqn:Ec.
    + destruct in_ws; [apply IH |]. constructor; [done | apply IH].
    + specialize (IH false). destruct (split_ws_from false s) as [|h t].
      * repeat constructor. cbn. by rewrite Ec.
      * apply Forall_cons in IH as [Hh Ht]. constructor; [|done].
        cbn. by rewrite Ec.
Qed.

Lemma has_ws_substring (s : string) (n m : nat) :
  has_ws s = false → has_ws (substring n m s) = false.
Proof.
  revert n m. induction s as [|c s IH]; intros n m H.
  - by destruct n, m.
  - cbn in H. apply orb_false_iff in H as [Hc Hs].
    destruct n as [|n]; cbn [substring].
    + destruct m as [|m]; [done |]. cbn. by rewrite Hc, IH.
    + by apply IH.
Qed.

Lemma has_ws_str_slice (s : string) (b e : Z) :
  has_ws s = false → has_ws (str_slice s b e) = false.
Proof. apply has_ws_substring. Qed.

Lemma trimEnd_no_ws (s : string) : has_ws s = false → trimEnd s = s.
Proof.
  induction s as [|c s IH]; [done |]. cbn. intros [Hc Hs]%orb_false_iff.
  rewrite IH by done. destruct s; [by rewrite Hc | done].
Qed.

Lemma trim_no_ws (s : string) : has_ws s = false → trim s = s.
Proof.
  intros H. unfold trim. rewrite trimStart_id.
  - by apply trimEnd_no_ws.
  - destruct s as [|c s]; [done |]. cbn in H.
    by apply orb_false_iff in H as [? _].
Qed.

Lemma split_chr_pieces (sep : ascii) (s : string) :
  has_ws s = false →
  Forall (λ t, has_ws t = false ∧ has_char sep t = false) (split_chr sep s).
Proof.
  induction s as [|c s IH]; intros H.
  - by repeat constructor.
  - cbn in H. apply orb_false_iff in H as [Hc Hs]. specialize (IH Hs).
    cbn [split_chr]. destruct (Ascii.eqb c sep) eqn:E.
    + by constructor.
    + assert (E' : Ascii.eqb sep c = false) by by rewrite Ascii.eqb_sym.
      destruct (split_chr sep s) as [|h t].
      * repeat constructor; cbn; [by rewrite Hc | by rewrite E'].
      * apply Forall_cons in IH as [[Hh1 Hh2] Ht]. constructor; [|done].
        cbn. by rewrite Hc, E', Hh1, Hh2.
Qed.

Lemma files_value_parsed (value : string) :
  has_ws value = false →
  let parsed :=
    filter (λ item, truthy item = true) (trim <$> split_chr "," value) in
  (length parsed =? 0)%nat = false → files_value parsed.
Proof.
  intros Hws parsed Hlen. split.
  - intros E. by rewrite E in Hlen.
  - apply Forall_forall. intros x [Hx Hin]%list_elem_of_filter.
    apply list_elem_of_fmap in Hin as (y & -> & Hy).
    pose proof (split_chr_pieces "," value Hws) as Hp.
    rewrite Forall_forall in Hp. destruct (Hp y Hy) as [H1 H2].
    rewrite trim_no_ws in * by done. by apply truthy_true in Hx.
Qed.

Lemma parse_error_ok (message : string) : parsed_ok (parse_error message).
Proof. unfold parsed_ok. cbn. by eauto. Qed.

Lemma parse_tokens_ok (n : nat) (tokens : list string)
    (files : option (list string)) (base : option string) :
  (length tokens ≤ n)%nat →
  Forall (λ t, has_ws t = false) tokens →
  (∀ fs, files = Some fs → files_value fs) →
  (∀ b, base = Some b → base_value b) →
  parsed_ok (parse_tokens tokens files base).
Proof.
  revert tokens files base.
  induction n as [|n IH]; intros tokens files base Hn Hws Hf Hb.
  { destruct tokens; [by split | cbn in Hn; lia]. }
  destruct tokens as [|token rest]; [by split |].
  apply Forall_cons in Hws as [Htoken Hrest]. cbn [length] in Hn.
  cbn [parse_tokens].
  destruct (truthy token); cbn [negb]; [|apply IH; [lia | done..]].
  destruct (String.eqb token "--files" || startsWith token "--files=").
  - set (value := if startsWith token "--files=" then _ else head rest).
    assert (Hvalue : has_ws (default "" value) = false).
    { unfold value. destruct (startsWith token "--files=").
      - by apply has_ws_str_slice.
      - destruct rest as [|t rest']; [done |].
        by apply Forall_cons in Hrest as [? _]. }
    destruct (negb (truthy (default "" value))
              || startsWith (default "" value) "--");
      [apply parse_error_ok |].
    destruct (length _ =? 0)%nat eqn:Hlen; [apply parse_error_ok |].
    pose proof (files_value_parsed _ Hvalue Hlen) as Hparsed.
    destruct (String.eqb token "--files").
    + destruct rest as [|t rest'].
      * split; cbn; [by intros fs [= <-] | done].
      * apply Forall_cons in Hrest as [_ Hrest'].
        apply IH; [cbn in Hn; lia | done | by intros fs [= <-] | done].
    + apply IH; [lia | done | by intros fs [= <-] | done].
  - destruct (String.eqb token "--base" || startsWith token "--base=");
      [|apply parse_error_ok].
    set (value := if startsWith token "--base=" then _ else head rest).
    assert (Hvalue : has_ws (default "" value) = false).
    { unfold value. destruct (startsWith token "--base=").
      - by apply has_ws_str_slice.
      - destruct rest as [|t rest']; [done |].
        by apply Forall_cons in Hrest as [? _]. }
    destruct (truthy (default "" value)) eqn:Et; cbn [negb orb];
      [|apply parse_error_ok].
    destruct (startsWith (default "" value) "--") eqn:Es;
      [apply parse_error_ok |].
    apply truthy_true in Et.
    assert (Hbase : base_value (default "" value)) by done.
    destruct (String.eqb token "--base").
    + destruct rest as [|t rest'].
      * split; cbn; [done | by intros b [= <-]].
      * apply Forall_cons in Hrest as [_ Hrest'].
        apply IH; [cbn in Hn; lia | done | done | by intros b [= <-]].
    + apply IH; [lia | done | done | by intros b [= <-]].
Qed.

(** X22: [parse] returns either an error or options, never both.  An error
    message ends with the usage line.  Accepted options are well formed:
    [files] has at least one entry and its entries are not empty and free
    of white space and commas; [base] is not empty, free of white space and
    does not start with two dashes. *)
Theorem parse_well_formed (raw : option string) :
  match Parsed.error (parse raw) with
  | Some e =>
      Parsed.files (parse raw) = None ∧ Parsed.base (parse raw) = None
      ∧ ∃ message, e = message +:+ String LF usage
  | None =>
      (∀ fs, Parsed.files (parse raw) = Some fs →
         fs ≠ []
         ∧ Forall (λ f, f ≠ "" ∧ has_ws f = false ∧ has_char "," f = false)
                  fs)
      ∧ (∀ b, Parsed.base (parse raw) = Some b →
           b ≠ "" ∧ has_ws b = false ∧ startsWith b "--" = false)
  end.
Proof.
  change (parsed_ok (parse raw)). unfold parse.
  destruct (truthy (trim (default "" raw))); cbn [negb]; [|by split].
  eapply parse_tokens_ok; [done | | done | done].
  apply Forall_forall. intros t [_ Ht]%list_elem_of_filter.
  pose proof (split_ws_from_no_ws false (trim (default "" raw))) as Hws.
  rewrite Forall_forall in Hws. by apply Hws.
Qed.

(** X23: in the token loop a flag joined to its value by [=] is read as
    the flag followed by the value as the next token. *)
Theorem flag_forms_agree (value : string) (rest : list string)
    (files : option (list string)) (base : option string) :
  parse_tokens (("--files=" +:+ value) :: rest) files base
  = parse_tokens ("--files" :: value :: rest) files base
  ∧ parse_tokens (("--base=" +:+ value) :: rest) files base
    = parse_tokens ("--base" :: value :: rest) files base.
Proof.
  assert (Hslice : ∀ p, str_slice (p +:+ value)
                          (Z.of_nat (String.length p))
                          (Z.of_nat (String.length (p +:+ value))) = value).
  { intros p. unfold str_slice, rel_index. rewrite length_app_str.
    destruct (Z.ltb_spec (Z.of_nat (String.length p)) 0); [lia |].
    destruct (Z.ltb_spec
                (Z.of_nat (String.length p + String.length value)) 0);
      [lia |].
    rewrite !Z.min_l by lia. rewrite Nat2Z.id.
    replace (Z.to_nat (Z.of_nat (String.length p + String.length value)
                       - Z.of_nat (String.length p)))
      with (String.length value) by lia.
    rewrite substring_app_skip. apply substring_all. }
  split.
  - cbn [parse_tokens].
    assert (E1 : startsWith ("--files=" +:+ value) "--files=" = true)
      by apply prefix_app_str.
    assert (E2 : String.eqb ("--files=" +:+ value) "--files" = false).
    { apply String.eqb_neq. intros E.
      apply (f_equal String.length) in E. rewrite length_app_str in E.
      cbn in E. lia. }
    rewrite E1, E2. change (truthy ("--files=" +:+ value)) with true.
    change (truthy "--files") with true.
    change (String.eqb "--files" "--files") with true.
    change (startsWith "--files" "--files=") with false.
    cbn [negb orb head].
    change 8 with (Z.of_nat (String.length "--files=")).
    rewrite Hslice. done.
  - cbn [parse_tokens].
    assert (E0 : startsWith ("--base=" +:+ value) "--files=" = false)
      by by str_simpl.
    assert (E1 : startsWith ("--base=" +:+ value) "--base=" = true)
      by apply prefix_app_str.
    assert (E2 : String.eqb ("--base=" +:+ value) "--base" = false).
    { apply String.eqb_neq. intros E.
      apply (f_equal String.length) in E. rewrite length_app_str in E.
      cbn in E. lia. }
    assert (E3 : String.eqb ("--base=" +:+ value) "--files" = false)
      by by str_simpl.
    rewrite E0, E1, E2, E3. change (truthy ("--base=" +:+ value)) with true.
    change (truthy "--base") with true.
    change (String.eqb "--base" "--files") with false.
    change (startsWith "--base" "--files=") with false.
    change (String.eqb "--base" "--base") with true.
    change (startsWith "--base" "--base=") with false.
    cbn [negb orb head].
    change 7 with (Z.of_nat (String.length "--base=")).
    rewrite Hslice. done.
Qed.

(** ** Round exports *)

Lemma pretty_N_char_nonzero (d : N) :
  (0 < d < 10)%N → pretty_N_char d ≠ "0"%char.
Proof.
  intros Hd. rewrite <- (N2Nat.id d).
  destruct (N.to_nat d) as [|[|[|[|[|[|[|[|[|[|n]]]]]]]]]] eqn:E;
    try lia; by vm_compute.
Qed.

Lemma pretty_N_go_lead (x : N) (s : string) :
  (0 < x)%N → ∃ c r, pretty_N_go x s = String c r ∧ c ≠ "0"%char.
Proof.
  revert s. induction (N.lt_wf_0 x) as [x _ IH]. intros s Hx.
  rewrite pretty_N_go_step by done.
  destruct (N.eq_0_gt_0_cases (x `div` 10)) as [E|Hq].
  - rewrite E, pretty_N_go_0. do 2 eexists. split; [done |].
    apply pretty_N_char_nonzero.
    assert (x < 10)%N by (by apply N.div_small_iff in E).
    rewrite N.mod_small by done. lia.
  - apply IH; [|done]. apply N.div_lt; lia.
Qed.

Lemma pretty_no_leading_zero (z : Z) : 0 ≤ z → no_leading_zero (pretty z).
Proof.
  intros Hz. destruct z as [|p|p]; [by left | | lia]. right.
  change (pretty (Z.pos p)) with (pretty (N.pos p)).
  unfold pretty, pretty_N. rewrite decide_False by done.
  by apply pretty_N_go_lead.
Qed.

Lemma pad_zero_inj (k1 k2 : nat) (s1 s2 : string) :
  no_leading_zero s1 → no_leading_zero s2 →
  Nat.iter k1 (String "0"%char) s1 = Nat.iter k2 (String "0"%char) s2 →
  s1 = s2.
Proof.
  assert (Hlead : ∀ k s s', no_leading_zero s → no_leading_zero s' →
            s = String "0"%char (Nat.iter k (String "0"%char) s') → False).
  { intros k s s' [->|(c & r & -> & Hc)] Hs' E.
    - injection E as E. destruct k; cbn in E.
      + subst s'. by destruct Hs' as [|(? & ? & ? & ?)].
      + done.
    - by injection E as -> _. }
  revert k2. induction k1 as [|k1 IH]; intros [|k2] H1 H2 E; cbn in E.
  - done.
  - exfalso. by eapply (Hlead k2 s1 s2).
  - exfalso. by eapply (Hlead k1 s2 s1).
  - injection E as E. by apply (IH k2).
Qed.

Lemma app_str_inj_r (a b c : string) : a +:+ c = b +:+ c → a = b.
Proof.
  revert b. induction a as [|x a IH]; intros [|y b] E.
  - done.
  - apply (f_equal String.length) in E.
    rewrite app_str_nil_l, length_app_str in E. cbn in E. lia.
  - apply (f_equal String.length) in E.
    rewrite app_str_nil_l, length_app_str in E. cbn in E. lia.
  - rewrite !app_str_cons in E. injection E as -> E. f_equal. by apply IH.
Qed.

(** X24: the stamp of a round has at least three characters, and two
    different rounds never share an export file name. *)
Theorem json_name_inj (a b : Z) :
  0 ≤ a → 0 ≤ b →
  (3 ≤ String.length (stamp a))%nat
  ∧ (json_name a = json_name b → a = b).
Proof.
  intros Ha Hb. split.
  - unfold stamp, padStart.
    assert (Hlen : ∀ k s, String.length (Nat.iter k (String "0"%char) s)
                          = (k + String.length s)%nat).
    { intros k s. induction k as [|k IH]; [done |].
      rewrite Nat.iter_succ. cbn [String.length]. by rewrite IH. }
    rewrite Hlen. lia.
  - unfold json_name. intros E%app_str_inj_l%app_str_inj_r.
    apply (inj pretty). unfold stamp, padStart in E.
    eapply pad_zero_inj; [| |exact E]; by apply pretty_no_leading_zero.
Qed.

Lemma json_name_inj_witness :
  (3 ≤ String.length (stamp 7))%nat
  ∧ (json_name 7 = json_name 1007 → 7 = 1007).
Proof. apply (json_name_inj 7 1007); lia. Defined.

(** ** Files the listing leaves out, contents it blanks *)

Lemma str_includes_app (pre pat post : string) :
  str_includes (pre +:+ pat +:+ post) pat = true.
Proof.
  unfold str_includes. apply Z.leb_le.
  by destruct (indexOf_least pre pat post).
Qed.

Lemma internal_review_path (dir rest : string) :
  dir = "" ∨ (∃ d, dir = d +:+ "/") →
  internal (dir +:+ ".opencode/reviews/" +:+ rest) = true.
Proof.
  intros [->|[d ->]]; unfold internal; apply orb_true_iff.
  - left. rewrite app_str_nil_l. apply prefix_app_str.
  - right. rewrite app_str_assoc.
    change ("/" +:+ ".opencode/reviews/" +:+ rest)
      with ("/.opencode/reviews/" +:+ rest).
    apply str_includes_app.
Qed.

(** X25: the listing never contains a file of the review tool's own
    output directory [.opencode/reviews/], whether that directory is at
    the top or below some directory. *)
Theorem names_skip_review_files (tracked untracked : RunResult.t)
    (dir rest : string) :
  dir = "" ∨ (∃ d, dir = d +:+ "/") →
  dir +:+ ".opencode/reviews/" +:+ rest ∉ (names tracked untracked).1.
Proof.
  intros Hdir Hin. pose proof (names_facts tracked untracked) as H.
  cbv zeta in H.
  destruct (names tracked untracked) as [l [e|]]; cbn [fst snd] in *.
  - destruct H as (-> & _). by apply elem_of_nil in Hin.
  - destruct H as (_ & _ & _ & _ & H). apply H in Hin as [_ Hint].
    by rewrite internal_review_path in Hint.
Qed.

Lemma names_skip_review_files_witness :
  ".opencode/reviews/ses_1/round-001.json"
  ∉ (names {| RunResult.ok := true;
              RunResult.stdout :=
                terminated ["a.ts"; ".opencode/reviews/ses_1/round-001.json"];
              RunResult.stderr := "" |}
           {| RunResult.ok := true; RunResult.stdout := "";
              RunResult.stderr := "" |}).1.
Proof.
  apply (names_skip_review_files _ _ "" "ses_1/round-001.json").
  by left.
Defined.

(** X26: a content with a NUL character is read as empty, like a file that
    does not exist.  So a file whose new content is binary is collected
    with an empty [after]: as [deleted] when its old content is a
    non-empty text, as [modified] otherwise. *)
Theorem binary_content_is_empty (content file prev : string)
    (stat : option Stat.t) :
  str_includes content NUL = true →
  let e := collect_entry file prev (after (Some content)) stat in
  after (Some content) = after None
  ∧ SourceFile.after e = ""
  ∧ SourceFile.status e
    = (if truthy prev then ReviewFile.deleted else ReviewFile.modified).
Proof.
  intros Hnul. cbv zeta. unfold after, text. rewrite Hnul.
  cbn. by destruct (truthy prev).
Qed.

Lemma binary_content_is_empty_witness :
  let content := String "a" NUL in
  let e := collect_entry "logo.png" "old" (after (Some content)) None in
  after (Some content) = after None
  ∧ SourceFile.after e = ""
  ∧ SourceFile.status e
    = (if truthy "old" then ReviewFile.deleted else ReviewFile.modified).
Proof.
  apply (binary_content_is_empty (String "a" NUL) "logo.png" "old" None).
  reflexivity.
Defined.

Lemma text_no_NUL (content : string) :
  str_includes (text content) NUL = false.
Proof.
  unfold text. by destruct (str_includes content NUL) eqn:E.
Qed.

Lemma at_rev_no_NUL (result : RunResult.t) :
  str_includes (at_rev result) NUL = false.
Proof.
  unfold at_rev. destruct (RunResult.ok result); cbn [negb]; [|done].
  apply text_no_NUL.
Qed.

(** X27: what [collectBase] returns.  If the merge base cannot be
    resolved, or the listing fails, it returns no file and a message that
    names the base and carries the error.  Otherwise it collects one entry
    per listed name, in order; no entry is internal to the review tool, and
    no content contains a NUL character. *)
Theorem collect_base_outcome (base : string)
    (merge_result list_result : RunResult.t) (map : gmap string Stat.t)
    (show_base show_head : string → RunResult.t) :
  let merged := merge base merge_result in
  let listed := branchNames list_result in
  let r := collectBase base merged listed map show_base show_head in
  match merged.2, listed.2 with
  | Some e, _ =>
      r = ([], Some ("Failed to resolve --base " +:+ base +:+ ": " +:+ e))
  | None, Some e =>
      r = ([], Some ("Failed to read git diff for --base " +:+ base +:+ ": "
                     +:+ e))
  | None, None =>
      r.2 = None
      ∧ SourceFile.file <$> r.1 = listed.1
      ∧ Forall (λ e, internal (SourceFile.file e) = false
                     ∧ str_includes (SourceFile.before e) NUL = false
                     ∧ str_includes (SourceFile.after e) NUL = false) r.1
  end.
Proof.
  cbv zeta. unfold collectBase.
  assert (Hm : ∀ e, (merge base merge_result).2 = Some e → truthy e = true).
  { unfold merge. intros e. destruct (RunResult.ok merge_result); cbn [negb].
    - destruct (truthy (trim (RunResult.stdout merge_result))); cbn; [done |].
      intros [= <-]. by destruct base.
    - cbn. intros [= <-]. apply truthy_true, run_error_nonempty.
      by destruct base. }
  destruct (merge base merge_result) as [rev [e|]];
    cbn [fst snd default from_option id] in *.
  { by rewrite (Hm e). }
  cbn [truthy]. clear Hm.
  assert (Hl : match (branchNames list_result).2 with
               | Some e => truthy e = true
               | None => Forall (λ x, internal x = false)
                                (branchNames list_result).1
               end).
  { unfold branchNames. destruct (RunResult.ok list_result); cbn.
    - apply Forall_forall. by intros x [? _]%list_elem_of_filter.
    - by apply truthy_true, run_error_nonempty. }
  destruct (branchNames list_result) as [l [e|]];
    cbn [fst snd default from_option id] in *.
  { by rewrite Hl. }
  cbn [truthy]. destruct l as [|x l]; [by repeat split |].
  cbn [length Nat.eqb fst snd]. split; [done |]. split.
  - rewrite <- list_fmap_compose. apply list_fmap_id.
  - apply Forall_fmap. eapply Forall_impl; [exact Hl |].
    intros file Hfile. cbn. split; [done |].
    split; apply at_rev_no_NUL.
Qed.

(** X28: the contents [collectWorking] collects, read with [before] and
    [after], never contain a NUL character; without a [HEAD] commit every
    old content is empty, so no file is collected as [deleted]. *)
Theorem working_contents_text (listed : list string * option string)
    (map : gmap string Stat.t) (withHead : bool)
    (show : string → RunResult.t) (read : string → option string) :
  Forall (λ e, str_includes (SourceFile.before e) NUL = false
               ∧ str_includes (SourceFile.after e) NUL = false
               ∧ (withHead = false →
                  SourceFile.before e = ""
                  ∧ SourceFile.status e ≠ ReviewFile.deleted))
         (collectWorking listed map
            (λ file, before withHead (show file))
            (λ file, after (read file))).1.
Proof.
  unfold collectWorking.
  destruct (truthy (default "" listed.2)); [by constructor |].
  destruct (length listed.1 =? 0)%nat; [by constructor |].
  cbn [fst]. apply Forall_fmap, Forall_forall. intros file _. cbn.
  split; [|split].
  - unfold before. destruct withHead; cbn [negb]; [|done].
    destruct (RunResult.ok (show file)); cbn [negb]; [|done].
    apply text_no_NUL.
  - unfold after. destruct (read file); [apply text_no_NUL | done].
  - intros ->. split; [done |]. cbn. by destruct (truthy (after (read file))).
Qed.
